(** * The sync journal and the propagator of the ownCloud client

    A shallow embedding of
    - [src/libsync/syncjournaldb.cpp]  (the journal over its SQL gateway:
      file records, blacklist, download and upload information),
    - [owncloudpropagator.cpp]         (job tree, leaf completion, composites,
      directory jobs, restoring in shared directories, job and disk limits),
    - [src/mirall/networkjobs.cpp]     ([CheckServerJob::slotFinished]),
    and the properties of the specification settled against it, with
    further properties read off the code. *)

From Stdlib Require Import ZArith Lia Bool String Ascii List.
From stdpp Require Import base option list gmap strings.
Import ListNotations.

Local Open Scope string_scope.
Local Open Scope list_scope.
Local Open Scope Z_scope.

(** ** QString *)

Module QStr.

(** [QString::isEmpty]. *)
Definition isEmpty (s : string) : bool :=
  match s with EmptyString => true | String _ _ => false end.

(** [s.startsWith(p)]: [p] is a prefix of [s]. *)
Fixpoint startsWith (s p : string) {struct p} : bool :=
  match p with
  | EmptyString => true
  | String c p' =>
      match s with
      | EmptyString => false
      | String d s' => if Ascii.eqb c d then startsWith s' p' else false
      end
  end.

(** The SQL operator [s LIKE pat] as the journal's connection evaluates it:
    [%] matches any run of characters, [_] any one character, every other
    character itself ([PRAGMA case_sensitive_like = ON]; no escape
    character is given in the journal's statements). *)
Fixpoint like (pat s : string) {struct pat} : bool :=
  match pat with
  | EmptyString => isEmpty s
  | String c pat' =>
      if Ascii.eqb c "%" then
        (fix star (t : string) : bool :=
           like pat' t ||
           match t with
           | EmptyString => false
           | String _ t' => star t'
           end) s
      else
        match s with
        | EmptyString => false
        | String d s' =>
            if Ascii.eqb c "_" then like pat' s'
            else if Ascii.eqb c d then like pat' s' else false
        end
  end.

(** ASCII lower-casing, as SQLite's [COLLATE NOCASE] folds. *)
Definition lower (c : ascii) : ascii :=
  let n := nat_of_ascii c in
  if (Nat.leb 65 n && Nat.leb n 90)%bool then ascii_of_nat (n + 32) else c.

Fixpoint toLower (s : string) : string :=
  match s with
  | EmptyString => EmptyString
  | String c s' => String (lower c) (toLower s')
  end.

Lemma append_assoc (a b c : string) : (a +:+ b) +:+ c = a +:+ b +:+ c.
Proof.
  induction a as [|x a IH]; [reflexivity|].
  change (String x ((a +:+ b) +:+ c) = String x (a +:+ b +:+ c)).
  rewrite IH. reflexivity.
Qed.

Lemma startsWith_app (p r : string) : startsWith (p +:+ r) p = true.
Proof.
  induction p as [|c p IH]; simpl; [reflexivity|].
  rewrite Ascii.eqb_refl. exact IH.
Qed.

Lemma startsWith_inv (s p : string) :
  startsWith s p = true -> exists r, s = p +:+ r.
Proof.
  revert s. induction p as [|c p IH]; intros s H; simpl in *.
  - exists s. reflexivity.
  - destruct s as [|d s]; [discriminate|].
    destruct (Ascii.eqb_spec c d) as [->|]; [|discriminate].
    destruct (IH _ H) as [r ->]. exists r. reflexivity.
Qed.

Lemma like_percent_unfold (pat s : string) :
  like (String "%" pat) s =
  (like pat s ||
   match s with
   | EmptyString => false
   | String _ t => like (String "%" pat) t
   end)%bool.
Proof. destruct s; reflexivity. Qed.

Lemma like_other_unfold (c d : ascii) (pat s : string) :
  Ascii.eqb c "%" = false ->
  like (String c pat) (String d s) =
  if Ascii.eqb c "_" then like pat s
  else if Ascii.eqb c d then like pat s else false.
Proof. intros H. cbn [like]. rewrite H. reflexivity. Qed.

Lemma like_percent_all (s : string) : like "%" s = true.
Proof.
  induction s as [|d s IH]; [reflexivity|].
  rewrite like_percent_unfold, IH. apply orb_true_r.
Qed.

(** Every string that starts with [p +:+ "/"] matches the pattern
    [p +:+ "/%"], whatever wildcards [p] itself contains. *)
Lemma like_prefix_pattern (p r : string) :
  like (p +:+ "/%") (p +:+ "/" +:+ r) = true.
Proof.
  induction p as [|c p IH].
  - change (like (String "/" "%") (String "/" r) = true).
    rewrite like_other_unfold by reflexivity.
    change (Ascii.eqb "/" "_") with false. cbn iota.
    rewrite Ascii.eqb_refl. apply like_percent_all.
  - change (like (String c (p +:+ "/%")) (String c (p +:+ "/" +:+ r)) = true).
    destruct (Ascii.eqb c "%") eqn:E.
    + apply Ascii.eqb_eq in E. subst c.
      rewrite like_percent_unfold, (like_percent_unfold _ (p +:+ "/" +:+ r)), IH.
      rewrite orb_true_l. apply orb_true_r.
    + rewrite like_other_unfold by exact E.
      destruct (Ascii.eqb c "_"); [exact IH|].
      rewrite Ascii.eqb_refl. exact IH.
Qed.

(** A path without the wildcards of [LIKE]. *)
Fixpoint noWildcard (p : string) : bool :=
  match p with
  | EmptyString => true
  | String c p' =>
      (negb (Ascii.eqb c "%") && negb (Ascii.eqb c "_") && noWildcard p')%bool
  end.

Lemma like_nil_r (c : ascii) (pat : string) :
  Ascii.eqb c "%" = false -> like (String c pat) "" = false.
Proof. intros H. cbn [like]. rewrite H. reflexivity. Qed.

(** For a path without wildcards the pattern [p +:+ "/%"] takes exactly
    the strings that start with [p +:+ "/"]. *)
Lemma like_plain_prefix (p s : string) :
  noWildcard p = true -> like (p +:+ "/%") s = startsWith s (p +:+ "/").
Proof.
  revert s. induction p as [|c p IH]; intros s Hp.
  - change (like (String "/" "%") s = startsWith s (String "/" "")).
    destruct s as [|d s]; [reflexivity|].
    rewrite like_other_unfold by reflexivity.
    change (Ascii.eqb "/" "_") with false. cbn iota. cbn [startsWith].
    destruct (Ascii.eqb "/" d); [apply like_percent_all|reflexivity].
  - cbn [noWildcard] in Hp.
    apply andb_prop in Hp as [Hp Hrest]. apply andb_prop in Hp as [Hpc Hus].
    apply negb_true_iff in Hpc. apply negb_true_iff in Hus.
    change (like (String c (p +:+ "/%")) s = startsWith s (String c (p +:+ "/"))).
    destruct s as [|d s]; [rewrite like_nil_r by exact Hpc; reflexivity|].
    rewrite like_other_unfold by exact Hpc. rewrite Hus. cbn [startsWith].
    destruct (Ascii.eqb c d); [apply IH, Hrest|reflexivity].
Qed.

End QStr.

(** ** The sync journal ([SyncJournalDb]) *)

Module Journal.

(** [SyncJournalFileRecord]. [_modtime] is kept as seconds since the epoch,
    the value [qDateTimeToTime_t] binds and [qDateTimeFromTime_t] reads. *)
Record SyncJournalFileRecord := mkFileRecord {
  _path : string;
  _inode : Z;
  _mode : Z;
  _modtime : Z;
  _type : Z;
  _etag : string;
  _fileId : string;
  _remotePerm : string;
  _fileSize : Z
}.

(** A default-constructed record ([SyncJournalFileRecord rec;]): what
    [getFileRecord] returns when it finds no row. *)
Definition noFileRecord : SyncJournalFileRecord :=
  mkFileRecord "" 0 0 0 0 "" "" "" 0.

(** A row of table [metadata]; the primary key [phash] is the key of the
    map that holds the rows. [remotePerm] is [None] for SQL [NULL]. *)
Record MetadataRow := mkRow {
  pathlen : Z;
  path : string;
  inode : Z;
  uid : Z;
  gid : Z;
  mode : Z;
  modtime : Z;
  type : Z;
  md5 : string;
  fileid : string;
  remotePerm : option string;
  filesize : Z
}.

(** [SyncJournalBlacklistRecord]; a row of table [blacklist] has the same
    columns, [_file] being column [path]. *)
Record SyncJournalBlacklistRecord := mkBlacklist {
  _retryCount : Z;
  _errorString : string;
  _lastTryModtime : Z;
  _lastTryEtag : string;
  _lastTryTime : Z;
  _ignoreDuration : Z;
  _file : string
}.

Definition noBlacklistRecord : SyncJournalBlacklistRecord :=
  mkBlacklist 0 "" 0 "" 0 0 "".

(** The statements the journal sends to its connection. *)
Inductive Query :=
| Q_begin | Q_commit | Q_schema
| Q_getFileRecord | Q_setFileRecord
| Q_deleteFileRecordPhash | Q_deleteFileRecordRecursively
| Q_getBlacklist | Q_setBlacklist | Q_wipeBlacklistEntry
| Q_avoidRenames | Q_avoidReadFromDb
| Q_selectMetadataPaths | Q_deleteSuperfluous | Q_walCheckpoint | Q_countMetadata
| Q_selectBlacklistPaths | Q_deleteBlacklistPath | Q_countBlacklist | Q_wipeBlacklist.

(** The connection [_db]: whether it is open, the two tables the
    properties below speak about as this connection sees them, and the
    statements sent so far. *)
Record SqlDatabase := mkDb {
  isOpen : bool;
  metadata : gmap Z MetadataRow;
  blacklist : list SyncJournalBlacklistRecord;
  queries : list Query
}.

Record SyncJournalDb := mkJournal {
  _db : SqlDatabase;
  _transaction : Z;
  _avoidReadFromDbOnNextSyncFilter : list string
}.

(** How the SQL engine answers during one call of a journal operation:
    whether the database file can be opened, whether statements execute,
    whether BEGIN and COMMIT succeed. *)
Record SqlEnv := mkEnv {
  open_ok : bool;
  exec_ok : bool;
  transaction_ok : bool;
  commit_ok : bool
}.

Definition allOk : SqlEnv := mkEnv true true true true.

(** The constructor: [_transaction(0)], nothing open, no filter. *)
Definition newJournal (tables : SqlDatabase) : SyncJournalDb :=
  mkJournal (mkDb false (metadata tables) (blacklist tables) (queries tables)) 0 [].

Definition emptyDb : SqlDatabase := mkDb false ∅ [] [].

Definition with_db (f : SqlDatabase -> SqlDatabase) (j : SyncJournalDb) : SyncJournalDb :=
  mkJournal (f (_db j)) (_transaction j) (_avoidReadFromDbOnNextSyncFilter j).

Definition send (q : Query) (j : SyncJournalDb) : SyncJournalDb :=
  with_db (fun d => mkDb (isOpen d) (metadata d) (blacklist d) (queries d ++ [q])) j.

Definition set_open (b : bool) (j : SyncJournalDb) : SyncJournalDb :=
  with_db (fun d => mkDb b (metadata d) (blacklist d) (queries d)) j.

Definition set_metadata (m : gmap Z MetadataRow) (j : SyncJournalDb) : SyncJournalDb :=
  with_db (fun d => mkDb (isOpen d) m (blacklist d) (queries d)) j.

Definition set_blacklist (b : list SyncJournalBlacklistRecord) (j : SyncJournalDb)
  : SyncJournalDb :=
  with_db (fun d => mkDb (isOpen d) (metadata d) b (queries d)) j.

Definition set_transaction (t : Z) (j : SyncJournalDb) : SyncJournalDb :=
  mkJournal (_db j) t (_avoidReadFromDbOnNextSyncFilter j).

Definition set_filter (f : list string) (j : SyncJournalDb) : SyncJournalDb :=
  mkJournal (_db j) (_transaction j) f.

(** [SyncJournalDb::startTransaction]. *)
Definition startTransaction (e : SqlEnv) (j : SyncJournalDb) : SyncJournalDb :=
  if _transaction j =? 0 then
    if negb (transaction_ok e) then send Q_begin j
    else set_transaction 1 (send Q_begin j)
  else j.

(** [SyncJournalDb::commitTransaction]. *)
Definition commitTransaction (e : SqlEnv) (j : SyncJournalDb) : SyncJournalDb :=
  if _transaction j =? 1 then
    if negb (commit_ok e) then send Q_commit j
    else set_transaction 0 (send Q_commit j)
  else j.

(** [SyncJournalDb::commitInternal]. *)
Definition commitInternal (e : SqlEnv) (startTrans : bool) (j : SyncJournalDb)
  : SyncJournalDb :=
  let j1 := commitTransaction e j in
  if startTrans then startTransaction e j1 else j1.

(** [SyncJournalDb::commitIfNeededAndStartNewTransaction]. *)
Definition commitIfNeededAndStartNewTransaction (e : SqlEnv) (j : SyncJournalDb)
  : SyncJournalDb :=
  if _transaction j =? 1 then commitInternal e true j else startTransaction e j.

(** [SyncJournalDb::commit]. *)
Definition commit (e : SqlEnv) (startTrans : bool) (j : SyncJournalDb) : SyncJournalDb :=
  commitInternal e startTrans j.

(** [SyncJournalDb::sqlFail]: commit what there is, close, report failure. *)
Definition sqlFail (e : SqlEnv) (j : SyncJournalDb) : bool * SyncJournalDb :=
  (false, set_open false (commitTransaction e j)).

(** [SyncJournalDb::checkConnect]. On an open connection it returns at
    once. Otherwise it opens the file ([open_ok] says whether the file
    opens and is there afterwards), sets the pragmas, and inside a
    transaction creates the tables that are missing and migrates them
    ([CREATE TABLE IF NOT EXISTS], [ALTER TABLE ADD COLUMN],
    [CREATE INDEX]: no row of [metadata] or [blacklist] changes; sent as
    [Q_schema]), going through [startTransaction] and [commitInternal] in
    the order of the source: once for the version row, once for each of
    the two indexes that are always created, and at the end without a new
    transaction. A statement that fails ends in [sqlFail]. *)
Definition checkConnect (e : SqlEnv) (j : SyncJournalDb) : bool * SyncJournalDb :=
  if isOpen (_db j) then (true, j)
  else if negb (open_ok e) then (false, j)
  else
    let j0 := send Q_schema (set_open true j) in
    if negb (exec_ok e) then sqlFail e j0
    else
      let j1 := startTransaction e j0 in
      let j2 := commitInternal e true (send Q_schema j1) in
      let j3 := commitInternal e true (commitInternal e true (send Q_schema j2)) in
      (true, commitInternal e false j3).

(** [SyncJournalDb::close]. *)
Definition close (e : SqlEnv) (j : SyncJournalDb) : SyncJournalDb :=
  set_filter [] (set_open false (commitTransaction e j)).

Section Gateway.

(** Code the journal calls that is outside these sources:
    - [c_jhash64] (csync, [c_jhash.h]), on the UTF-8 bytes of a path, its
      result read as the [int64_t] that [getPHash] returns;
    - [SqlQuery::intValue] (the SQL gateway, [ownsql.h]), which reads an
      integer column as a C [int]; [SqlQuery::int64Value] hands back the
      64-bit column value as it is stored;
    - [Utility::fsCasePreserving], the platform probe. *)
Variable c_jhash64 : string -> Z.
Variable intValue : Z -> Z.
Variable fsCasePreserving : bool.

Definition int64Value (v : Z) : Z := v.

(** The conversion of a C [int] to the [quint64] field [_inode]. *)
Definition to_quint64 (v : Z) : Z := v mod 2 ^ 64.

(** [SyncJournalDb::getPHash]. *)
Definition getPHash (file : string) : Z :=
  if QStr.isEmpty file then -1 else c_jhash64 file.

(** The etag [setFileRecord] writes: [_invalid_] when some member of the
    filter starts with the record's path followed by a slash. *)
Definition filteredEtag (filter : list string) (record : SyncJournalFileRecord) : string :=
  if negb (bool_decide (filter = [])) then
    let prefix := _path record +:+ "/" in
    if existsb (fun it => QStr.startsWith it prefix) filter
    then "_invalid_" else _etag record
  else _etag record.

(** The row [_setFileRecordQuery] binds for a record. *)
Definition rowOf (etag : string) (record : SyncJournalFileRecord) : MetadataRow :=
  mkRow (Z.of_nat (String.length (_path record)))
        (_path record)
        (_inode record)
        0 0
        (_mode record)
        (_modtime record)
        (_type record)
        etag
        (_fileId record)
        (if QStr.isEmpty (_remotePerm record) then None else Some (_remotePerm record))
        (_fileSize record).

(** [SyncJournalDb::setFileRecord]. *)
Definition setFileRecord (e : SqlEnv) (record : SyncJournalFileRecord)
    (j : SyncJournalDb) : bool * SyncJournalDb :=
  let etag := filteredEtag (_avoidReadFromDbOnNextSyncFilter j) record in
  let phash := getPHash (_path record) in
  let '(connected, j1) := checkConnect e j in
  if connected then
    let j2 := send Q_setFileRecord j1 in
    if negb (exec_ok e) then (false, j2)
    else (true, set_metadata (<[phash := rowOf etag record]> (metadata (_db j2))) j2)
  else (false, j1).

(** [SyncJournalDb::deleteFileRecord]:
    [DELETE FROM metadata WHERE phash=?1], then for a recursive delete
    [DELETE FROM metadata WHERE path LIKE(?||'/%')]. *)
Definition deleteFileRecord (e : SqlEnv) (filename : string) (recursively : bool)
    (j : SyncJournalDb) : bool * SyncJournalDb :=
  let '(connected, j1) := checkConnect e j in
  if connected then
    let phash := getPHash filename in
    let j2 := send Q_deleteFileRecordPhash j1 in
    if negb (exec_ok e) then (false, j2)
    else
      let j3 := set_metadata (delete phash (metadata (_db j2))) j2 in
      if recursively then
        let j4 := send Q_deleteFileRecordRecursively j3 in
        (true, set_metadata
                 (filter (fun kv => QStr.like (filename +:+ "/%") (path kv.2) = false)
                         (metadata (_db j4))) j4)
      else (true, j3)
  else (false, j1).

(** The record [getFileRecord] fills from a row. *)
Definition recordOf (row : MetadataRow) : SyncJournalFileRecord :=
  mkFileRecord (path row)
               (to_quint64 (intValue (inode row)))
               (intValue (mode row))
               (int64Value (modtime row))
               (intValue (type row))
               (md5 row)
               (fileid row)
               (default "" (remotePerm row))
               (int64Value (filesize row)).

(** [SyncJournalDb::getFileRecord]. *)
Definition getFileRecord (e : SqlEnv) (filename : string) (j : SyncJournalDb)
  : SyncJournalFileRecord * SyncJournalDb :=
  let phash := getPHash filename in
  let '(connected, j1) := checkConnect e j in
  if connected then
    let j2 := send Q_getFileRecord j1 in
    if negb (exec_ok e) then (noFileRecord, j2)
    else
      match metadata (_db j2) !! phash with
      | Some row => (recordOf row, j2)
      | None => (noFileRecord, j2)
      end
  else (noFileRecord, j1).

(** [SyncJournalDb::avoidReadFromDbOnNextSync]:
    [UPDATE metadata SET md5='_invalid_' WHERE ?1 LIKE(path||'/%') AND type == 2],
    then the path joins the filter, whether or not the update worked. *)
Definition avoidReadFromDbOnNextSync (e : SqlEnv) (fileName : string)
    (j : SyncJournalDb) : SyncJournalDb :=
  let '(connected, j1) := checkConnect e j in
  if connected then
    let j2 := send Q_avoidReadFromDb j1 in
    let invalidate (row : MetadataRow) : MetadataRow :=
      if (QStr.like (path row +:+ "/%") fileName && (type row =? 2))%bool
      then mkRow (pathlen row) (path row) (inode row) (uid row) (gid row) (mode row)
                 (modtime row) (type row) "_invalid_" (fileid row) (remotePerm row)
                 (filesize row)
      else row in
    let j3 := if exec_ok e
              then set_metadata (invalidate <$> metadata (_db j2)) j2 else j2 in
    set_filter (_avoidReadFromDbOnNextSyncFilter j3 ++ [fileName]) j3
  else j1.

(** [SyncJournalDb::avoidRenamesOnNextSync]:
    [UPDATE metadata SET fileid = '', inode = '0' WHERE path == ?1 OR path LIKE(?2||'/%')],
    then [avoidReadFromDbOnNextSync]. *)
Definition avoidRenamesOnNextSync (e : SqlEnv) (p : string) (j : SyncJournalDb)
  : SyncJournalDb :=
  let '(connected, j1) := checkConnect e j in
  if connected then
    let j2 := send Q_avoidRenames j1 in
    let forget (row : MetadataRow) : MetadataRow :=
      if (bool_decide (path row = p) || QStr.like (p +:+ "/%") (path row))%bool
      then mkRow (pathlen row) (path row) 0 (uid row) (gid row) (mode row)
                 (modtime row) (type row) (md5 row) "" (remotePerm row) (filesize row)
      else row in
    let j3 := if exec_ok e then set_metadata (forget <$> metadata (_db j2)) j2 else j2 in
    avoidReadFromDbOnNextSync e p j3
  else j1.

(** Whether the blacklist [SELECT] takes a row for [file]: [path=?1], with
    [COLLATE NOCASE] on a case preserving file system. *)
Definition blacklistMatch (file : string) (row : SyncJournalBlacklistRecord) : bool :=
  if fsCasePreserving
  then bool_decide (QStr.toLower (_file row) = QStr.toLower file)
  else bool_decide (_file row = file).

(** [SyncJournalDb::blacklistEntry]. *)
Definition blacklistEntry (e : SqlEnv) (file : string) (j : SyncJournalDb)
  : SyncJournalBlacklistRecord * SyncJournalDb :=
  let entry := noBlacklistRecord in
  if QStr.isEmpty file then (entry, j)
  else
    let '(connected, j1) := checkConnect e j in
    if connected then
      let j2 := send Q_getBlacklist j1 in
      if exec_ok e then
        match find (blacklistMatch file) (blacklist (_db j2)) with
        | Some row =>
            (mkBlacklist (intValue (_retryCount row))
                         (_errorString row)
                         (int64Value (_lastTryModtime row))
                         (_lastTryEtag row)
                         (int64Value (_lastTryTime row))
                         (int64Value (_ignoreDuration row))
                         file, j2)
        | None => (entry, j2)
        end
      else (entry, j2)
    else (entry, j1).

(** [SyncJournalDb::wipeBlacklistEntry]: [DELETE FROM blacklist WHERE path=?1]. *)
Definition wipeBlacklistEntry (e : SqlEnv) (file : string) (j : SyncJournalDb)
  : SyncJournalDb :=
  if QStr.isEmpty file then j
  else
    let '(connected, j1) := checkConnect e j in
    if connected then
      let j2 := send Q_wipeBlacklistEntry j1 in
      if negb (exec_ok e) then snd (sqlFail e j2)
      else set_blacklist
             (List.filter (fun row => negb (bool_decide (_file row = file)))
                          (blacklist (_db j2))) j2
    else j1.

(** [SyncJournalDb::updateBlacklistEntry]: [INSERT OR REPLACE INTO blacklist]. *)
Definition updateBlacklistEntry (e : SqlEnv) (item : SyncJournalBlacklistRecord)
    (j : SyncJournalDb) : SyncJournalDb :=
  let '(connected, j1) := checkConnect e j in
  if negb connected then j1
  else
    let j2 := send Q_setBlacklist j1 in
    if negb (exec_ok e) then j2
    else set_blacklist
           (List.filter (fun row => negb (bool_decide (_file row = _file item)))
                        (blacklist (_db j2)) ++ [item]) j2.

(** [SyncJournalDb::postSyncCleanup]: the rows whose path is not among
    [keep] are deleted by their phash, then the WAL is checkpointed. *)
Definition postSyncCleanup (e : SqlEnv) (keep : gset string) (j : SyncJournalDb)
  : bool * SyncJournalDb :=
  let '(connected, j1) := checkConnect e j in
  if negb connected then (false, j1)
  else
    let j2 := send Q_selectMetadataPaths j1 in
    if negb (exec_ok e) then (false, j2)
    else
      let superfluous :=
        filter (fun kv => path kv.2 ∉ keep) (metadata (_db j2)) in
      let j3 :=
        if bool_decide (superfluous = ∅) then j2
        else set_metadata (filter (fun kv => path kv.2 ∈ keep) (metadata (_db j2)))
                          (send Q_deleteSuperfluous j2) in
      (true, send Q_walCheckpoint j3).

(** [SyncJournalDb::getFileRecordCount]. *)
Definition getFileRecordCount (e : SqlEnv) (j : SyncJournalDb) : Z * SyncJournalDb :=
  let '(connected, j1) := checkConnect e j in
  if negb connected then (-1, j1)
  else
    let j2 := send Q_countMetadata j1 in
    if negb (exec_ok e) then (0, j2)
    else (intValue (Z.of_nat (size (metadata (_db j2)))), j2).

(** [deleteBatch] on the blacklist: one [DELETE FROM blacklist WHERE path = ?]
    for each entry. *)
Definition deleteBlacklistBatch (entries : list string) (j : SyncJournalDb)
  : SyncJournalDb :=
  fold_left (fun acc entry =>
               set_blacklist
                 (List.filter (fun row => negb (bool_decide (_file row = entry)))
                              (blacklist (_db acc)))
                 (send Q_deleteBlacklistPath acc))
            entries j.

(** [SyncJournalDb::deleteStaleBlacklistEntries]. *)
Definition deleteStaleBlacklistEntries (e : SqlEnv) (keep : gset string)
    (j : SyncJournalDb) : bool * SyncJournalDb :=
  let '(connected, j1) := checkConnect e j in
  if negb connected then (false, j1)
  else
    let j2 := send Q_selectBlacklistPaths j1 in
    if negb (exec_ok e) then (false, j2)
    else
      let superfluousPaths :=
        List.filter (fun file => negb (bool_decide (file ∈ keep)))
                    (map _file (blacklist (_db j2))) in
      (true, deleteBlacklistBatch superfluousPaths j2).

(** [SyncJournalDb::blackListEntryCount]. *)
Definition blackListEntryCount (e : SqlEnv) (j : SyncJournalDb) : Z * SyncJournalDb :=
  let '(connected, j1) := checkConnect e j in
  if connected then
    let j2 := send Q_countBlacklist j1 in
    if negb (exec_ok e) then (0, snd (sqlFail e j2))
    else (intValue (Z.of_nat (length (blacklist (_db j2)))), j2)
  else (0, j1).

(** [SyncJournalDb::wipeBlacklist]: the number of rows deleted, or -1. *)
Definition wipeBlacklist (e : SqlEnv) (j : SyncJournalDb) : Z * SyncJournalDb :=
  let '(connected, j1) := checkConnect e j in
  if connected then
    let j2 := send Q_wipeBlacklist j1 in
    if negb (exec_ok e) then (-1, snd (sqlFail e j2))
    else (Z.of_nat (length (blacklist (_db j2))), set_blacklist [] j2)
  else (-1, j1).

(** The journal's operations on the file records and the blacklist, and
    its transaction calls, as values, to speak about sequences of calls.
    (The stores of download, upload and poll information are not part of
    this model.) *)
Inductive Op :=
| OpSetFileRecord (e : SqlEnv) (record : SyncJournalFileRecord)
| OpDeleteFileRecord (e : SqlEnv) (filename : string) (recursively : bool)
| OpGetFileRecord (e : SqlEnv) (filename : string)
| OpAvoidReadFromDbOnNextSync (e : SqlEnv) (fileName : string)
| OpAvoidRenamesOnNextSync (e : SqlEnv) (p : string)
| OpBlacklistEntry (e : SqlEnv) (file : string)
| OpWipeBlacklistEntry (e : SqlEnv) (file : string)
| OpUpdateBlacklistEntry (e : SqlEnv) (item : SyncJournalBlacklistRecord)
| OpPostSyncCleanup (e : SqlEnv) (keep : gset string)
| OpGetFileRecordCount (e : SqlEnv)
| OpDeleteStaleBlacklistEntries (e : SqlEnv) (keep : gset string)
| OpBlackListEntryCount (e : SqlEnv)
| OpWipeBlacklist (e : SqlEnv)
| OpIsConnected (e : SqlEnv)
| OpCommit (e : SqlEnv) (startTrans : bool)
| OpCommitIfNeededAndStartNewTransaction (e : SqlEnv)
| OpClose (e : SqlEnv).

Definition isClose (o : Op) : bool :=
  match o with OpClose _ => true | _ => false end.

Definition step (o : Op) (j : SyncJournalDb) : SyncJournalDb :=
  match o with
  | OpSetFileRecord e r => snd (setFileRecord e r j)
  | OpDeleteFileRecord e f b => snd (deleteFileRecord e f b j)
  | OpGetFileRecord e f => snd (getFileRecord e f j)
  | OpAvoidReadFromDbOnNextSync e f => avoidReadFromDbOnNextSync e f j
  | OpAvoidRenamesOnNextSync e f => avoidRenamesOnNextSync e f j
  | OpBlacklistEntry e f => snd (blacklistEntry e f j)
  | OpWipeBlacklistEntry e f => wipeBlacklistEntry e f j
  | OpUpdateBlacklistEntry e i => updateBlacklistEntry e i j
  | OpPostSyncCleanup e keep => snd (postSyncCleanup e keep j)
  | OpGetFileRecordCount e => snd (getFileRecordCount e j)
  | OpDeleteStaleBlacklistEntries e keep => snd (deleteStaleBlacklistEntries e keep j)
  | OpBlackListEntryCount e => snd (blackListEntryCount e j)
  | OpWipeBlacklist e => snd (wipeBlacklist e j)
  | OpIsConnected e => snd (checkConnect e j)
  | OpCommit e b => commit e b j
  | OpCommitIfNeededAndStartNewTransaction e => commitIfNeededAndStartNewTransaction e j
  | OpClose e => close e j
  end.

Definition run (ops : list Op) (j : SyncJournalDb) : SyncJournalDb :=
  fold_left (fun acc o => step o acc) ops j.

(** The transaction counter is 0 or 1. *)
Definition transactionIdleOrOpen (j : SyncJournalDb) : Prop :=
  _transaction j = 0 \/ _transaction j = 1.

(** *** Facts about the connection *)

Ltac unfold_journal :=
  unfold step, setFileRecord, deleteFileRecord, getFileRecord,
    avoidRenamesOnNextSync, avoidReadFromDbOnNextSync, blacklistEntry,
    wipeBlacklistEntry, updateBlacklistEntry, close, commit,
    commitIfNeededAndStartNewTransaction, checkConnect, sqlFail, commitInternal,
    commitTransaction, startTransaction, set_filter, set_transaction,
    set_blacklist, set_metadata, set_open, send, with_db in *.

Ltac split_ifs :=
  repeat match goal with
    | |- context [if ?b then _ else _] => destruct b eqn:?
    | |- context [match ?o with Some _ => _ | None => _ end] => destruct o eqn:?
    end.

Lemma startTransaction_counter e j :
  transactionIdleOrOpen j -> transactionIdleOrOpen (startTransaction e j).
Proof.
  unfold transactionIdleOrOpen. unfold_journal. intros H.
  split_ifs; simpl; auto.
Qed.

Lemma commitTransaction_counter e j :
  transactionIdleOrOpen j -> transactionIdleOrOpen (commitTransaction e j).
Proof.
  unfold transactionIdleOrOpen. unfold_journal. intros H.
  split_ifs; simpl; auto.
Qed.

Lemma commitInternal_counter e b j :
  transactionIdleOrOpen j -> transactionIdleOrOpen (commitInternal e b j).
Proof.
  intros H. unfold commitInternal. destruct b.
  - apply startTransaction_counter, commitTransaction_counter, H.
  - apply commitTransaction_counter, H.
Qed.

Lemma send_counter q j :
  transactionIdleOrOpen j -> transactionIdleOrOpen (send q j).
Proof. exact (fun H => H). Qed.

Lemma with_db_counter f j :
  transactionIdleOrOpen j -> transactionIdleOrOpen (with_db f j).
Proof. exact (fun H => H). Qed.

Lemma set_filter_counter f j :
  transactionIdleOrOpen j -> transactionIdleOrOpen (set_filter f j).
Proof. exact (fun H => H). Qed.

Lemma checkConnect_counter e j :
  transactionIdleOrOpen j -> transactionIdleOrOpen (snd (checkConnect e j)).
Proof.
  intros H. unfold checkConnect, sqlFail.
  destruct (isOpen (_db j)); [exact H|].
  destruct (negb (open_ok e)); [exact H|].
  destruct (negb (exec_ok e)); simpl.
  - apply with_db_counter, commitTransaction_counter, H.
  - repeat first [ apply commitInternal_counter | apply commitTransaction_counter
                 | apply startTransaction_counter | apply send_counter ].
    exact H.
Qed.

(** The transaction calls and [send] leave the filter, the rows and the
    connection flag alone. *)
Definition sameData (j j' : SyncJournalDb) : Prop :=
  _avoidReadFromDbOnNextSyncFilter j' = _avoidReadFromDbOnNextSyncFilter j /\
  metadata (_db j') = metadata (_db j) /\
  blacklist (_db j') = blacklist (_db j) /\
  isOpen (_db j') = isOpen (_db j).

Lemma sameData_refl j : sameData j j.
Proof. repeat split. Qed.

Lemma sameData_trans j1 j2 j3 : sameData j1 j2 -> sameData j2 j3 -> sameData j1 j3.
Proof.
  unfold sameData. intros (-> & -> & -> & ->) (-> & -> & -> & ->). repeat split.
Qed.

Lemma send_data q j : sameData j (send q j).
Proof. repeat split. Qed.

Lemma startTransaction_data e j : sameData j (startTransaction e j).
Proof.
  unfold startTransaction.
  destruct (_ =? _); [|apply sameData_refl].
  destruct (negb _); repeat split.
Qed.

Lemma commitTransaction_data e j : sameData j (commitTransaction e j).
Proof.
  unfold commitTransaction.
  destruct (_ =? _); [|apply sameData_refl].
  destruct (negb _); repeat split.
Qed.

Lemma commitInternal_data e b j : sameData j (commitInternal e b j).
Proof.
  unfold commitInternal. destruct b.
  - eapply sameData_trans; [apply commitTransaction_data|apply startTransaction_data].
  - apply commitTransaction_data.
Qed.

Lemma checkConnect_data e j :
  _avoidReadFromDbOnNextSyncFilter (snd (checkConnect e j)) =
    _avoidReadFromDbOnNextSyncFilter j /\
  metadata (_db (snd (checkConnect e j))) = metadata (_db j) /\
  blacklist (_db (snd (checkConnect e j))) = blacklist (_db j).
Proof.
  unfold checkConnect, sqlFail.
  destruct (isOpen (_db j)); [repeat split|].
  destruct (negb (open_ok e)); [repeat split|].
  set (j0 := send Q_schema (set_open true j)).
  assert (H0 : _avoidReadFromDbOnNextSyncFilter j0 = _avoidReadFromDbOnNextSyncFilter j /\
               metadata (_db j0) = metadata (_db j) /\
               blacklist (_db j0) = blacklist (_db j)) by (repeat split).
  destruct H0 as (Hf & Hm & Hb).
  destruct (negb (exec_ok e)); cbn [snd].
  - destruct (commitTransaction_data e j0) as (Hf' & Hm' & Hb' & _).
    cbn [set_open with_db _db _avoidReadFromDbOnNextSyncFilter metadata blacklist].
    rewrite Hm', Hb'. change (_avoidReadFromDbOnNextSyncFilter (commitTransaction e j0)
      = _avoidReadFromDbOnNextSyncFilter j /\ metadata (_db j0) = metadata (_db j)
        /\ blacklist (_db j0) = blacklist (_db j)).
    rewrite Hf'. auto.
  - match goal with
    | |- context [commitInternal e false ?j3] =>
        assert (Hs : sameData j0 (commitInternal e false j3))
    end.
    { repeat first [ eapply sameData_trans; [|apply commitInternal_data]
                   | eapply sameData_trans; [|apply send_data] ].
      apply startTransaction_data. }
    destruct Hs as (-> & -> & -> & _). auto.
Qed.

Lemma checkConnect_filter e j :
  _avoidReadFromDbOnNextSyncFilter (snd (checkConnect e j)) =
  _avoidReadFromDbOnNextSyncFilter j.
Proof. apply checkConnect_data. Qed.

Lemma checkConnect_metadata e j :
  metadata (_db (snd (checkConnect e j))) = metadata (_db j).
Proof. apply checkConnect_data. Qed.

Lemma checkConnect_blacklist e j :
  blacklist (_db (snd (checkConnect e j))) = blacklist (_db j).
Proof. apply checkConnect_data. Qed.

Lemma checkConnect_open e j :
  fst (checkConnect e j) = true -> isOpen (_db (snd (checkConnect e j))) = true.
Proof.
  unfold checkConnect, sqlFail.
  destruct (isOpen (_db j)) eqn:Ho; [intros _; exact Ho|].
  destruct (negb (open_ok e)); [discriminate|].
  destruct (negb (exec_ok e)); [discriminate|]. intros _. cbn [snd].
  match goal with
  | |- isOpen (_db (commitInternal e false ?j3)) = true =>
      assert (Hs : sameData (send Q_schema (set_open true j)) (commitInternal e false j3))
  end.
  { repeat first [ eapply sameData_trans; [|apply commitInternal_data]
                 | eapply sameData_trans; [|apply send_data] ].
    apply startTransaction_data. }
  destruct Hs as (_ & _ & _ & ->). reflexivity.
Qed.

Lemma checkConnect_when_open e j :
  isOpen (_db j) = true -> checkConnect e j = (true, j).
Proof. intros H. unfold checkConnect. rewrite H. reflexivity. Qed.

(** *** The transaction counter *)

Ltac after_connect e j H :=
  let c := fresh "connected" in
  let j1 := fresh "j1" in
  let E := fresh "E" in
  pose proof (checkConnect_counter e j H);
  destruct (checkConnect e j) as [c j1] eqn:E; simpl in *.

Lemma counter_frame j j' :
  _transaction j' = _transaction j ->
  transactionIdleOrOpen j -> transactionIdleOrOpen j'.
Proof. unfold transactionIdleOrOpen. intros ->. auto. Qed.

Lemma deleteBlacklistBatch_transaction entries j :
  _transaction (deleteBlacklistBatch entries j) = _transaction j /\
  _avoidReadFromDbOnNextSyncFilter (deleteBlacklistBatch entries j)
  = _avoidReadFromDbOnNextSyncFilter j.
Proof.
  unfold deleteBlacklistBatch. revert j.
  induction entries as [|entry rest IH]; intros j; simpl; [auto|].
  destruct (IH (set_blacklist
                  (List.filter (fun row => negb (bool_decide (_file row = entry)))
                               (blacklist (_db j)))
                  (send Q_deleteBlacklistPath j))) as [-> ->]. auto.
Qed.

Lemma avoidReadFromDbOnNextSync_counter e f j :
  transactionIdleOrOpen j -> transactionIdleOrOpen (avoidReadFromDbOnNextSync e f j).
Proof.
  intros H. unfold avoidReadFromDbOnNextSync. after_connect e j H.
  destruct connected; [|assumption].
  destruct (exec_ok e); (eapply counter_frame; [|eassumption]); reflexivity.
Qed.

Lemma step_counter o j :
  transactionIdleOrOpen j -> transactionIdleOrOpen (step o j).
Proof.
  intros H. destruct o; cbn [step].
  - unfold setFileRecord. after_connect e j H.
    destruct connected; [|assumption].
    destruct (negb (exec_ok e)); simpl; assumption.
  - unfold deleteFileRecord. after_connect e j H.
    destruct connected; [|assumption].
    destruct (negb (exec_ok e)); [assumption|].
    destruct recursively; simpl; assumption.
  - unfold getFileRecord. after_connect e j H.
    destruct connected; [|assumption].
    destruct (negb (exec_ok e)); [assumption|].
    destruct (_ !! _); assumption.
  - apply avoidReadFromDbOnNextSync_counter, H.
  - unfold avoidRenamesOnNextSync. after_connect e j H.
    destruct connected; [|assumption].
    apply avoidReadFromDbOnNextSync_counter.
    destruct (exec_ok e); assumption.
  - unfold blacklistEntry. destruct (QStr.isEmpty file); [assumption|].
    after_connect e j H.
    destruct connected; [|assumption].
    destruct (exec_ok e); [|assumption].
    destruct (find _ _); assumption.
  - unfold wipeBlacklistEntry. destruct (QStr.isEmpty file); [assumption|].
    after_connect e j H.
    destruct connected; [|assumption].
    destruct (negb (exec_ok e)); simpl; [|assumption].
    apply (commitTransaction_counter e (send Q_wipeBlacklistEntry j1)). assumption.
  - unfold updateBlacklistEntry. after_connect e j H.
    destruct connected; simpl; [|assumption].
    destruct (negb (exec_ok e)); assumption.
  - unfold postSyncCleanup. after_connect e j H.
    destruct connected; simpl; [|assumption].
    destruct (negb (exec_ok e)); simpl; [assumption|].
    destruct (bool_decide _); assumption.
  - unfold getFileRecordCount. after_connect e j H.
    destruct connected; simpl; [|assumption].
    destruct (negb (exec_ok e)); assumption.
  - unfold deleteStaleBlacklistEntries. after_connect e j H.
    destruct connected; simpl; [|assumption].
    destruct (negb (exec_ok e)); simpl; [assumption|].
    eapply counter_frame; [apply (proj1 (deleteBlacklistBatch_transaction _ _))|].
    assumption.
  - unfold blackListEntryCount. after_connect e j H.
    destruct connected; simpl; [|assumption].
    destruct (negb (exec_ok e)); simpl; [|assumption].
    apply (commitTransaction_counter e (send Q_countBlacklist j1)). assumption.
  - unfold wipeBlacklist. after_connect e j H.
    destruct connected; simpl; [|assumption].
    destruct (negb (exec_ok e)); simpl; [|assumption].
    apply (commitTransaction_counter e (send Q_wipeBlacklist j1)). assumption.
  - apply checkConnect_counter, H.
  - apply commitInternal_counter, H.
  - unfold commitIfNeededAndStartNewTransaction.
    destruct (_ =? _); [apply commitInternal_counter|apply startTransaction_counter];
      exact H.
  - unfold close. apply (commitTransaction_counter e j H).
Qed.

Lemma run_counter ops j :
  transactionIdleOrOpen j -> transactionIdleOrOpen (run ops j).
Proof.
  unfold run. revert j.
  induction ops as [|o ops IH]; intros j H; simpl; [exact H|].
  apply IH, step_counter, H.
Qed.

(** C9. The journal's transaction counter is 0 after construction and 0 or
    1 after every sequence of operations; [startTransaction],
    [commitTransaction], [commitInternal] and
    [commitIfNeededAndStartNewTransaction] keep it so; [startTransaction]
    with a transaction open, and [commitTransaction] with none open, return
    the journal as it was. *)
Theorem transaction_counter_idle_or_open
    (tables : SqlDatabase) (ops : list Op) (e : SqlEnv) (j : SyncJournalDb) :
  transactionIdleOrOpen (run ops (newJournal tables)) /\
  (transactionIdleOrOpen j ->
     transactionIdleOrOpen (startTransaction e j) /\
     transactionIdleOrOpen (commitTransaction e j) /\
     (forall startTrans, transactionIdleOrOpen (commitInternal e startTrans j)) /\
     transactionIdleOrOpen (commitIfNeededAndStartNewTransaction e j)) /\
  (_transaction j <> 0 -> startTransaction e j = j) /\
  (_transaction j <> 1 -> commitTransaction e j = j).
Proof.
  split; [|split; [|split]].
  - apply run_counter. left. reflexivity.
  - intros H. split; [|split; [|split]].
    + apply startTransaction_counter, H.
    + apply commitTransaction_counter, H.
    + intros b. apply commitInternal_counter, H.
    + apply (step_counter (OpCommitIfNeededAndStartNewTransaction e) j H).
  - intros H. unfold startTransaction.
    destruct (Z.eqb_spec (_transaction j) 0); [contradiction|reflexivity].
  - intros H. unfold commitTransaction.
    destruct (Z.eqb_spec (_transaction j) 1); [contradiction|reflexivity].
Qed.

(** *** The blacklist on the empty path *)

(** C10. [blacklistEntry] on the empty path returns the default record and
    [wipeBlacklistEntry] on the empty path returns at once: the journal,
    with its connection state, its tables and the list of statements sent,
    is the one they were given. *)
Theorem blacklist_empty_path_untouched (e : SqlEnv) (j : SyncJournalDb) :
  blacklistEntry e "" j = (noBlacklistRecord, j) /\
  wipeBlacklistEntry e "" j = j.
Proof. split; reflexivity. Qed.

(** *** Writing, reading and deleting file records *)

Lemma setFileRecord_ok e r j j' :
  setFileRecord e r j = (true, j') ->
  isOpen (_db j') = true /\
  metadata (_db j') =
    <[getPHash (_path r) :=
        rowOf (filteredEtag (_avoidReadFromDbOnNextSyncFilter j) r) r]> (metadata (_db j)) /\
  _avoidReadFromDbOnNextSyncFilter j' = _avoidReadFromDbOnNextSyncFilter j.
Proof.
  unfold setFileRecord.
  pose proof (checkConnect_open e j) as Ho.
  pose proof (checkConnect_metadata e j) as Hm.
  pose proof (checkConnect_filter e j) as Hf.
  destruct (checkConnect e j) as [connected j1]; simpl in *.
  destruct connected; [|discriminate].
  destruct (negb (exec_ok e)); [discriminate|].
  intros [= <-]. simpl. rewrite Hm, Hf. auto.
Qed.

Lemma getFileRecord_open e q j :
  isOpen (_db j) = true -> exec_ok e = true ->
  fst (getFileRecord e q j) =
    match metadata (_db j) !! getPHash q with
    | Some row => recordOf row
    | None => noFileRecord
    end.
Proof.
  intros Ho He. unfold getFileRecord.
  rewrite (checkConnect_when_open e j Ho), He. simpl.
  destruct (metadata (_db j) !! getPHash q); reflexivity.
Qed.

Lemma remotePerm_roundtrip (s : string) :
  default "" (if QStr.isEmpty s then None else Some s) = s.
Proof. destruct s; reflexivity. Qed.

(** X2. What comes back when the inode, the mode and the type survive the
    [int] reader: the record written, its etag the one the filter let
    through; the row holds 0 for [uid] and [gid]. *)
Lemma setFileRecord_getFileRecord e e' r j j' :
  setFileRecord e r j = (true, j') ->
  exec_ok e' = true ->
  to_quint64 (intValue (_inode r)) = _inode r ->
  intValue (_mode r) = _mode r ->
  intValue (_type r) = _type r ->
  fst (getFileRecord e' (_path r) j') =
    mkFileRecord (_path r) (_inode r) (_mode r) (_modtime r) (_type r)
      (filteredEtag (_avoidReadFromDbOnNextSyncFilter j) r)
      (_fileId r) (_remotePerm r) (_fileSize r) /\
  (uid <$> metadata (_db j') !! getPHash (_path r)) = Some 0 /\
  (gid <$> metadata (_db j') !! getPHash (_path r)) = Some 0.
Proof.
  intros Hset He' Hi Hm Ht.
  destruct (setFileRecord_ok _ _ _ _ Hset) as (Ho & Hmeta & _).
  rewrite (getFileRecord_open e' _ j' Ho He'), Hmeta, lookup_insert_eq.
  unfold recordOf, rowOf, int64Value; simpl.
  rewrite Hi, Hm, Ht, remotePerm_roundtrip. auto.
Qed.

(** C1. [setFileRecord] binds the record's inode, an unsigned 64-bit
    number, and [getFileRecord] reads it back with [intValue], as a C
    [int], where the file size and the modification time go through
    [int64Value]: a record whose inode is [2^31] or more (and fits the
    signed 64-bit column) comes back with another inode, so the record
    read is not the record written. *)
Theorem getFileRecord_reads_inode_as_int e e' r j j' :
  (forall v, - 2 ^ 31 <= intValue v < 2 ^ 31) ->
  setFileRecord e r j = (true, j') ->
  exec_ok e' = true ->
  2 ^ 31 <= _inode r < 2 ^ 63 ->
  (_inode (fst (getFileRecord e' (_path r) j')) =? _inode r) = false.
Proof.
  intros Hint Hset He' Hbig.
  destruct (setFileRecord_ok _ _ _ _ Hset) as (Ho & Hmeta & _).
  rewrite (getFileRecord_open e' _ j' Ho He'), Hmeta, lookup_insert_eq.
  unfold recordOf, rowOf, to_quint64; simpl.
  specialize (Hint (_inode r)). apply Z.eqb_neq.
  destruct (Z.lt_ge_cases (intValue (_inode r)) 0) as [Hneg|Hpos].
  - replace (intValue (_inode r) mod 2 ^ 64) with (intValue (_inode r) + 2 ^ 64); [lia|].
    apply Z.mod_unique with (q := -1); lia.
  - rewrite Z.mod_small by lia. lia.
Qed.

Lemma deleteFileRecord_recursive_ok e p j j' :
  deleteFileRecord e p true j = (true, j') ->
  isOpen (_db j') = true /\
  metadata (_db j') =
    filter (fun kv => QStr.like (p +:+ "/%") (path kv.2) = false)
           (delete (getPHash p) (metadata (_db j))).
Proof.
  unfold deleteFileRecord.
  pose proof (checkConnect_open e j) as Ho.
  pose proof (checkConnect_metadata e j) as Hm.
  destruct (checkConnect e j) as [connected j1]; simpl in *.
  destruct connected; [|discriminate].
  destruct (negb (exec_ok e)); [discriminate|].
  intros [= <-]. simpl. rewrite Hm. auto.
Qed.

(** C6, as the code has it. After [deleteFileRecord(p, true)] has
    succeeded, [getFileRecord(q)] returns the empty record for [q = p], and
    for every [q] that starts with [p + "/"] given that the row kept under
    [q]'s hash, if there is one, is [q]'s own (no other stored path has the
    hash of [q]): rows are deleted by their path and read by their hash
    alone. *)
Theorem deleteFileRecord_recursive_then_getFileRecord e e' p q j j' :
  deleteFileRecord e p true j = (true, j') ->
  q = p \/
  (QStr.startsWith q (p +:+ "/") = true /\
   forall row, metadata (_db j) !! getPHash q = Some row -> path row = q) ->
  fst (getFileRecord e' q j') = noFileRecord.
Proof.
  intros Hdel Hq.
  destruct (deleteFileRecord_recursive_ok _ _ _ _ Hdel) as (Ho & Hmeta).
  unfold getFileRecord. rewrite (checkConnect_when_open e' j' Ho). simpl.
  destruct (negb (exec_ok e')); [reflexivity|].
  destruct (metadata (_db j') !! getPHash q) as [row|] eqn:Hrow; [|reflexivity].
  exfalso. rewrite Hmeta in Hrow.
  apply map_lookup_filter_Some in Hrow as [Hrow Hlike]. simpl in Hlike.
  apply lookup_delete_Some in Hrow as [Hne Hrow].
  destruct Hq as [->|[Hpre Hown]]; [congruence|].
  rewrite (Hown _ Hrow) in Hlike.
  destruct (QStr.startsWith_inv _ _ Hpre) as [rest ->].
  rewrite QStr.append_assoc, QStr.like_prefix_pattern in Hlike. discriminate.
Qed.

(** *** The etag filter *)

Lemma avoidReadFromDbOnNextSync_filter e f j :
  exists more,
    _avoidReadFromDbOnNextSyncFilter (avoidReadFromDbOnNextSync e f j) =
    _avoidReadFromDbOnNextSyncFilter j ++ more.
Proof.
  unfold avoidReadFromDbOnNextSync.
  pose proof (checkConnect_filter e j) as Hf.
  destruct (checkConnect e j) as [connected j1]; simpl in *.
  destruct connected.
  - exists [f]. destruct (exec_ok e); simpl; rewrite Hf; reflexivity.
  - exists []. rewrite Hf, app_nil_r. reflexivity.
Qed.

Lemma avoidReadFromDbOnNextSync_adds e f j :
  fst (checkConnect e j) = true ->
  In f (_avoidReadFromDbOnNextSyncFilter (avoidReadFromDbOnNextSync e f j)).
Proof.
  unfold avoidReadFromDbOnNextSync.
  destruct (checkConnect e j) as [connected j1]; simpl. intros ->.
  destruct (exec_ok e); simpl; apply in_or_app; right; left; reflexivity.
Qed.

Lemma step_filter o j :
  isClose o = false ->
  exists more,
    _avoidReadFromDbOnNextSyncFilter (step o j) =
    _avoidReadFromDbOnNextSyncFilter j ++ more.
Proof.
  intros Hc.
  assert (Hsame : forall j', _avoidReadFromDbOnNextSyncFilter j' =
                             _avoidReadFromDbOnNextSyncFilter j ->
                  exists more, _avoidReadFromDbOnNextSyncFilter j' =
                               _avoidReadFromDbOnNextSyncFilter j ++ more).
  { intros j' ->. exists []. rewrite app_nil_r. reflexivity. }
  destruct o; cbn [step]; try discriminate.
  - apply Hsame. unfold setFileRecord. pose proof (checkConnect_filter e j) as Hf.
    destruct (checkConnect e j) as [connected j1]; simpl in *.
    destruct connected; [|assumption].
    destruct (negb (exec_ok e)); simpl; assumption.
  - apply Hsame. unfold deleteFileRecord. pose proof (checkConnect_filter e j) as Hf.
    destruct (checkConnect e j) as [connected j1]; simpl in *.
    destruct connected; [|assumption].
    destruct (negb (exec_ok e)); [assumption|].
    destruct recursively; simpl; assumption.
  - apply Hsame. unfold getFileRecord. pose proof (checkConnect_filter e j) as Hf.
    destruct (checkConnect e j) as [connected j1]; simpl in *.
    destruct connected; [|assumption].
    destruct (negb (exec_ok e)); [assumption|].
    destruct (_ !! _); assumption.
  - apply avoidReadFromDbOnNextSync_filter.
  - unfold avoidRenamesOnNextSync. pose proof (checkConnect_filter e j) as Hf.
    destruct (checkConnect e j) as [connected j1]; simpl in *.
    destruct connected; [|apply Hsame; assumption].
    match goal with
    | |- context [avoidReadFromDbOnNextSync e p ?j3] =>
        destruct (avoidReadFromDbOnNextSync_filter e p j3) as [more Hmore];
        exists more; rewrite Hmore
    end.
    destruct (exec_ok e); simpl; rewrite Hf; reflexivity.
  - apply Hsame. unfold blacklistEntry. destruct (QStr.isEmpty file); [reflexivity|].
    pose proof (checkConnect_filter e j) as Hf.
    destruct (checkConnect e j) as [connected j1]; simpl in *.
    destruct connected; [|assumption].
    destruct (exec_ok e); [|assumption].
    destruct (find _ _); assumption.
  - apply Hsame. unfold wipeBlacklistEntry. destruct (QStr.isEmpty file); [reflexivity|].
    pose proof (checkConnect_filter e j) as Hf.
    destruct (checkConnect e j) as [connected j1]; simpl in *.
    destruct connected; [|assumption].
    destruct (negb (exec_ok e)); simpl; [|assumption].
    destruct (commitTransaction_data e (send Q_wipeBlacklistEntry j1)) as (-> & _).
    exact Hf.
  - apply Hsame. unfold updateBlacklistEntry. pose proof (checkConnect_filter e j) as Hf.
    destruct (checkConnect e j) as [connected j1]; simpl in *.
    destruct connected; simpl; [|assumption].
    destruct (negb (exec_ok e)); assumption.
  - apply Hsame. unfold postSyncCleanup. pose proof (checkConnect_filter e j) as Hf.
    destruct (checkConnect e j) as [connected j1]; simpl in *.
    destruct connected; simpl; [|assumption].
    destruct (negb (exec_ok e)); simpl; [assumption|].
    destruct (bool_decide _); assumption.
  - apply Hsame. unfold getFileRecordCount. pose proof (checkConnect_filter e j) as Hf.
    destruct (checkConnect e j) as [connected j1]; simpl in *.
    destruct connected; simpl; [|assumption].
    destruct (negb (exec_ok e)); assumption.
  - apply Hsame. unfold deleteStaleBlacklistEntries.
    pose proof (checkConnect_filter e j) as Hf.
    destruct (checkConnect e j) as [connected j1]; simpl in *.
    destruct connected; simpl; [|assumption].
    destruct (negb (exec_ok e)); simpl; [assumption|].
    rewrite (proj2 (deleteBlacklistBatch_transaction _ _)). assumption.
  - apply Hsame. unfold blackListEntryCount. pose proof (checkConnect_filter e j) as Hf.
    destruct (checkConnect e j) as [connected j1]; simpl in *.
    destruct connected; simpl; [|assumption].
    destruct (negb (exec_ok e)); simpl; [|assumption].
    destruct (commitTransaction_data e (send Q_countBlacklist j1)) as (-> & _).
    exact Hf.
  - apply Hsame. unfold wipeBlacklist. pose proof (checkConnect_filter e j) as Hf.
    destruct (checkConnect e j) as [connected j1]; simpl in *.
    destruct connected; simpl; [|assumption].
    destruct (negb (exec_ok e)); simpl; [|assumption].
    destruct (commitTransaction_data e (send Q_wipeBlacklist j1)) as (-> & _).
    exact Hf.
  - apply Hsame. apply checkConnect_filter.
  - apply Hsame. apply commitInternal_data.
  - apply Hsame. unfold commitIfNeededAndStartNewTransaction.
    destruct (_ =? _); [apply commitInternal_data|apply startTransaction_data].
Qed.

Lemma run_filter ops j f :
  forallb (fun o => negb (isClose o)) ops = true ->
  In f (_avoidReadFromDbOnNextSyncFilter j) ->
  In f (_avoidReadFromDbOnNextSyncFilter (run ops j)).
Proof.
  unfold run. revert j.
  induction ops as [|o ops IH]; intros j Hops Hin; simpl in *; [exact Hin|].
  apply andb_prop in Hops as [Ho Hops].
  apply IH; [exact Hops|].
  destruct (step_filter o j) as [more ->]; [destruct (isClose o); [discriminate|reflexivity]|].
  apply in_or_app. left. exact Hin.
Qed.

Lemma filteredEtag_hit filter r f :
  In f filter ->
  QStr.startsWith f (_path r +:+ "/") = true ->
  filteredEtag filter r = "_invalid_".
Proof.
  intros Hin Hpre. unfold filteredEtag.
  destruct filter as [|x l]; [destruct Hin|].
  rewrite bool_decide_eq_false_2 by discriminate. simpl negb. cbv iota.
  replace (existsb _ (x :: l)) with true; [reflexivity|].
  symmetry. apply existsb_exists. exists f. split; assumption.
Qed.

(** C2, as the code has it. After [avoidReadFromDbOnNextSync(p)] on a
    journal that connects, and any further operations other than [close],
    a successful [setFileRecord(r)] stores the etag [_invalid_] whenever
    [p] starts with [r.path + "/"], that is, when the record is a directory
    above [p]; [close] empties the filter. *)
Theorem avoidReadFromDb_invalidates_etag_of_ancestors
    e0 p j ops e r j' e' :
  fst (checkConnect e0 j) = true ->
  forallb (fun o => negb (isClose o)) ops = true ->
  QStr.startsWith p (_path r +:+ "/") = true ->
  setFileRecord e r (run ops (avoidReadFromDbOnNextSync e0 p j)) = (true, j') ->
  (md5 <$> metadata (_db j') !! getPHash (_path r)) = Some "_invalid_" /\
  _avoidReadFromDbOnNextSyncFilter (close e' j') = [].
Proof.
  intros Hc Hops Hpre Hset. split; [|reflexivity].
  destruct (setFileRecord_ok _ _ _ _ Hset) as (_ & Hmeta & _).
  rewrite Hmeta, lookup_insert_eq. simpl.
  rewrite (filteredEtag_hit _ r p); [reflexivity| |exact Hpre].
  apply run_filter; [exact Hops|].
  apply avoidReadFromDbOnNextSync_adds, Hc.
Qed.

(** *** Records next to the one written or deleted *)

Lemma checkConnect_connects e j :
  open_ok e = true -> exec_ok e = true -> fst (checkConnect e j) = true.
Proof.
  intros Ho He. unfold checkConnect. destruct (isOpen (_db j)); [reflexivity|].
  rewrite Ho, He. reflexivity.
Qed.

Lemma getFileRecord_connecting e q j :
  fst (checkConnect e j) = true -> exec_ok e = true ->
  fst (getFileRecord e q j) =
    match metadata (_db j) !! getPHash q with
    | Some row => recordOf row
    | None => noFileRecord
    end.
Proof.
  intros Hc He. unfold getFileRecord.
  pose proof (checkConnect_metadata e j) as Hm.
  destruct (checkConnect e j) as [connected j1]; simpl in *. subst connected.
  rewrite He. simpl. rewrite Hm. destruct (_ !! _); reflexivity.
Qed.

(** X3. The rows of [metadata] are kept by the hash of the path alone.
    After a successful [setFileRecord(r)], [getFileRecord(q)] for a path
    [q] with the hash of [r]'s path returns what [getFileRecord(r.path)]
    returns, the record of path [r.path], whatever [q] is; for a path with
    another hash it returns what it returned before. *)
Theorem getFileRecord_after_setFileRecord_by_hash e e' r q j j' :
  setFileRecord e r j = (true, j') ->
  open_ok e' = true -> exec_ok e' = true ->
  (getPHash q = getPHash (_path r) ->
     fst (getFileRecord e' q j') = fst (getFileRecord e' (_path r) j') /\
     _path (fst (getFileRecord e' q j')) = _path r) /\
  (getPHash q <> getPHash (_path r) ->
     fst (getFileRecord e' q j') = fst (getFileRecord e' q j)).
Proof.
  intros Hset Ho He.
  destruct (setFileRecord_ok _ _ _ _ Hset) as (Hopen & Hmeta & _).
  pose proof (checkConnect_connects e' j Ho He) as Hc.
  rewrite !(getFileRecord_open e' _ j' Hopen He), (getFileRecord_connecting e' q j Hc He).
  rewrite Hmeta. split.
  - intros ->. rewrite lookup_insert_eq. split; reflexivity.
  - intros Hne. rewrite lookup_insert_ne by congruence. reflexivity.
Qed.

Lemma deleteFileRecord_plain_ok e p j j' :
  deleteFileRecord e p false j = (true, j') ->
  isOpen (_db j') = true /\
  metadata (_db j') = delete (getPHash p) (metadata (_db j)).
Proof.
  unfold deleteFileRecord.
  pose proof (checkConnect_open e j) as Ho.
  pose proof (checkConnect_metadata e j) as Hm.
  destruct (checkConnect e j) as [connected j1]; simpl in *.
  destruct connected; [|discriminate].
  destruct (negb (exec_ok e)); [discriminate|].
  intros [= <-]. simpl. rewrite Hm. auto.
Qed.

(** X4. After [deleteFileRecord(p, false)] has succeeded,
    [getFileRecord(p)] returns the empty record, and every path with
    another hash, the paths below [p] among them, reads as before. *)
Theorem deleteFileRecord_single_keeps_others e e' p q j j' :
  deleteFileRecord e p false j = (true, j') ->
  open_ok e' = true -> exec_ok e' = true ->
  fst (getFileRecord e' p j') = noFileRecord /\
  (getPHash q <> getPHash p ->
     fst (getFileRecord e' q j') = fst (getFileRecord e' q j)).
Proof.
  intros Hdel Ho He.
  destruct (deleteFileRecord_plain_ok _ _ _ _ Hdel) as (Hopen & Hmeta).
  pose proof (checkConnect_connects e' j Ho He) as Hc.
  rewrite !(getFileRecord_open e' _ j' Hopen He), (getFileRecord_connecting e' q j Hc He).
  rewrite Hmeta. split.
  - rewrite lookup_delete_eq. reflexivity.
  - intros Hne. rewrite lookup_delete_ne by congruence. reflexivity.
Qed.

(** X5. A recursive delete of a path [p] that holds no [%] and no [_]
    leaves the records outside [p] alone: a path with another hash than
    [p], whose stored row does not start with [p + "/"], reads as before
    (["ab/c"] survives the recursive delete of ["a"]). *)
Theorem deleteFileRecord_recursive_keeps_outside e e' p q j j' :
  deleteFileRecord e p true j = (true, j') ->
  open_ok e' = true -> exec_ok e' = true ->
  QStr.noWildcard p = true ->
  getPHash q <> getPHash p ->
  (forall row, metadata (_db j) !! getPHash q = Some row ->
     QStr.startsWith (path row) (p +:+ "/") = false) ->
  fst (getFileRecord e' q j') = fst (getFileRecord e' q j).
Proof.
  intros Hdel Ho He Hplain Hne Hout.
  destruct (deleteFileRecord_recursive_ok _ _ _ _ Hdel) as (Hopen & Hmeta).
  pose proof (checkConnect_connects e' j Ho He) as Hc.
  rewrite (getFileRecord_open e' _ j' Hopen He), (getFileRecord_connecting e' q j Hc He).
  rewrite Hmeta.
  destruct (metadata (_db j) !! getPHash q) as [row|] eqn:Hrow.
  - replace (filter _ _ !! getPHash q) with (Some row); [reflexivity|].
    symmetry. apply map_lookup_filter_Some. split.
    + rewrite lookup_delete_ne by congruence. exact Hrow.
    + simpl. rewrite QStr.like_plain_prefix by exact Hplain. apply Hout. reflexivity.
  - replace (filter _ _ !! getPHash q) with (@None MetadataRow); [reflexivity|].
    symmetry. apply map_lookup_filter_None. left.
    rewrite lookup_delete_ne by congruence. exact Hrow.
Qed.


(** *** What the two "avoid" calls do to the rows stored *)

(** The row after [UPDATE metadata SET md5='_invalid_' WHERE ?1 LIKE(path||'/%') AND type == 2]. *)
Lemma avoidReadFromDbOnNextSync_rows e f j :
  fst (checkConnect e j) = true -> exec_ok e = true ->
  isOpen (_db (avoidReadFromDbOnNextSync e f j)) = true /\
  _avoidReadFromDbOnNextSyncFilter (avoidReadFromDbOnNextSync e f j)
    = _avoidReadFromDbOnNextSyncFilter j ++ [f] /\
  forall k row,
    metadata (_db j) !! k = Some row ->
    exists row',
      metadata (_db (avoidReadFromDbOnNextSync e f j)) !! k = Some row' /\
      path row' = path row /\ inode row' = inode row /\ fileid row' = fileid row /\
      type row' = type row /\
      md5 row' = if (QStr.like (path row +:+ "/%") f && (type row =? 2))%bool
                 then "_invalid_" else md5 row.
Proof.
  intros Hc He. unfold avoidReadFromDbOnNextSync.
  pose proof (checkConnect_open e j Hc) as Ho.
  pose proof (checkConnect_metadata e j) as Hm.
  pose proof (checkConnect_filter e j) as Hf.
  destruct (checkConnect e j) as [connected j1]; simpl in *. subst connected.
  rewrite He. simpl. rewrite Hm, Hf.
  split; [exact Ho|]. split; [reflexivity|].
  intros k row Hrow. rewrite lookup_fmap, Hrow. simpl.
  eexists. split; [reflexivity|].
  destruct (_ && _)%bool; repeat split; reflexivity.
Qed.

(** X7. [avoidReadFromDbOnNextSync(f)] also rewrites the rows already
    stored: after it has run on a journal that connects, the record read
    for a stored path [d] above [f] (so that [f] is [d + "/" + rest]) has
    the etag [_invalid_] when the row is a directory (type 2) and its own
    etag otherwise; path and file id are as stored. *)
Theorem avoidReadFromDb_invalidates_stored_directories e e' d rest row j :
  fst (checkConnect e j) = true -> exec_ok e = true -> exec_ok e' = true ->
  metadata (_db j) !! getPHash d = Some row -> path row = d ->
  let r := fst (getFileRecord e' d (avoidReadFromDbOnNextSync e (d +:+ "/" +:+ rest) j)) in
  _etag r = (if type row =? 2 then "_invalid_" else md5 row) /\
  _path r = d /\ _fileId r = fileid row.
Proof.
  intros Hc He He' Hrow Hpath r. subst r.
  destruct (avoidReadFromDbOnNextSync_rows e (d +:+ "/" +:+ rest) j Hc He)
    as (Hopen & _ & Hrows).
  destruct (Hrows _ _ Hrow) as (row' & Hrow' & Hp & _ & Hid & _ & Hmd5).
  rewrite (getFileRecord_open e' _ _ Hopen He'), Hrow'.
  unfold recordOf; simpl. rewrite Hp, Hid, Hmd5, Hpath.
  rewrite QStr.like_prefix_pattern. simpl. auto.
Qed.

(** X8. [avoidRenamesOnNextSync(p)] on a journal that connects: the record
    read afterwards for a stored path [q] that is [p] or lies below [p]
    has an empty file id and the inode read from 0, and [p] has joined the
    etag filter. *)
Theorem avoidRenamesOnNextSync_forgets_ids e e' p q row j :
  fst (checkConnect e j) = true -> exec_ok e = true -> exec_ok e' = true ->
  metadata (_db j) !! getPHash q = Some row -> path row = q ->
  q = p \/ QStr.startsWith q (p +:+ "/") = true ->
  let j' := avoidRenamesOnNextSync e p j in
  let r := fst (getFileRecord e' q j') in
  _fileId r = "" /\ _inode r = to_quint64 (intValue 0) /\ _path r = q /\
  In p (_avoidReadFromDbOnNextSyncFilter j').
Proof.
  intros Hc He He' Hrow Hpath Hq j' r. subst j' r.
  unfold avoidRenamesOnNextSync.
  pose proof (checkConnect_open e j Hc) as Ho.
  pose proof (checkConnect_metadata e j) as Hm.
  destruct (checkConnect e j) as [connected j1]; simpl in Hc, Ho, Hm. subst connected.
  rewrite He.
  match goal with
  | |- context [avoidReadFromDbOnNextSync e p ?x] => set (j3 := x)
  end.
  assert (Ho3 : isOpen (_db j3) = true) by exact Ho.
  assert (Hc3 : fst (checkConnect e j3) = true)
    by (rewrite (checkConnect_when_open e j3 Ho3); reflexivity).
  destruct (avoidReadFromDbOnNextSync_rows e p j3 Hc3 He) as (Hopen & Hfilter & Hrows).
  assert (Hrow3 : exists row3, metadata (_db j3) !! getPHash q = Some row3 /\
                    path row3 = q /\ inode row3 = 0 /\ fileid row3 = "").
  { subst j3. simpl. rewrite lookup_fmap, Hm, Hrow. simpl.
    eexists. split; [reflexivity|].
    replace (bool_decide (path row = p) || QStr.like (p +:+ "/%") (path row))%bool
      with true; [simpl; auto|].
    symmetry. apply orb_true_iff. rewrite Hpath.
    destruct Hq as [->|Hpre]; [left; apply bool_decide_eq_true_2; reflexivity|right].
    destruct (QStr.startsWith_inv _ _ Hpre) as [rest ->].
    rewrite QStr.append_assoc. apply QStr.like_prefix_pattern. }
  destruct Hrow3 as (row3 & Hrow3 & Hp3 & Hi3 & Hf3).
  destruct (Hrows _ _ Hrow3) as (row' & Hrow' & Hp & Hi & Hid & _ & _).
  rewrite (getFileRecord_open e' _ _ Hopen He'), Hrow'.
  unfold recordOf; simpl. rewrite Hp, Hi, Hid, Hp3, Hi3, Hf3.
  repeat split. rewrite Hfilter. apply in_or_app. right. left. reflexivity.
Qed.

(** *** Without a connection *)

(** X9. When the connection is closed and the database cannot be opened,
    every call on the file records and the blacklist reports failure with
    its own value (false, the empty record, -1, or 0 for
    [blackListEntryCount]) and changes nothing: no statement is sent, and
    [avoidReadFromDbOnNextSync] does not extend the etag filter. *)
Theorem not_connected_changes_nothing
    e (r : SyncJournalFileRecord) (p : string) (b : bool)
    (item : SyncJournalBlacklistRecord) (keep : gset string) j :
  isOpen (_db j) = false -> open_ok e = false ->
  setFileRecord e r j = (false, j) /\
  deleteFileRecord e p b j = (false, j) /\
  getFileRecord e p j = (noFileRecord, j) /\
  avoidReadFromDbOnNextSync e p j = j /\
  avoidRenamesOnNextSync e p j = j /\
  blacklistEntry e p j = (noBlacklistRecord, j) /\
  wipeBlacklistEntry e p j = j /\
  updateBlacklistEntry e item j = j /\
  postSyncCleanup e keep j = (false, j) /\
  getFileRecordCount e j = (-1, j) /\
  deleteStaleBlacklistEntries e keep j = (false, j) /\
  blackListEntryCount e j = (0, j) /\
  wipeBlacklist e j = (-1, j).
Proof.
  intros Hclosed Hopen.
  assert (Hc : checkConnect e j = (false, j)).
  { unfold checkConnect. rewrite Hclosed, Hopen. reflexivity. }
  unfold setFileRecord, deleteFileRecord, getFileRecord, avoidReadFromDbOnNextSync,
    avoidRenamesOnNextSync, blacklistEntry, wipeBlacklistEntry, updateBlacklistEntry,
    postSyncCleanup, getFileRecordCount, deleteStaleBlacklistEntries,
    blackListEntryCount, wipeBlacklist.
  rewrite Hc. destruct (QStr.isEmpty p); repeat split.
Qed.

(** X10. [checkConnect] on a closed journal whose database opens and whose
    statements and commits succeed returns true with the connection open
    and no transaction running (the last [commitInternal] starts none),
    whether or not BEGIN succeeds; on an open connection it returns true
    and leaves the journal as it is. *)
Theorem checkConnect_opens_without_transaction e j :
  transactionIdleOrOpen j ->
  open_ok e = true -> exec_ok e = true -> commit_ok e = true ->
  fst (checkConnect e j) = true /\
  isOpen (_db (snd (checkConnect e j))) = true /\
  (isOpen (_db j) = false -> _transaction (snd (checkConnect e j)) = 0) /\
  (isOpen (_db j) = true -> snd (checkConnect e j) = j).
Proof.
  intros Ht Ho He Hcm.
  pose proof (checkConnect_connects e j Ho He) as Hc.
  split; [exact Hc|]. split; [apply checkConnect_open, Hc|]. split.
  - intros Hclosed. destruct j as [db t f].
    unfold transactionIdleOrOpen in Ht. cbn [_transaction] in Ht. cbn [_db] in Hclosed.
    unfold checkConnect, commitInternal, commitTransaction, startTransaction.
    cbn [_db]. rewrite Hclosed, Ho, He, Hcm. cbn [negb].
    destruct Ht as [-> | ->]; destruct (transaction_ok e); reflexivity.
  - intros Hopen. rewrite (checkConnect_when_open e j Hopen). reflexivity.
Qed.

(** *** The blacklist *)

Lemma find_filter_out {A} (P Q : A -> bool) (l : list A) :
  (forall x, In x l -> P x = true -> Q x = false) ->
  find P (List.filter Q l) = None.
Proof.
  induction l as [|x l IH]; intros H; [reflexivity|]. cbn [List.filter].
  destruct (Q x) eqn:Eq.
  - cbn [find]. destruct (P x) eqn:Ep.
    + rewrite (H x (or_introl eq_refl) Ep) in Eq. discriminate.
    + apply IH. intros y Hy. apply H. right. exact Hy.
  - apply IH. intros y Hy. apply H. right. exact Hy.
Qed.

Lemma find_app_miss {A} (P : A -> bool) (l1 l2 : list A) :
  find P l1 = None -> find P (l1 ++ l2) = find P l2.
Proof.
  induction l1 as [|x l1 IH]; [reflexivity|]. cbn [find app].
  destruct (P x); [discriminate|exact IH].
Qed.

Lemma filter_filter_and {A} (P Q : A -> bool) (l : list A) :
  List.filter P (List.filter Q l) = List.filter (fun x => (Q x && P x)%bool) l.
Proof.
  induction l as [|x l IH]; [reflexivity|]. cbn [List.filter].
  destruct (Q x); cbn [List.filter andb]; [destruct (P x)|]; rewrite IH; reflexivity.
Qed.

Lemma filter_agree {A} (P Q : A -> bool) (l : list A) :
  (forall x, In x l -> P x = Q x) -> List.filter P l = List.filter Q l.
Proof.
  induction l as [|x l IH]; intros H; [reflexivity|]. cbn [List.filter].
  rewrite (H x (or_introl eq_refl)), IH; [reflexivity|].
  intros y Hy. apply H. right. exact Hy.
Qed.

Lemma blacklistMatch_own (row : SyncJournalBlacklistRecord) :
  blacklistMatch (_file row) row = true.
Proof.
  unfold blacklistMatch. destruct fsCasePreserving; apply bool_decide_eq_true_2; reflexivity.
Qed.

Lemma updateBlacklistEntry_ok e item j :
  fst (checkConnect e j) = true -> exec_ok e = true ->
  isOpen (_db (updateBlacklistEntry e item j)) = true /\
  blacklist (_db (updateBlacklistEntry e item j)) =
    List.filter (fun row => negb (bool_decide (_file row = _file item)))
                (blacklist (_db j)) ++ [item] /\
  metadata (_db (updateBlacklistEntry e item j)) = metadata (_db j).
Proof.
  intros Hc He. unfold updateBlacklistEntry.
  pose proof (checkConnect_open e j Hc) as Ho.
  pose proof (checkConnect_blacklist e j) as Hb.
  pose proof (checkConnect_metadata e j) as Hm.
  destruct (checkConnect e j) as [connected j1]; simpl in *. subst connected.
  rewrite He. simpl. rewrite Hb. auto.
Qed.

Lemma wipeBlacklistEntry_ok e file j :
  fst (checkConnect e j) = true -> exec_ok e = true -> QStr.isEmpty file = false ->
  isOpen (_db (wipeBlacklistEntry e file j)) = true /\
  blacklist (_db (wipeBlacklistEntry e file j)) =
    List.filter (fun row => negb (bool_decide (_file row = file))) (blacklist (_db j)).
Proof.
  intros Hc He Hfile. unfold wipeBlacklistEntry. rewrite Hfile.
  pose proof (checkConnect_open e j Hc) as Ho.
  pose proof (checkConnect_blacklist e j) as Hb.
  destruct (checkConnect e j) as [connected j1]; simpl in *. subst connected.
  rewrite He. simpl. rewrite Hb. auto.
Qed.

Lemma blacklistEntry_open e file j :
  isOpen (_db j) = true -> exec_ok e = true -> QStr.isEmpty file = false ->
  fst (blacklistEntry e file j) =
    match find (blacklistMatch file) (blacklist (_db j)) with
    | Some row =>
        mkBlacklist (intValue (_retryCount row)) (_errorString row)
                    (_lastTryModtime row) (_lastTryEtag row) (_lastTryTime row)
                    (_ignoreDuration row) file
    | None => noBlacklistRecord
    end.
Proof.
  intros Ho He Hfile. unfold blacklistEntry.
  rewrite Hfile, (checkConnect_when_open e j Ho), He. simpl.
  destruct (find _ _); reflexivity.
Qed.

(** X11. The entry written by [updateBlacklistEntry] is the entry
    [blacklistEntry] returns for its path, the retry count read as an
    [int], provided the rows that the lookup takes for this path are rows
    of this very path (always so on a file system that is not case
    preserving, where the lookup compares paths as they are). *)
Theorem updateBlacklistEntry_then_blacklistEntry e e' item j :
  fst (checkConnect e j) = true -> exec_ok e = true -> exec_ok e' = true ->
  QStr.isEmpty (_file item) = false ->
  (forall row, In row (blacklist (_db j)) ->
     blacklistMatch (_file item) row = true -> _file row = _file item) ->
  fst (blacklistEntry e' (_file item) (updateBlacklistEntry e item j)) =
    mkBlacklist (intValue (_retryCount item)) (_errorString item)
                (_lastTryModtime item) (_lastTryEtag item) (_lastTryTime item)
                (_ignoreDuration item) (_file item).
Proof.
  intros Hc He He' Hfile Hrows.
  destruct (updateBlacklistEntry_ok e item j Hc He) as (Ho & Hb & _).
  rewrite (blacklistEntry_open e' _ _ Ho He' Hfile), Hb.
  rewrite find_app_miss.
  - cbn [find]. rewrite blacklistMatch_own. reflexivity.
  - apply find_filter_out. intros row Hin Hmatch.
    rewrite (Hrows row Hin Hmatch). rewrite bool_decide_eq_true_2 by reflexivity.
    reflexivity.
Qed.

(** X12. On a case preserving file system the lookup of the blacklist
    folds case ([COLLATE NOCASE]) and the delete of [wipeBlacklistEntry]
    does not: an entry written for a path that differs from [file] in case
    only is still there after [wipeBlacklistEntry(file)], and
    [blacklistEntry(file)] returns it, under the name [file] that was
    asked for. *)
Theorem wipeBlacklistEntry_compares_case e e' e'' item file j :
  fsCasePreserving = true ->
  fst (checkConnect e j) = true -> exec_ok e = true ->
  exec_ok e' = true -> exec_ok e'' = true ->
  QStr.isEmpty file = false ->
  QStr.toLower (_file item) = QStr.toLower file -> _file item <> file ->
  (forall row, In row (blacklist (_db j)) ->
     QStr.toLower (_file row) <> QStr.toLower file) ->
  fst (blacklistEntry e'' file
         (wipeBlacklistEntry e' file (updateBlacklistEntry e item j))) =
    mkBlacklist (intValue (_retryCount item)) (_errorString item)
                (_lastTryModtime item) (_lastTryEtag item) (_lastTryTime item)
                (_ignoreDuration item) file.
Proof.
  intros Hcase Hc He He' He'' Hfile Hlow Hne Hrows.
  destruct (updateBlacklistEntry_ok e item j Hc He) as (Ho & Hb & _).
  assert (Hc1 : fst (checkConnect e' (updateBlacklistEntry e item j)) = true)
    by (rewrite (checkConnect_when_open e' _ Ho); reflexivity).
  destruct (wipeBlacklistEntry_ok e' file _ Hc1 He' Hfile) as (Ho2 & Hb2).
  rewrite (blacklistEntry_open e'' _ _ Ho2 He'' Hfile), Hb2, Hb.
  rewrite List.filter_app. cbn [List.filter].
  rewrite (bool_decide_eq_false_2 _ Hne). cbn [negb].
  rewrite find_app_miss.
  - cbn [find]. unfold blacklistMatch at 1. rewrite Hcase.
    rewrite (bool_decide_eq_true_2 _ Hlow). reflexivity.
  - rewrite filter_filter_and. apply find_filter_out. intros row Hin Hmatch.
    exfalso. apply (Hrows row Hin).
    unfold blacklistMatch in Hmatch. rewrite Hcase in Hmatch.
    apply bool_decide_eq_true in Hmatch. exact Hmatch.
Qed.

(** On a file system that is not case preserving, after a successful
    [wipeBlacklistEntry(file)] the lookup [blacklistEntry(file)] returns
    the default record. *)
Theorem wipeBlacklistEntry_then_blacklistEntry e e' file j :
  fsCasePreserving = false ->
  fst (checkConnect e j) = true -> exec_ok e = true ->
  fst (blacklistEntry e' file (wipeBlacklistEntry e file j)) = noBlacklistRecord.
Proof.
  intros Hcase Hc He.
  destruct (QStr.isEmpty file) eqn:Hfile.
  { unfold blacklistEntry. rewrite Hfile. reflexivity. }
  destruct (wipeBlacklistEntry_ok e file j Hc He Hfile) as (Ho & Hb).
  unfold blacklistEntry. rewrite Hfile, (checkConnect_when_open e' _ Ho).
  destruct (exec_ok e'); [|reflexivity]. cbn [send with_db _db blacklist].
  rewrite Hb, find_filter_out; [reflexivity|].
  intros row _ Hmatch. unfold blacklistMatch in Hmatch. rewrite Hcase in Hmatch.
  rewrite Hmatch. reflexivity.
Qed.

(** [wipeBlacklist] on a journal that connects returns the number of
    entries there were; afterwards [blacklistEntry] returns the default
    record for every path and [blackListEntryCount] reads 0. *)
Theorem wipeBlacklist_empties e e' file j :
  fst (checkConnect e j) = true -> exec_ok e = true ->
  fst (wipeBlacklist e j) = Z.of_nat (length (blacklist (_db j))) /\
  fst (blacklistEntry e' file (snd (wipeBlacklist e j))) = noBlacklistRecord /\
  (exec_ok e' = true ->
     fst (blackListEntryCount e' (snd (wipeBlacklist e j))) = intValue 0).
Proof.
  intros Hc He. unfold wipeBlacklist.
  pose proof (checkConnect_open e j Hc) as Ho.
  pose proof (checkConnect_blacklist e j) as Hb.
  destruct (checkConnect e j) as [connected j1]; simpl in Hc, Ho, Hb. subst connected.
  rewrite He. cbn [negb fst snd]. cbn [send with_db _db blacklist]. rewrite Hb.
  set (j2 := set_blacklist [] (send Q_wipeBlacklist j1)).
  assert (Ho2 : isOpen (_db j2) = true) by exact Ho.
  split; [reflexivity|]. split.
  - unfold blacklistEntry. destruct (QStr.isEmpty file); [reflexivity|].
    rewrite (checkConnect_when_open e' j2 Ho2).
    destruct (exec_ok e'); reflexivity.
  - intros He'. unfold blackListEntryCount.
    rewrite (checkConnect_when_open e' j2 Ho2), He'. reflexivity.
Qed.

Lemma deleteBlacklistBatch_rows entries j :
  blacklist (_db (deleteBlacklistBatch entries j)) =
    List.filter (fun row => negb (bool_decide (_file row ∈ entries)))
                (blacklist (_db j)) /\
  metadata (_db (deleteBlacklistBatch entries j)) = metadata (_db j).
Proof.
  unfold deleteBlacklistBatch. revert j.
  induction entries as [|entry rest IH]; intros j; cbn [fold_left].
  - split; [|reflexivity]. induction (blacklist (_db j)) as [|row l IHl]; [reflexivity|].
    cbn [List.filter]. rewrite bool_decide_eq_false_2 by (apply not_elem_of_nil).
    cbn [negb]. rewrite <- IHl. reflexivity.
  - destruct (IH (set_blacklist
                    (List.filter (fun row => negb (bool_decide (_file row = entry)))
                                 (blacklist (_db j)))
                    (send Q_deleteBlacklistPath j))) as [-> ->].
    split; [|reflexivity]. cbn [set_blacklist send with_db _db blacklist].
    rewrite filter_filter_and. apply filter_agree. intros row _.
    destruct (decide (_file row = entry)) as [Heq|Hne].
    + rewrite (bool_decide_eq_true_2 _ Heq). cbn [negb andb].
      rewrite bool_decide_eq_true_2; [reflexivity|]. rewrite Heq. apply elem_of_cons. left. reflexivity.
    + rewrite (bool_decide_eq_false_2 _ Hne). cbn [negb andb].
      destruct (decide (_file row ∈ rest)) as [Hin|Hout].
      * rewrite !bool_decide_eq_true_2; [reflexivity| |exact Hin].
        apply elem_of_cons. right. exact Hin.
      * rewrite !bool_decide_eq_false_2; [reflexivity| |exact Hout].
        intros Hin. apply elem_of_cons in Hin as [?|?]; [contradiction|contradiction].
Qed.

(** X13. After a successful [deleteStaleBlacklistEntries(keep)] the
    blacklist holds the entries whose path is in [keep], as they were and
    in their order, and no other; the file records are untouched. *)
Theorem deleteStaleBlacklistEntries_keeps_exactly e keep j j' :
  deleteStaleBlacklistEntries e keep j = (true, j') ->
  blacklist (_db j') =
    List.filter (fun row => bool_decide (_file row ∈ keep)) (blacklist (_db j)) /\
  metadata (_db j') = metadata (_db j).
Proof.
  unfold deleteStaleBlacklistEntries.
  pose proof (checkConnect_blacklist e j) as Hb.
  pose proof (checkConnect_metadata e j) as Hm.
  destruct (checkConnect e j) as [connected j1]; simpl in Hb, Hm.
  destruct connected; [|discriminate]. cbn [negb].
  destruct (negb (exec_ok e)); [discriminate|].
  intros [= <-].
  destruct (deleteBlacklistBatch_rows
              (List.filter (fun file => negb (bool_decide (file ∈ keep)))
                 (map _file (blacklist (_db j1))))
              (send Q_selectBlacklistPaths j1)) as [-> ->].
  cbn [send with_db _db blacklist metadata]. rewrite Hb, Hm. split; [|reflexivity].
  apply filter_agree. intros row Hin.
  destruct (decide (_file row ∈ keep)) as [Hk|Hk].
  - rewrite (bool_decide_eq_true_2 _ Hk).
    rewrite bool_decide_eq_false_2; [reflexivity|].
    intros H. apply list_elem_of_In, filter_In in H as [_ H].
    rewrite (bool_decide_eq_true_2 _ Hk) in H. discriminate.
  - rewrite (bool_decide_eq_false_2 _ Hk).
    rewrite bool_decide_eq_true_2; [reflexivity|].
    apply list_elem_of_In, filter_In. split.
    + apply in_map. exact Hin.
    + rewrite (bool_decide_eq_false_2 _ Hk). reflexivity.
Qed.

(** After a successful [postSyncCleanup(items)] the table of file
    records holds the rows whose path is in [items], as they were, and no
    other row; the blacklist is untouched and the connection is open. *)
Theorem postSyncCleanup_keeps_exactly e keep j j' :
  postSyncCleanup e keep j = (true, j') ->
  metadata (_db j') = filter (fun kv => path kv.2 ∈ keep) (metadata (_db j)) /\
  blacklist (_db j') = blacklist (_db j) /\
  isOpen (_db j') = true.
Proof.
  unfold postSyncCleanup.
  pose proof (checkConnect_open e j) as Ho.
  pose proof (checkConnect_blacklist e j) as Hb.
  pose proof (checkConnect_metadata e j) as Hm.
  destruct (checkConnect e j) as [connected j1]; simpl in Ho, Hb, Hm.
  destruct connected; [|discriminate]. cbn [negb].
  destruct (negb (exec_ok e)); [discriminate|].
  intros [= <-]. cbn [send with_db _db metadata] in *.
  destruct (bool_decide_reflect
              (filter (fun kv : Z * MetadataRow => path kv.2 ∉ keep) (metadata (_db j1)) = ∅))
    as [Hnone|Hsome].
  - cbn [send with_db _db metadata blacklist isOpen]. rewrite <- Hm.
    split; [|split; [exact Hb|exact (Ho eq_refl)]].
    symmetry. apply map_filter_id. intros k row Hrow. cbn [snd].
    destruct (decide (path row ∈ keep)) as [Hin|Hout]; [exact Hin|exfalso].
    assert (Hl : filter (fun kv : Z * MetadataRow => path kv.2 ∉ keep)
                   (metadata (_db j1)) !! k = Some row)
      by (apply map_lookup_filter_Some; split; [exact Hrow|exact Hout]).
    rewrite Hnone in Hl. rewrite lookup_empty in Hl. discriminate.
  - cbn [set_metadata send with_db _db metadata blacklist isOpen]. rewrite <- Hm.
    split; [reflexivity|split; [exact Hb|exact (Ho eq_refl)]].
Qed.

End Gateway.

(** *** Closed instances *)

(** A reader with the range of a C [int]: the low 32 bits of the column
    value, two's complement. It stands for [intValue] in the instances
    below. *)
Definition column_int (v : Z) : Z := (v + 2 ^ 31) mod 2 ^ 32 - 2 ^ 31.

(** A hash that stands for [c_jhash64] in the instances below; every
    theorem above holds for any hash. *)
Definition sample_hash (s : string) : Z :=
  fold_left (fun h c => (h * 31 + Z.of_nat (nat_of_ascii c)) mod 2 ^ 64)
            (list_ascii_of_string s) 7.

Lemma column_int_range v : - 2 ^ 31 <= column_int v < 2 ^ 31.
Proof.
  unfold column_int.
  pose proof (Z.mod_pos_bound (v + 2 ^ 31) (2 ^ 32) ltac:(lia)). lia.
Qed.

Definition fileRecord_a_b : SyncJournalFileRecord :=
  mkFileRecord "a/b" 77 420 1500000000 0 "etag1" "id1" "" 12.

Definition fileRecord_big_inode : SyncJournalFileRecord :=
  mkFileRecord "a/b" 4294967296 420 1500000000 0 "etag1" "id1" "" 12.

Definition dir_a : SyncJournalFileRecord :=
  mkFileRecord "a" 5 493 1500000000 2 "etag0" "id0" "" 0.

Definition fresh : SyncJournalDb := newJournal emptyDb.

(** The record of inode [2^32] written to a fresh journal comes back with
    another inode. *)
Lemma getFileRecord_reads_inode_as_int_witness :
  (_inode (fst (getFileRecord sample_hash column_int allOk "a/b"
                  (snd (setFileRecord sample_hash allOk fileRecord_big_inode fresh))))
   =? 4294967296) = false.
Proof.
  apply (getFileRecord_reads_inode_as_int sample_hash column_int allOk allOk
           fileRecord_big_inode fresh
           (snd (setFileRecord sample_hash allOk fileRecord_big_inode fresh))).
  - exact column_int_range.
  - reflexivity.
  - reflexivity.
  - simpl. lia.
Defined.

Lemma deleteFileRecord_recursive_then_getFileRecord_witness :
  fst (getFileRecord sample_hash column_int allOk "a/b"
         (snd (deleteFileRecord sample_hash allOk "a" true
                 (snd (setFileRecord sample_hash allOk fileRecord_a_b fresh)))))
  = noFileRecord.
Proof.
  apply (deleteFileRecord_recursive_then_getFileRecord sample_hash column_int
           allOk allOk "a" "a/b"
           (snd (setFileRecord sample_hash allOk fileRecord_a_b fresh))).
  - vm_compute. reflexivity.
  - right. split; [reflexivity|].
    intros row Hrow. vm_compute in Hrow. injection Hrow as <-. reflexivity.
Defined.

Lemma avoidReadFromDb_invalidates_etag_of_ancestors_witness :
  (md5 <$> metadata (_db (snd (setFileRecord sample_hash allOk dir_a
              (run sample_hash column_int false [OpGetFileRecord allOk "a"]
                 (avoidReadFromDbOnNextSync allOk "a/b" fresh)))))
           !! getPHash sample_hash "a") = Some "_invalid_" /\
  _avoidReadFromDbOnNextSyncFilter
    (close allOk (snd (setFileRecord sample_hash allOk dir_a
              (run sample_hash column_int false [OpGetFileRecord allOk "a"]
                 (avoidReadFromDbOnNextSync allOk "a/b" fresh))))) = [].
Proof.
  apply (avoidReadFromDb_invalidates_etag_of_ancestors sample_hash column_int false
           allOk "a/b" fresh [OpGetFileRecord allOk "a"] allOk dir_a
           (snd (setFileRecord sample_hash allOk dir_a
              (run sample_hash column_int false [OpGetFileRecord allOk "a"]
                 (avoidReadFromDbOnNextSync allOk "a/b" fresh)))) allOk);
    vm_compute; reflexivity.
Defined.

Lemma setFileRecord_getFileRecord_witness :
  fst (getFileRecord sample_hash column_int allOk (_path fileRecord_a_b)
         (snd (setFileRecord sample_hash allOk fileRecord_a_b fresh))) =
    mkFileRecord (_path fileRecord_a_b) (_inode fileRecord_a_b) (_mode fileRecord_a_b)
      (_modtime fileRecord_a_b) (_type fileRecord_a_b)
      (filteredEtag (_avoidReadFromDbOnNextSyncFilter fresh) fileRecord_a_b)
      (_fileId fileRecord_a_b) (_remotePerm fileRecord_a_b) (_fileSize fileRecord_a_b) /\
  (uid <$> metadata (_db (snd (setFileRecord sample_hash allOk fileRecord_a_b fresh)))
           !! getPHash sample_hash (_path fileRecord_a_b)) = Some 0 /\
  (gid <$> metadata (_db (snd (setFileRecord sample_hash allOk fileRecord_a_b fresh)))
           !! getPHash sample_hash (_path fileRecord_a_b)) = Some 0.
Proof.
  apply (setFileRecord_getFileRecord sample_hash column_int allOk allOk
           fileRecord_a_b fresh
           (snd (setFileRecord sample_hash allOk fileRecord_a_b fresh)));
    reflexivity.
Defined.

(** C2 as stated fails: after [avoidReadFromDbOnNextSync("a")] on a fresh
    journal, [setFileRecord] of the record for ["a/b"], whose path starts
    with ["a/"], succeeds and stores the record's own etag. *)
Lemma avoidReadFromDb_keeps_etag_of_descendant :
  QStr.startsWith (_path fileRecord_a_b) ("a" +:+ "/") = true /\
  fst (setFileRecord sample_hash allOk fileRecord_a_b
         (avoidReadFromDbOnNextSync allOk "a" fresh)) = true /\
  (md5 <$> metadata (_db (snd (setFileRecord sample_hash allOk fileRecord_a_b
                                 (avoidReadFromDbOnNextSync allOk "a" fresh))))
           !! getPHash sample_hash "a/b") = Some "etag1".
Proof. vm_compute. auto. Qed.

(** *** Instances of the further facts *)

(** A hash under which paths of the same length collide; it stands for
    [c_jhash64] where two paths share a hash. *)
Definition length_hash (s : string) : Z := Z.of_nat (String.length s).

(** A fresh journal after the records of ["a"] and ["a/b"] were written. *)
Definition twoRecords : SyncJournalDb :=
  snd (setFileRecord sample_hash allOk fileRecord_a_b
         (snd (setFileRecord sample_hash allOk dir_a fresh))).

Definition fileRecord_ab_c : SyncJournalFileRecord :=
  mkFileRecord "ab/c" 78 420 1500000000 0 "etag2" "id2" "" 5.


Definition cannotOpen : SqlEnv := mkEnv false true true true.

Definition entry_f : SyncJournalBlacklistRecord :=
  mkBlacklist 3 "HTTP 500" 1400000000 "e1" 1500000000 25 "f".

Definition entry_g : SyncJournalBlacklistRecord :=
  mkBlacklist 1 "HTTP 404" 1400000001 "e2" 1500000001 25 "g".

Definition entry_upper : SyncJournalBlacklistRecord :=
  mkBlacklist 2 "HTTP 500" 1400000000 "e1" 1500000000 25 "A.txt".

Definition twoEntries : SyncJournalDb :=
  updateBlacklistEntry allOk entry_g (updateBlacklistEntry allOk entry_f fresh).

Definition fileRecord_x_y : SyncJournalFileRecord :=
  mkFileRecord "x/y" 80 420 1500000000 0 "etag4" "id4" "" 7.

(** C6 as stated fails where two paths share a hash: the journal holds the
    record of ["x/y"] alone, [deleteFileRecord("a", true)] succeeds, and
    [getFileRecord("a/b")], of a path that starts with ["a/"], returns the
    record of ["x/y"], which the delete has left in place, not the empty
    record. *)
Lemma deleteFileRecord_recursive_leaves_colliding_row :
  QStr.startsWith "a/b" ("a" +:+ "/") = true /\
  getPHash length_hash "a/b" = getPHash length_hash "x/y" /\
  fst (deleteFileRecord length_hash allOk "a" true
         (snd (setFileRecord length_hash allOk fileRecord_x_y fresh))) = true /\
  fst (getFileRecord length_hash column_int allOk "a/b"
         (snd (deleteFileRecord length_hash allOk "a" true
                 (snd (setFileRecord length_hash allOk fileRecord_x_y fresh)))))
  = fileRecord_x_y.
Proof. repeat split; vm_compute; reflexivity. Qed.

Lemma getFileRecord_after_setFileRecord_by_hash_witness :
  _path (fst (getFileRecord length_hash column_int allOk "x/y"
                (snd (setFileRecord length_hash allOk fileRecord_a_b fresh)))) = "a/b".
Proof.
  apply (proj1 (getFileRecord_after_setFileRecord_by_hash length_hash column_int
                  allOk allOk fileRecord_a_b "x/y" fresh
                  (snd (setFileRecord length_hash allOk fileRecord_a_b fresh))
                  eq_refl eq_refl eq_refl)).
  reflexivity.
Defined.

Lemma deleteFileRecord_single_keeps_others_witness :
  fst (getFileRecord sample_hash column_int allOk "a"
         (snd (deleteFileRecord sample_hash allOk "a" false twoRecords))) = noFileRecord /\
  (getPHash sample_hash "a/b" <> getPHash sample_hash "a" ->
   fst (getFileRecord sample_hash column_int allOk "a/b"
          (snd (deleteFileRecord sample_hash allOk "a" false twoRecords)))
   = fst (getFileRecord sample_hash column_int allOk "a/b" twoRecords)).
Proof.
  apply (deleteFileRecord_single_keeps_others sample_hash column_int allOk allOk
           "a" "a/b" twoRecords
           (snd (deleteFileRecord sample_hash allOk "a" false twoRecords)));
    vm_compute; reflexivity.
Defined.

Lemma deleteFileRecord_recursive_keeps_outside_witness :
  fst (getFileRecord sample_hash column_int allOk "ab/c"
         (snd (deleteFileRecord sample_hash allOk "a" true
                 (snd (setFileRecord sample_hash allOk fileRecord_ab_c fresh)))))
  = fst (getFileRecord sample_hash column_int allOk "ab/c"
           (snd (setFileRecord sample_hash allOk fileRecord_ab_c fresh))).
Proof.
  apply (deleteFileRecord_recursive_keeps_outside sample_hash column_int allOk allOk
           "a" "ab/c" (snd (setFileRecord sample_hash allOk fileRecord_ab_c fresh))).
  - vm_compute. reflexivity.
  - reflexivity.
  - reflexivity.
  - reflexivity.
  - vm_compute. discriminate.
  - intros row Hrow. vm_compute in Hrow. injection Hrow as <-. reflexivity.
Defined.


Lemma avoidReadFromDb_invalidates_stored_directories_witness :
  let r := fst (getFileRecord sample_hash column_int allOk "a"
                  (avoidReadFromDbOnNextSync allOk ("a" +:+ "/" +:+ "b") twoRecords)) in
  _etag r = "_invalid_" /\ _path r = "a" /\ _fileId r = "id0".
Proof.
  apply (avoidReadFromDb_invalidates_stored_directories sample_hash column_int
           allOk allOk "a" "b" (rowOf "etag0" dir_a) twoRecords);
    vm_compute; reflexivity.
Defined.

Lemma avoidRenamesOnNextSync_forgets_ids_witness :
  let j' := avoidRenamesOnNextSync allOk "a" twoRecords in
  let r := fst (getFileRecord sample_hash column_int allOk "a/b" j') in
  _fileId r = "" /\ _inode r = to_quint64 (column_int 0) /\ _path r = "a/b" /\
  In "a" (_avoidReadFromDbOnNextSyncFilter j').
Proof.
  apply (avoidRenamesOnNextSync_forgets_ids sample_hash column_int allOk allOk
           "a" "a/b" (rowOf "etag1" fileRecord_a_b) twoRecords);
    try (vm_compute; reflexivity).
  right. reflexivity.
Defined.

Lemma not_connected_changes_nothing_witness :
  setFileRecord sample_hash cannotOpen fileRecord_a_b fresh = (false, fresh) /\
  deleteFileRecord sample_hash cannotOpen "a" true fresh = (false, fresh) /\
  getFileRecord sample_hash column_int cannotOpen "a" fresh = (noFileRecord, fresh) /\
  avoidReadFromDbOnNextSync cannotOpen "a" fresh = fresh /\
  avoidRenamesOnNextSync cannotOpen "a" fresh = fresh /\
  blacklistEntry column_int false cannotOpen "a" fresh = (noBlacklistRecord, fresh) /\
  wipeBlacklistEntry cannotOpen "a" fresh = fresh /\
  updateBlacklistEntry cannotOpen entry_f fresh = fresh /\
  postSyncCleanup cannotOpen ∅ fresh = (false, fresh) /\
  getFileRecordCount column_int cannotOpen fresh = (-1, fresh) /\
  deleteStaleBlacklistEntries cannotOpen ∅ fresh = (false, fresh) /\
  blackListEntryCount column_int cannotOpen fresh = (0, fresh) /\
  wipeBlacklist cannotOpen fresh = (-1, fresh).
Proof.
  apply (not_connected_changes_nothing sample_hash column_int false cannotOpen
           fileRecord_a_b "a" true entry_f ∅ fresh); reflexivity.
Defined.

Lemma checkConnect_opens_without_transaction_witness :
  fst (checkConnect allOk fresh) = true /\
  isOpen (_db (snd (checkConnect allOk fresh))) = true /\
  (isOpen (_db fresh) = false -> _transaction (snd (checkConnect allOk fresh)) = 0) /\
  (isOpen (_db fresh) = true -> snd (checkConnect allOk fresh) = fresh).
Proof.
  apply (checkConnect_opens_without_transaction allOk fresh);
    [left; reflexivity|reflexivity..].
Defined.

Lemma updateBlacklistEntry_then_blacklistEntry_witness :
  fst (blacklistEntry column_int false allOk "f"
         (updateBlacklistEntry allOk entry_f twoEntries)) =
    mkBlacklist (column_int 3) "HTTP 500" 1400000000 "e1" 1500000000 25 "f".
Proof.
  apply (updateBlacklistEntry_then_blacklistEntry column_int false allOk allOk
           entry_f twoEntries); try reflexivity.
  intros row _ Hmatch. apply bool_decide_eq_true in Hmatch. exact Hmatch.
Defined.

Lemma wipeBlacklistEntry_compares_case_witness :
  fst (blacklistEntry column_int true allOk "a.txt"
         (wipeBlacklistEntry allOk "a.txt"
            (updateBlacklistEntry allOk entry_upper twoEntries))) =
    mkBlacklist (column_int 2) "HTTP 500" 1400000000 "e1" 1500000000 25 "a.txt".
Proof.
  apply (wipeBlacklistEntry_compares_case column_int true allOk allOk allOk
           entry_upper "a.txt" twoEntries); try reflexivity.
  - discriminate.
  - intros row Hin. vm_compute in Hin.
    destruct Hin as [<-|[<-|[]]]; vm_compute; discriminate.
Defined.

Lemma wipeBlacklistEntry_then_blacklistEntry_witness :
  fst (blacklistEntry column_int false allOk "f"
         (wipeBlacklistEntry allOk "f" twoEntries)) = noBlacklistRecord.
Proof.
  apply (wipeBlacklistEntry_then_blacklistEntry column_int false allOk allOk "f"
           twoEntries); reflexivity.
Defined.

Lemma wipeBlacklist_empties_witness :
  fst (wipeBlacklist allOk twoEntries) = Z.of_nat (length (blacklist (_db twoEntries))) /\
  fst (blacklistEntry column_int false allOk "f" (snd (wipeBlacklist allOk twoEntries)))
    = noBlacklistRecord /\
  (exec_ok allOk = true ->
     fst (blackListEntryCount column_int allOk (snd (wipeBlacklist allOk twoEntries)))
     = column_int 0).
Proof.
  apply (wipeBlacklist_empties column_int false allOk allOk "f" twoEntries);
    reflexivity.
Defined.

Lemma deleteStaleBlacklistEntries_keeps_exactly_witness :
  blacklist (_db (snd (deleteStaleBlacklistEntries allOk {["g"]} twoEntries))) =
    List.filter (fun row => bool_decide (_file row ∈ ({["g"]} : gset string)))
                (blacklist (_db twoEntries)) /\
  metadata (_db (snd (deleteStaleBlacklistEntries allOk {["g"]} twoEntries)))
    = metadata (_db twoEntries).
Proof.
  apply (deleteStaleBlacklistEntries_keeps_exactly allOk {["g"]} twoEntries
           (snd (deleteStaleBlacklistEntries allOk {["g"]} twoEntries))).
  vm_compute. reflexivity.
Defined.

Lemma postSyncCleanup_keeps_exactly_witness :
  metadata (_db (snd (postSyncCleanup allOk {["a"]} twoRecords))) =
    filter (fun kv => path kv.2 ∈ ({["a"]} : gset string)) (metadata (_db twoRecords)) /\
  blacklist (_db (snd (postSyncCleanup allOk {["a"]} twoRecords)))
    = blacklist (_db twoRecords) /\
  isOpen (_db (snd (postSyncCleanup allOk {["a"]} twoRecords))) = true.
Proof.
  apply (postSyncCleanup_keeps_exactly allOk {["a"]} twoRecords
           (snd (postSyncCleanup allOk {["a"]} twoRecords))).
  vm_compute. reflexivity.
Defined.

End Journal.

(** ** The journal's database file and its stores of transfer information
    ([syncjournaldb.cpp], tables [downloadinfo] and [uploadinfo]) *)

Module Downloads.

(** [s.endsWith('/')]. *)
Fixpoint endsWithSlash (s : string) : bool :=
  match s with
  | EmptyString => false
  | String c EmptyString => Ascii.eqb c "/"
  | String _ s' => endsWithSlash s'
  end.

(** The constructor of [SyncJournalDb]: the name of the database file for
    the folder [path]. *)
Definition dbFile (path : string) : string :=
  (if negb (endsWithSlash path) then path +:+ "/" else path) +:+ ".csync_journal.db".

(** [SyncJournalDb::exists], given what [QFile::exists] answers. *)
Definition exists_ (fileExists : string -> bool) (path : string) : bool :=
  (negb (QStr.isEmpty (dbFile path)) && fileExists (dbFile path))%bool.

(** [SyncJournalDb::DownloadInfo]. *)
Record DownloadInfo := mkDownloadInfo {
  _tmpfile : string;
  _etag : string;
  _errorCount : Z;
  _valid : bool
}.

Definition set_valid (b : bool) (i : DownloadInfo) : DownloadInfo :=
  mkDownloadInfo (_tmpfile i) (_etag i) (_errorCount i) b.

(** [operator==] on [DownloadInfo]. *)
Definition eqb (lhs rhs : DownloadInfo) : bool :=
  ((_errorCount lhs =? _errorCount rhs)
   && bool_decide (_etag lhs = _etag rhs)
   && bool_decide (_tmpfile lhs = _tmpfile rhs)
   && Bool.eqb (_valid lhs) (_valid rhs))%bool.

(** A row of table [downloadinfo], [path] being its primary key. *)
Record DownloadRow := mkDownloadRow {
  path : string;
  tmpfile : string;
  etag : string;
  errorcount : Z
}.

(** The journal with the rows of [downloadinfo], in the order of their
    insertion. (The statements on this table are not added to the list of
    statements of the connection.) *)
Record Store := mkStore {
  journal : Journal.SyncJournalDb;
  downloadinfo : list DownloadRow
}.

(** [DELETE FROM ... WHERE path=?1] on a table whose rows have the path
    [key]. *)
Definition deleteRow {Row : Type} (key : Row -> string) (file : string)
    (table : list Row) : list Row :=
  List.filter (fun row => negb (bool_decide (key row = file))) table.

(** The static [deleteBatch]: one delete per entry, given whether the
    statement bound to an entry executes; at the first that fails it
    returns false and leaves the rest. *)
Fixpoint deleteBatch {Row : Type} (key : Row -> string) (delete_ok : string -> bool)
    (entries : list string) (table : list Row) : bool * list Row :=
  match entries with
  | [] => (true, table)
  | entry :: rest =>
      if negb (delete_ok entry) then (false, table)
      else deleteBatch key delete_ok rest (deleteRow key entry table)
  end.

Section Gateway.

(** Outside these sources: the gateway's [int] reader and the value the
    default constructor [DownloadInfo()] of the header gives. *)
Variable intValue : Z -> Z.
Variable defaultInfo : DownloadInfo.

(** The static [toDownloadInfo]. *)
Definition toDownloadInfo (row : DownloadRow) : DownloadInfo :=
  mkDownloadInfo (tmpfile row) (etag row) (intValue (errorcount row)) true.

(** [SyncJournalDb::getDownloadInfo]. *)
Definition getDownloadInfo (e : Journal.SqlEnv) (file : string) (s : Store)
  : DownloadInfo * Store :=
  let res := defaultInfo in
  let '(connected, j1) := Journal.checkConnect e (journal s) in
  let s1 := mkStore j1 (downloadinfo s) in
  if connected then
    if negb (Journal.exec_ok e) then (res, s1)
    else
      match find (fun row => bool_decide (path row = file)) (downloadinfo s) with
      | Some row => (toDownloadInfo row, s1)
      | None => (set_valid false res, s1)
      end
  else (res, s1).

(** [SyncJournalDb::setDownloadInfo]: [INSERT OR REPLACE] for a valid
    info, [DELETE] for one that is not. *)
Definition setDownloadInfo (e : Journal.SqlEnv) (file : string) (i : DownloadInfo)
    (s : Store) : Store :=
  let '(connected, j1) := Journal.checkConnect e (journal s) in
  let s1 := mkStore j1 (downloadinfo s) in
  if negb connected then s1
  else if _valid i then
    if negb (Journal.exec_ok e) then s1
    else mkStore j1 (deleteRow path file (downloadinfo s)
                     ++ [mkDownloadRow file (_tmpfile i) (_etag i) (_errorCount i)])
  else
    if negb (Journal.exec_ok e) then s1
    else mkStore j1 (deleteRow path file (downloadinfo s)).

(** [SyncJournalDb::getAndDeleteStaleDownloadInfos]. *)
Definition getAndDeleteStaleDownloadInfos (e : Journal.SqlEnv)
    (delete_ok : string -> bool) (keep : gset string) (s : Store)
  : list DownloadInfo * Store :=
  let empty_result : list DownloadInfo := [] in
  let '(connected, j1) := Journal.checkConnect e (journal s) in
  let s1 := mkStore j1 (downloadinfo s) in
  if negb connected then (empty_result, s1)
  else if negb (Journal.exec_ok e) then (empty_result, s1)
  else
    let stale :=
      List.filter (fun row => negb (bool_decide (path row ∈ keep))) (downloadinfo s) in
    let superfluousPaths := map path stale in
    let deleted_entries := map toDownloadInfo stale in
    let '(ok, table) := deleteBatch path delete_ok superfluousPaths (downloadinfo s) in
    if negb ok then (empty_result, mkStore j1 table)
    else (deleted_entries, mkStore j1 table).

(** [SyncJournalDb::downloadInfoCount]. *)
Definition downloadInfoCount (e : Journal.SqlEnv) (s : Store) : Z * Store :=
  let '(connected, j1) := Journal.checkConnect e (journal s) in
  if connected then
    if negb (Journal.exec_ok e)
    then (0, mkStore (snd (Journal.sqlFail e j1)) (downloadinfo s))
    else (intValue (Z.of_nat (length (downloadinfo s))), mkStore j1 (downloadinfo s))
  else (0, mkStore j1 (downloadinfo s)).

(** The paths of a table are pairwise different ([PRIMARY KEY(path)]). *)
Definition keyed {Row : Type} (key : Row -> string) (table : list Row) : Prop :=
  List.NoDup (map key table).

(** *** Facts *)

Lemma endsWithSlash_app (s : string) :
  endsWithSlash s = true -> exists dir, s = dir +:+ "/".
Proof.
  induction s as [|c s IH]; [discriminate|].
  destruct s as [|d s].
  - cbn [endsWithSlash]. intros H. apply Ascii.eqb_eq in H. subst c.
    exists "". reflexivity.
  - intros H. destruct (IH H) as [dir Hdir]. exists (String c dir).
    change (String c (String d s) = String c (dir +:+ "/")).
    rewrite <- Hdir. reflexivity.
Qed.

Lemma isEmpty_app_r (a b : string) : QStr.isEmpty b = false -> QStr.isEmpty (a +:+ b) = false.
Proof. destruct a; [intros H; exact H|reflexivity]. Qed.

(** X14. The name of the database file is never empty: it is the folder
    path, with a slash added unless the path ends with one, followed by
    [.csync_journal.db]; so the test [_dbFile.isEmpty()] of [checkConnect]
    never holds and [exists()] is what [QFile::exists] answers. *)
Theorem dbFile_never_empty (fileExists : string -> bool) (p : string) :
  QStr.isEmpty (dbFile p) = false /\
  (exists dir, dbFile p = dir +:+ "/.csync_journal.db" /\
               (p = dir \/ p = dir +:+ "/")) /\
  exists_ fileExists p = fileExists (dbFile p).
Proof.
  assert (He : QStr.isEmpty (dbFile p) = false).
  { unfold dbFile. apply isEmpty_app_r. reflexivity. }
  split; [exact He|]. split.
  - unfold dbFile. destruct (endsWithSlash p) eqn:Hs; cbn [negb].
    + destruct (endsWithSlash_app p Hs) as [dir ->]. exists dir.
      rewrite QStr.append_assoc. auto.
    + exists p. rewrite QStr.append_assoc. auto.
  - unfold exists_. rewrite He. reflexivity.
Qed.

Lemma find_deleteRow {Row : Type} (key : Row -> string) (file : string)
    (table : list Row) :
  find (fun row => bool_decide (key row = file)) (deleteRow key file table) = None.
Proof.
  unfold deleteRow. induction table as [|row l IH]; [reflexivity|]. cbn [List.filter].
  destruct (bool_decide_reflect (key row = file)) as [Heq|Hne]; cbn [negb]; [exact IH|].
  cbn [find]. rewrite (bool_decide_eq_false_2 _ Hne). exact IH.
Qed.

Lemma find_deleteRow_other {Row : Type} (key : Row -> string) (file other : string)
    (table : list Row) :
  other <> file ->
  find (fun row => bool_decide (key row = other)) (deleteRow key file table)
  = find (fun row => bool_decide (key row = other)) table.
Proof.
  intros Hne. unfold deleteRow.
  induction table as [|row l IH]; [reflexivity|]. cbn [List.filter find].
  destruct (bool_decide_reflect (key row = file)) as [Heq|Hnf]; cbn [negb].
  - rewrite bool_decide_eq_false_2 by congruence. exact IH.
  - cbn [find]. destruct (bool_decide (key row = other)); [reflexivity|exact IH].
Qed.

Lemma find_app_hit {A} (P : A -> bool) (l1 l2 : list A) x :
  find P l1 = Some x -> find P (l1 ++ l2) = Some x.
Proof.
  induction l1 as [|y l1 IH]; [discriminate|]. cbn [find app].
  destruct (P y); [intros H; exact H|exact IH].
Qed.

Lemma getDownloadInfo_connected e file s :
  fst (Journal.checkConnect e (journal s)) = true -> Journal.exec_ok e = true ->
  fst (getDownloadInfo e file s) =
    match find (fun row => bool_decide (path row = file)) (downloadinfo s) with
    | Some row => toDownloadInfo row
    | None => set_valid false defaultInfo
    end.
Proof.
  intros Hc He. unfold getDownloadInfo.
  destruct (Journal.checkConnect e (journal s)) as [connected j1]; simpl in Hc.
  subst connected. rewrite He. cbn [negb]. destruct (find _ _); reflexivity.
Qed.

Lemma setDownloadInfo_connected e file i s :
  fst (Journal.checkConnect e (journal s)) = true -> Journal.exec_ok e = true ->
  Journal.isOpen (Journal._db (journal (setDownloadInfo e file i s))) = true /\
  downloadinfo (setDownloadInfo e file i s) =
    if _valid i
    then deleteRow path file (downloadinfo s)
         ++ [mkDownloadRow file (_tmpfile i) (_etag i) (_errorCount i)]
    else deleteRow path file (downloadinfo s).
Proof.
  intros Hc He. unfold setDownloadInfo.
  pose proof (Journal.checkConnect_open e (journal s) Hc) as Ho.
  destruct (Journal.checkConnect e (journal s)) as [connected j1]; simpl in Hc, Ho.
  subst connected. rewrite He. cbn [negb]. destruct (_valid i); auto.
Qed.

(** X15. What [setDownloadInfo] stores for a file is what
    [getDownloadInfo] returns for it: after a valid info was set, the info
    with its error count read as an [int] and [_valid] true, equal to the
    one set by [operator==] when the count survives the reader; after an
    info that is not valid was set, an info with [_valid] false. The
    infos of the other files are as before. *)
Theorem setDownloadInfo_then_getDownloadInfo e e' file other i s :
  fst (Journal.checkConnect e (journal s)) = true -> Journal.exec_ok e = true ->
  Journal.open_ok e' = true -> Journal.exec_ok e' = true ->
  let s' := setDownloadInfo e file i s in
  (_valid i = true ->
     fst (getDownloadInfo e' file s') =
       mkDownloadInfo (_tmpfile i) (_etag i) (intValue (_errorCount i)) true /\
     (intValue (_errorCount i) = _errorCount i ->
        eqb (fst (getDownloadInfo e' file s')) i = true)) /\
  (_valid i = false -> _valid (fst (getDownloadInfo e' file s')) = false) /\
  (other <> file ->
     fst (getDownloadInfo e' other s') = fst (getDownloadInfo e' other s)).
Proof.
  intros Hc He Ho' He' s'. subst s'.
  destruct (setDownloadInfo_connected e file i s Hc He) as (Ho & Ht).
  pose proof (Journal.checkConnect_connects e' (journal s) Ho' He') as Hc0.
  pose proof (Journal.checkConnect_connects e'
                (journal (setDownloadInfo e file i s)) Ho' He') as Hc'.
  rewrite !(getDownloadInfo_connected e' _ _ Hc' He'), Ht.
  rewrite (getDownloadInfo_connected e' _ _ Hc0 He').
  split; [|split].
  - intros Hv. rewrite Hv, Journal.find_app_miss by apply find_deleteRow.
    cbn [find path]. rewrite bool_decide_eq_true_2 by reflexivity.
    split; [reflexivity|]. intros Hi. unfold toDownloadInfo, eqb.
    cbn [_errorCount _etag _tmpfile _valid tmpfile etag errorcount].
    rewrite Hi, Z.eqb_refl, !bool_decide_eq_true_2 by reflexivity.
    rewrite Hv. reflexivity.
  - intros Hv. rewrite Hv, find_deleteRow. reflexivity.
  - intros Hne. destruct (_valid i).
    + destruct (find (fun row => bool_decide (path row = other)) (downloadinfo s))
        as [row|] eqn:Hf.
      * rewrite (find_app_hit _ _ _ row); [reflexivity|].
        rewrite find_deleteRow_other by exact Hne. exact Hf.
      * rewrite Journal.find_app_miss
          by (rewrite find_deleteRow_other by exact Hne; exact Hf).
        cbn [find path]. rewrite bool_decide_eq_false_2 by congruence. reflexivity.
    + rewrite find_deleteRow_other by exact Hne. reflexivity.
Qed.

Lemma deleteRow_batch {Row : Type} (key : Row -> string) (entry : string)
    (entries : list string) (table : list Row) :
  List.filter (fun row => negb (bool_decide (key row ∈ entries)))
              (deleteRow key entry table)
  = List.filter (fun row => negb (bool_decide (key row ∈ entry :: entries))) table.
Proof.
  unfold deleteRow. rewrite Journal.filter_filter_and.
  apply Journal.filter_agree. intros row _.
  destruct (decide (key row = entry)) as [Heq|Hne].
  - rewrite (bool_decide_eq_true_2 _ Heq). cbn [negb andb].
    rewrite bool_decide_eq_true_2; [reflexivity|].
    apply elem_of_cons. left. exact Heq.
  - rewrite (bool_decide_eq_false_2 _ Hne). cbn [negb andb].
    destruct (decide (key row ∈ entries)) as [Hin|Hout].
    + rewrite !bool_decide_eq_true_2; [reflexivity| |exact Hin].
      apply elem_of_cons. right. exact Hin.
    + rewrite !bool_decide_eq_false_2; [reflexivity| |exact Hout].
      intros Hin. apply elem_of_cons in Hin as [?|?]; contradiction.
Qed.

Lemma filter_none_out {Row : Type} (key : Row -> string) (table : list Row) :
  List.filter (fun row => negb (bool_decide (key row ∈ @nil string))) table = table.
Proof.
  induction table as [|row l IH]; [reflexivity|]. cbn [List.filter].
  rewrite bool_decide_eq_false_2 by apply not_elem_of_nil. cbn [negb].
  rewrite IH. reflexivity.
Qed.

(** [deleteBatch] when every delete executes, and when one does not. *)
Lemma deleteBatch_all {Row : Type} (key : Row -> string) delete_ok entries
    (table : list Row) :
  (forall entry, In entry entries -> delete_ok entry = true) ->
  deleteBatch key delete_ok entries table =
    (true, List.filter (fun row => negb (bool_decide (key row ∈ entries))) table).
Proof.
  revert table. induction entries as [|entry rest IH]; intros table Hok.
  - cbn [deleteBatch]. rewrite filter_none_out. reflexivity.
  - cbn [deleteBatch]. rewrite (Hok entry (or_introl eq_refl)). cbn [negb].
    rewrite IH by (intros x Hx; apply Hok; right; exact Hx).
    rewrite deleteRow_batch. reflexivity.
Qed.

Lemma deleteBatch_stops {Row : Type} (key : Row -> string) delete_ok before failing
    after (table : list Row) :
  (forall entry, In entry before -> delete_ok entry = true) ->
  delete_ok failing = false ->
  deleteBatch key delete_ok (before ++ failing :: after) table =
    (false, List.filter (fun row => negb (bool_decide (key row ∈ before))) table).
Proof.
  revert table. induction before as [|entry rest IH]; intros table Hok Hfail.
  - cbn [app deleteBatch]. rewrite Hfail. cbn [negb].
    rewrite filter_none_out. reflexivity.
  - cbn [app deleteBatch]. rewrite (Hok entry (or_introl eq_refl)). cbn [negb].
    rewrite IH by (try (intros x Hx; apply Hok; right; exact Hx); exact Hfail).
    rewrite deleteRow_batch. reflexivity.
Qed.

Lemma stale_kept {Row : Type} (key : Row -> string) (keep : gset string)
    (table : list Row) :
  List.filter
    (fun row =>
       negb (bool_decide
               (key row ∈ map key
                  (List.filter (fun row => negb (bool_decide (key row ∈ keep))) table))))
    table
  = List.filter (fun row => bool_decide (key row ∈ keep)) table.
Proof.
  apply Journal.filter_agree. intros row Hin.
  destruct (decide (key row ∈ keep)) as [Hk|Hk].
  - rewrite (bool_decide_eq_true_2 _ Hk).
    rewrite bool_decide_eq_false_2; [reflexivity|].
    intros H. apply list_elem_of_In, in_map_iff in H as (row' & Hkey & H).
    apply filter_In in H as [_ H]. rewrite Hkey in H.
    rewrite (bool_decide_eq_true_2 _ Hk) in H. discriminate.
  - rewrite (bool_decide_eq_false_2 _ Hk).
    rewrite bool_decide_eq_true_2; [reflexivity|].
    apply list_elem_of_In, in_map, filter_In. split; [exact Hin|].
    rewrite (bool_decide_eq_false_2 _ Hk). reflexivity.
Qed.

(** X16. [getAndDeleteStaleDownloadInfos(keep)], when the journal connects
    and every delete executes, returns the infos of the entries whose path
    is not in [keep], in the order of the table, and leaves in the table
    the entries whose path is in [keep], as they were. *)
Theorem getAndDeleteStaleDownloadInfos_splits_table e delete_ok keep s :
  fst (Journal.checkConnect e (journal s)) = true -> Journal.exec_ok e = true ->
  (forall row, In row (downloadinfo s) -> path row ∉ keep ->
     delete_ok (path row) = true) ->
  let r := getAndDeleteStaleDownloadInfos e delete_ok keep s in
  fst r = map toDownloadInfo
            (List.filter (fun row => negb (bool_decide (path row ∈ keep)))
                         (downloadinfo s)) /\
  downloadinfo (snd r) =
    List.filter (fun row => bool_decide (path row ∈ keep)) (downloadinfo s).
Proof.
  intros Hc He Hok r. subst r. unfold getAndDeleteStaleDownloadInfos.
  destruct (Journal.checkConnect e (journal s)) as [connected j1]; simpl in Hc.
  subst connected. rewrite He. cbn [negb].
  rewrite deleteBatch_all.
  - cbn [negb fst snd downloadinfo]. split; [reflexivity|]. apply stale_kept.
  - intros entry Hin. apply in_map_iff in Hin as (row & <- & Hin).
    apply filter_In in Hin as [Hin Hk]. apply Hok; [exact Hin|].
    apply negb_true_iff, bool_decide_eq_false in Hk. exact Hk.
Qed.

End Gateway.

(** *** Closed instances *)

(** An info with nothing in it stands for [DownloadInfo()] in the
    instances below. *)
Definition noInfo : DownloadInfo := mkDownloadInfo "" "" 0 false.

Definition info_f : DownloadInfo := mkDownloadInfo ".f.~1a2b" "etag-f" 2 true.
Definition info_g : DownloadInfo := mkDownloadInfo ".g.~3c4d" "etag-g" 0 true.

Definition emptyStore : Store := mkStore Journal.fresh [].

Definition twoDownloads : Store :=
  setDownloadInfo Journal.allOk "g" info_g
    (setDownloadInfo Journal.allOk "f" info_f emptyStore).

Lemma setDownloadInfo_then_getDownloadInfo_witness :
  let s' := setDownloadInfo Journal.allOk "f" info_f twoDownloads in
  (_valid info_f = true ->
     fst (getDownloadInfo Journal.column_int noInfo Journal.allOk "f" s') =
       mkDownloadInfo (_tmpfile info_f) (_etag info_f)
                      (Journal.column_int (_errorCount info_f)) true /\
     (Journal.column_int (_errorCount info_f) = _errorCount info_f ->
        eqb (fst (getDownloadInfo Journal.column_int noInfo Journal.allOk "f" s')) info_f
        = true)) /\
  (_valid info_f = false ->
     _valid (fst (getDownloadInfo Journal.column_int noInfo Journal.allOk "f" s')) = false) /\
  ("g" <> "f" ->
     fst (getDownloadInfo Journal.column_int noInfo Journal.allOk "g" s')
     = fst (getDownloadInfo Journal.column_int noInfo Journal.allOk "g" twoDownloads)).
Proof.
  apply (setDownloadInfo_then_getDownloadInfo Journal.column_int noInfo
           Journal.allOk Journal.allOk "f" "g" info_f twoDownloads); reflexivity.
Defined.

Lemma getAndDeleteStaleDownloadInfos_splits_table_witness :
  let r := getAndDeleteStaleDownloadInfos Journal.column_int Journal.allOk
             (fun _ => true) {["g"]} twoDownloads in
  fst r = map (toDownloadInfo Journal.column_int)
            (List.filter (fun row => negb (bool_decide (path row ∈ ({["g"]} : gset string))))
                         (downloadinfo twoDownloads)) /\
  downloadinfo (snd r) =
    List.filter (fun row => bool_decide (path row ∈ ({["g"]} : gset string)))
                (downloadinfo twoDownloads).
Proof.
  apply (getAndDeleteStaleDownloadInfos_splits_table Journal.column_int Journal.allOk
           (fun _ => true) {["g"]} twoDownloads); reflexivity.
Defined.

End Downloads.

Module Uploads.

(** [SyncJournalDb::UploadInfo]; [_modtime] as seconds since the epoch. *)
Record UploadInfo := mkUploadInfo {
  _chunk : Z;
  _transferid : Z;
  _size : Z;
  _modtime : Z;
  _errorCount : Z;
  _valid : bool
}.

(** [operator==] on [UploadInfo]. *)
Definition eqb (lhs rhs : UploadInfo) : bool :=
  ((_errorCount lhs =? _errorCount rhs)
   && (_chunk lhs =? _chunk rhs)
   && (_modtime lhs =? _modtime rhs)
   && Bool.eqb (_valid lhs) (_valid rhs)
   && (_size lhs =? _size rhs)
   && (_transferid lhs =? _transferid rhs))%bool.

(** A row of table [uploadinfo], [path] being its primary key. *)
Record UploadRow := mkUploadRow {
  path : string;
  chunk : Z;
  transferid : Z;
  errorcount : Z;
  size : Z;
  modtime : Z
}.

Record Store := mkStore {
  journal : Journal.SyncJournalDb;
  uploadinfo : list UploadRow
}.

Section Gateway.

(** Outside these sources: the gateway's [int] reader and the value the
    default constructor [UploadInfo()] of the header gives. *)
Variable intValue : Z -> Z.
Variable defaultInfo : UploadInfo.

(** [SyncJournalDb::getUploadInfo]. *)
Definition getUploadInfo (e : Journal.SqlEnv) (file : string) (s : Store)
  : UploadInfo * Store :=
  let res := defaultInfo in
  let '(connected, j1) := Journal.checkConnect e (journal s) in
  let s1 := mkStore j1 (uploadinfo s) in
  if connected then
    if negb (Journal.exec_ok e) then (res, s1)
    else
      match find (fun row => bool_decide (path row = file)) (uploadinfo s) with
      | Some row =>
          (mkUploadInfo (intValue (chunk row)) (intValue (transferid row))
                        (Journal.int64Value (size row))
                        (Journal.int64Value (modtime row))
                        (intValue (errorcount row)) true, s1)
      | None => (res, s1)
      end
  else (res, s1).

(** [SyncJournalDb::setUploadInfo]. *)
Definition setUploadInfo (e : Journal.SqlEnv) (file : string) (i : UploadInfo)
    (s : Store) : Store :=
  let '(connected, j1) := Journal.checkConnect e (journal s) in
  let s1 := mkStore j1 (uploadinfo s) in
  if negb connected then s1
  else if _valid i then
    if negb (Journal.exec_ok e) then s1
    else mkStore j1 (Downloads.deleteRow path file (uploadinfo s)
                     ++ [mkUploadRow file (_chunk i) (_transferid i) (_errorCount i)
                                     (_size i) (_modtime i)])
  else
    if negb (Journal.exec_ok e) then s1
    else mkStore j1 (Downloads.deleteRow path file (uploadinfo s)).

(** [SyncJournalDb::deleteStaleUploadInfos]. *)
Definition deleteStaleUploadInfos (e : Journal.SqlEnv) (delete_ok : string -> bool)
    (keep : gset string) (s : Store) : bool * Store :=
  let '(connected, j1) := Journal.checkConnect e (journal s) in
  let s1 := mkStore j1 (uploadinfo s) in
  if negb connected then (false, s1)
  else if negb (Journal.exec_ok e) then (false, s1)
  else
    let superfluousPaths :=
      List.filter (fun file => negb (bool_decide (file ∈ keep)))
                  (map path (uploadinfo s)) in
    let '(ok, table) :=
      Downloads.deleteBatch path delete_ok superfluousPaths (uploadinfo s) in
    (ok, mkStore j1 table).

(** *** Facts *)

Lemma getUploadInfo_connected e file s :
  fst (Journal.checkConnect e (journal s)) = true -> Journal.exec_ok e = true ->
  fst (getUploadInfo e file s) =
    match find (fun row => bool_decide (path row = file)) (uploadinfo s) with
    | Some row =>
        mkUploadInfo (intValue (chunk row)) (intValue (transferid row))
                     (size row) (modtime row) (intValue (errorcount row)) true
    | None => defaultInfo
    end.
Proof.
  intros Hc He. unfold getUploadInfo.
  destruct (Journal.checkConnect e (journal s)) as [connected j1]; simpl in Hc.
  subst connected. rewrite He. cbn [negb]. destruct (find _ _); reflexivity.
Qed.

Lemma setUploadInfo_connected e file i s :
  fst (Journal.checkConnect e (journal s)) = true -> Journal.exec_ok e = true ->
  uploadinfo (setUploadInfo e file i s) =
    if _valid i
    then Downloads.deleteRow path file (uploadinfo s)
         ++ [mkUploadRow file (_chunk i) (_transferid i) (_errorCount i)
                         (_size i) (_modtime i)]
    else Downloads.deleteRow path file (uploadinfo s).
Proof.
  intros Hc He. unfold setUploadInfo.
  destruct (Journal.checkConnect e (journal s)) as [connected j1]; simpl in Hc.
  subst connected. rewrite He. cbn [negb]. destruct (_valid i); auto.
Qed.

(** X17. After [setUploadInfo(file, i)] with a valid [i],
    [getUploadInfo(file)] returns [i] with its chunk number, transfer id
    and error count read as [int]s (size and modification time are read
    as 64-bit numbers), so the info set when the three survive the
    reader; after [setUploadInfo] with an info that is not valid it
    returns the default-constructed info. *)
Theorem setUploadInfo_then_getUploadInfo e e' file i s :
  fst (Journal.checkConnect e (journal s)) = true -> Journal.exec_ok e = true ->
  Journal.open_ok e' = true -> Journal.exec_ok e' = true ->
  let s' := setUploadInfo e file i s in
  (_valid i = true ->
     fst (getUploadInfo e' file s') =
       mkUploadInfo (intValue (_chunk i)) (intValue (_transferid i))
                    (_size i) (_modtime i) (intValue (_errorCount i)) true /\
     (intValue (_chunk i) = _chunk i -> intValue (_transferid i) = _transferid i ->
      intValue (_errorCount i) = _errorCount i ->
      fst (getUploadInfo e' file s') = i)) /\
  (_valid i = false -> fst (getUploadInfo e' file s') = defaultInfo).
Proof.
  intros Hc He Ho' He' s'. subst s'.
  pose proof (Journal.checkConnect_connects e'
                (journal (setUploadInfo e file i s)) Ho' He') as Hc'.
  rewrite !(getUploadInfo_connected e' _ _ Hc' He').
  rewrite (setUploadInfo_connected e file i s Hc He).
  split.
  - intros Hv. rewrite Hv, Journal.find_app_miss by apply Downloads.find_deleteRow.
    cbn [find path]. rewrite bool_decide_eq_true_2 by reflexivity.
    cbn [chunk transferid size modtime errorcount].
    split; [reflexivity|]. intros -> -> ->. destruct i. cbn in *. subst. reflexivity.
  - intros Hv. rewrite Hv, Downloads.find_deleteRow. reflexivity.
Qed.

Lemma filter_map_comm {A B} (P : B -> bool) (f : A -> B) (l : list A) :
  List.filter P (map f l) = map f (List.filter (fun x => P (f x)) l).
Proof.
  induction l as [|x l IH]; [reflexivity|]. cbn [map List.filter].
  destruct (P (f x)); cbn [map]; rewrite IH; reflexivity.
Qed.

(** X18. [deleteStaleUploadInfos(keep)] on a journal that connects stops
    at the first delete that fails: it returns false, the stale entries
    before that one are gone and the others are still there. When every
    delete executes it returns true and the table holds the entries whose
    path is in [keep]. *)
Theorem deleteStaleUploadInfos_stops_at_failure e delete_ok keep s :
  fst (Journal.checkConnect e (journal s)) = true -> Journal.exec_ok e = true ->
  let stale :=
    List.filter (fun file => negb (bool_decide (file ∈ keep)))
                (map path (uploadinfo s)) in
  let r := deleteStaleUploadInfos e delete_ok keep s in
  (forall before failing after,
     stale = before ++ failing :: after ->
     (forall entry, In entry before -> delete_ok entry = true) ->
     delete_ok failing = false ->
     fst r = false /\
     uploadinfo (snd r) =
       List.filter (fun row => negb (bool_decide (path row ∈ before))) (uploadinfo s)) /\
  ((forall entry, In entry stale -> delete_ok entry = true) ->
     fst r = true /\
     uploadinfo (snd r) =
       List.filter (fun row => bool_decide (path row ∈ keep)) (uploadinfo s)).
Proof.
  intros Hc He stale r. subst r. unfold deleteStaleUploadInfos.
  destruct (Journal.checkConnect e (journal s)) as [connected j1]; simpl in Hc.
  subst connected. rewrite He. cbn [negb]. fold stale. split.
  - intros before failing after Hstale Hok Hfail.
    rewrite Hstale, (Downloads.deleteBatch_stops path delete_ok before failing after _ Hok Hfail).
    split; reflexivity.
  - intros Hok. rewrite (Downloads.deleteBatch_all path delete_ok stale _ Hok).
    cbn [fst snd uploadinfo]. split; [reflexivity|].
    subst stale. rewrite filter_map_comm. apply Downloads.stale_kept.
Qed.

End Gateway.

(** [operator==] on [UploadInfo] and on [DownloadInfo] compares every
    field: it holds exactly for two infos that are the same. *)
Theorem operator_eq_compares_every_field :
  (forall a b : UploadInfo, eqb a b = true <-> a = b) /\
  (forall a b : Downloads.DownloadInfo, Downloads.eqb a b = true <-> a = b).
Proof.
  split.
  - intros [c1 t1 s1 m1 n1 v1] [c2 t2 s2 m2 n2 v2]. unfold eqb.
    cbn [_chunk _transferid _size _modtime _errorCount _valid].
    rewrite !andb_true_iff, !Z.eqb_eq, Bool.eqb_true_iff. split.
    + intros (((((-> & ->) & ->) & ->) & ->) & ->). reflexivity.
    + intros [= -> -> -> -> -> ->]. repeat split.
  - intros [t1 g1 n1 v1] [t2 g2 n2 v2]. unfold Downloads.eqb.
    cbn [Downloads._tmpfile Downloads._etag Downloads._errorCount Downloads._valid].
    rewrite !andb_true_iff, Z.eqb_eq, !bool_decide_eq_true, Bool.eqb_true_iff. split.
    + intros (((-> & ->) & ->) & ->). reflexivity.
    + intros [= -> -> -> ->]. repeat split.
Qed.

(** An info with nothing in it stands for [UploadInfo()] in the instances
    below. *)
Definition noInfo : UploadInfo := mkUploadInfo 0 0 0 0 0 false.

Definition info_f : UploadInfo := mkUploadInfo 3 123456 30000000 1500000000 1 true.
Definition info_g : UploadInfo := mkUploadInfo 0 654321 10 1500000001 0 true.
Definition info_h : UploadInfo := mkUploadInfo 1 111111 20 1500000002 0 true.

Definition emptyStore : Store := mkStore Journal.fresh [].

Definition threeUploads : Store :=
  setUploadInfo Journal.allOk "h" info_h
    (setUploadInfo Journal.allOk "g" info_g
       (setUploadInfo Journal.allOk "f" info_f emptyStore)).

Lemma setUploadInfo_then_getUploadInfo_witness :
  let s' := setUploadInfo Journal.allOk "f" info_f threeUploads in
  (_valid info_f = true ->
     fst (getUploadInfo Journal.column_int noInfo Journal.allOk "f" s') =
       mkUploadInfo (Journal.column_int (_chunk info_f))
                    (Journal.column_int (_transferid info_f))
                    (_size info_f) (_modtime info_f)
                    (Journal.column_int (_errorCount info_f)) true /\
     (Journal.column_int (_chunk info_f) = _chunk info_f ->
      Journal.column_int (_transferid info_f) = _transferid info_f ->
      Journal.column_int (_errorCount info_f) = _errorCount info_f ->
      fst (getUploadInfo Journal.column_int noInfo Journal.allOk "f" s') = info_f)) /\
  (_valid info_f = false ->
     fst (getUploadInfo Journal.column_int noInfo Journal.allOk "f" s') = noInfo).
Proof.
  apply (setUploadInfo_then_getUploadInfo Journal.column_int noInfo
           Journal.allOk Journal.allOk "f" info_f threeUploads); reflexivity.
Defined.

(** The delete for ["g"] fails. *)
Definition failsOn_g (entry : string) : bool := negb (bool_decide (entry = "g")).

Lemma deleteStaleUploadInfos_stops_at_failure_witness :
  fst (deleteStaleUploadInfos Journal.allOk failsOn_g ∅ threeUploads) = false /\
  map path (uploadinfo (snd (deleteStaleUploadInfos Journal.allOk failsOn_g ∅
                               threeUploads))) = ["g"; "h"].
Proof.
  destruct (proj1 (deleteStaleUploadInfos_stops_at_failure Journal.allOk failsOn_g ∅
                     threeUploads eq_refl eq_refl)
              ["f"] "g" ["h"]) as [Hr Ht].
  - reflexivity.
  - intros entry [<-|[]]. reflexivity.
  - reflexivity.
  - split; [exact Hr|]. rewrite Ht. reflexivity.
Defined.

End Uploads.



(** ** The propagator ([owncloudpropagator.cpp]) *)

Module Propagator.

(** The instruction vocabulary the propagator switches on. *)
Inductive csync_instructions_e :=
| CSYNC_INSTRUCTION_NONE
| CSYNC_INSTRUCTION_REMOVE
| CSYNC_INSTRUCTION_NEW
| CSYNC_INSTRUCTION_RENAME
| CSYNC_INSTRUCTION_SYNC
| CSYNC_INSTRUCTION_CONFLICT
| CSYNC_INSTRUCTION_IGNORE
| CSYNC_INSTRUCTION_ERROR
| CSYNC_INSTRUCTION_TYPE_CHANGE
| CSYNC_INSTRUCTION_UPDATE_METADATA.

Inductive Direction := None_ | Up | Down.

(** [SyncFileItem::Status]. *)
Inductive Status :=
| NoStatus | FatalError | NormalError | SoftError
| Success | Conflict | FileIgnored | Restoration.

#[global] Instance csync_instructions_eq_dec : EqDecision csync_instructions_e.
Proof. solve_decision. Defined.
#[global] Instance Direction_eq_dec : EqDecision Direction.
Proof. solve_decision. Defined.
#[global] Instance Status_eq_dec : EqDecision Status.
Proof. solve_decision. Defined.

(** [SyncFileItem], the fields the propagator core reads and writes. *)
Record SyncFileItem := mkItem {
  _file : string;
  _originalFile : string;
  _renameTarget : string;
  _instruction : csync_instructions_e;
  _direction : Direction;
  _isDirectory : bool;
  _isRestoration : bool;
  _hasBlacklistEntry : bool;
  _errorMayBeBlacklisted : bool;
  _status : Status;
  _errorString : string;
  _modtime : Z;
  _etag : string;
  _size : Z;
  _fileId : string
}.

Definition set_instruction (i : csync_instructions_e) (it : SyncFileItem) : SyncFileItem :=
  mkItem (_file it) (_originalFile it) (_renameTarget it) i (_direction it)
         (_isDirectory it) (_isRestoration it) (_hasBlacklistEntry it)
         (_errorMayBeBlacklisted it) (_status it) (_errorString it) (_modtime it)
         (_etag it) (_size it) (_fileId it).

Definition set_errorString (s : string) (it : SyncFileItem) : SyncFileItem :=
  mkItem (_file it) (_originalFile it) (_renameTarget it) (_instruction it)
         (_direction it) (_isDirectory it) (_isRestoration it) (_hasBlacklistEntry it)
         (_errorMayBeBlacklisted it) (_status it) s (_modtime it)
         (_etag it) (_size it) (_fileId it).

Definition set_status (s : Status) (it : SyncFileItem) : SyncFileItem :=
  mkItem (_file it) (_originalFile it) (_renameTarget it) (_instruction it)
         (_direction it) (_isDirectory it) (_isRestoration it) (_hasBlacklistEntry it)
         (_errorMayBeBlacklisted it) s (_errorString it) (_modtime it)
         (_etag it) (_size it) (_fileId it).

(** The concrete leaf jobs [createJob] builds. *)
Inductive LeafKind :=
| PropagateLocalRemove | PropagateRemoteDelete
| PropagateLocalMkdir | PropagateRemoteMkdir
| PropagateDownloadFile | PropagateUploadFileNG | PropagateUploadFileV1
| PropagateRemoteMove | PropagateLocalRename
| PropagateIgnoreJob.

(** A job pointer: a leaf job for the item at an index of the item vector
    (with the [deleteExisting] flag [createJob] sets), or the
    [PropagateDirectory] at an index of the arena of directory jobs. *)
Inductive Job :=
| JLeaf (kind : LeafKind) (item : nat) (deleteExisting : bool)
| JDir (id : nat).

#[global] Instance LeafKind_eq_dec : EqDecision LeafKind.
Proof. solve_decision. Defined.
#[global] Instance Job_eq_dec : EqDecision Job.
Proof. solve_decision. Defined.

Inductive JobState := NotYetStarted | Running | Finished.

#[global] Instance JobState_eq_dec : EqDecision JobState.
Proof. solve_decision. Defined.

(** [PropagatorCompositeJob]. *)
Record PropagatorCompositeJob := mkComposite {
  _state : JobState;
  _jobsToDo : list Job;
  _tasksToDo : list nat;
  _runningJobs : list Job;
  _hasError : Status
}.

Definition newComposite : PropagatorCompositeJob :=
  mkComposite NotYetStarted [] [] [] NoStatus.

(** [PropagateDirectory]: its item ([None] for the root job, which owns a
    default-constructed item of instruction NONE that is not in the item
    vector), its first job, its composite of sub jobs, and the affected
    count. *)
Record PropagateDirectory := mkDirectory {
  dir_item : option nat;
  _firstJob : option Job;
  _subJobs : PropagatorCompositeJob;
  _affectedCount : nat
}.

Definition appendJob (job : Job) (d : PropagateDirectory) : PropagateDirectory :=
  let c := _subJobs d in
  mkDirectory (dir_item d) (_firstJob d)
    (mkComposite (_state c) (_jobsToDo c ++ [job]) (_tasksToDo c) (_runningJobs c)
                 (_hasError c))
    (_affectedCount d).

Definition appendTask (item : nat) (d : PropagateDirectory) : PropagateDirectory :=
  let c := _subJobs d in
  mkDirectory (dir_item d) (_firstJob d)
    (mkComposite (_state c) (_jobsToDo c) (_tasksToDo c ++ [item]) (_runningJobs c)
                 (_hasError c))
    (_affectedCount d).

Definition increaseAffectedCount (d : PropagateDirectory) : PropagateDirectory :=
  mkDirectory (dir_item d) (_firstJob d) (_subJobs d) (S (_affectedCount d)).

Section Core.

(** Outside these sources: [SyncFileItem::destination], the chunk size and
    the account's chunking capability that [createJob] asks for. *)
Variable destination : SyncFileItem -> string.
Variable chunkSize : Z.
Variable chunkingNg : bool.

(** [OwncloudPropagator::createJob], for the item at index [i]. *)
Definition createJob (i : nat) (item : SyncFileItem) : option Job :=
  let deleteExisting := bool_decide (_instruction item = CSYNC_INSTRUCTION_TYPE_CHANGE) in
  let transfer :=
    if negb (bool_decide (_direction item = Up))
    then Some (JLeaf PropagateDownloadFile i deleteExisting)
    else if ((chunkSize <? _size item) && chunkingNg)%bool
         then Some (JLeaf PropagateUploadFileNG i deleteExisting)
         else Some (JLeaf PropagateUploadFileV1 i deleteExisting) in
  match _instruction item with
  | CSYNC_INSTRUCTION_REMOVE =>
      if bool_decide (_direction item = Down)
      then Some (JLeaf PropagateLocalRemove i false)
      else Some (JLeaf PropagateRemoteDelete i false)
  | CSYNC_INSTRUCTION_NEW
  | CSYNC_INSTRUCTION_TYPE_CHANGE =>
      if _isDirectory item then
        if bool_decide (_direction item = Down)
        then Some (JLeaf PropagateLocalMkdir i deleteExisting)
        else Some (JLeaf PropagateRemoteMkdir i deleteExisting)
      else transfer
  | CSYNC_INSTRUCTION_SYNC
  | CSYNC_INSTRUCTION_CONFLICT => transfer
  | CSYNC_INSTRUCTION_RENAME =>
      if bool_decide (_direction item = Up)
      then Some (JLeaf PropagateRemoteMove i false)
      else Some (JLeaf PropagateLocalRename i false)
  | CSYNC_INSTRUCTION_IGNORE
  | CSYNC_INSTRUCTION_ERROR => Some (JLeaf PropagateIgnoreJob i false)
  | _ => None
  end.

(** The state of [OwncloudPropagator::start] while it loops over the
    items: the items themselves (shared, and written to by the loop), the
    directory jobs allocated so far (index 0 is [_rootJob]), the stack
    [directories] (top first), [directoriesToRemove], [removedDirectory]
    and [_anotherSyncNeeded]. *)
Record Builder := mkBuilder {
  items : list SyncFileItem;
  arena : list PropagateDirectory;
  directories : list (string * nat);
  directoriesToRemove : list Job;
  removedDirectory : string;
  _anotherSyncNeeded : bool
}.

Definition rootDirectory : PropagateDirectory :=
  mkDirectory None None newComposite 0.

Definition initBuilder (v : list SyncFileItem) : Builder :=
  mkBuilder v [rootDirectory] [("", 0%nat)] [] "" false.

(** [!removedDirectory.isEmpty() && item->_file.startsWith(removedDirectory)]. *)
Definition insideRemovedDirectory (removed : string) (item : SyncFileItem) : bool :=
  (negb (QStr.isEmpty removed) && QStr.startsWith (_file item) removed)%bool.

(** [qobject_cast<PropagateDirectory*>(directoriesToRemove.first())]. *)
Definition delDirJob (toRemove : list Job) : option nat :=
  match toRemove with
  | JDir id :: _ => Some id
  | _ => None
  end.

(** [while (!item->destination().startsWith(directories.top().first)) directories.pop();] *)
Fixpoint popDirectories (dest : string) (stack : list (string * nat))
  : list (string * nat) :=
  match stack with
  | [] => []
  | (name, job) :: rest =>
      if QStr.startsWith dest name then stack else popDirectories dest rest
  end.

Definition top (stack : list (string * nat)) : nat :=
  match stack with
  | [] => 0%nat
  | (_, job) :: _ => job
  end.

(** Lines 365-370: every item whose destination lies under [dest + "/"]
    gets instruction NONE, and another sync is asked for if there is one. *)
Definition skipUploadsBelow (dest : string) (v : list SyncFileItem) : list SyncFileItem :=
  map (fun item2 =>
         if QStr.startsWith (destination item2) (dest +:+ "/")
         then set_instruction CSYNC_INSTRUCTION_NONE item2 else item2) v.

Definition anyBelow (dest : string) (v : list SyncFileItem) : bool :=
  existsb (fun item2 => QStr.startsWith (destination item2) (dest +:+ "/")) v.

(** Lines 383-386: the directories on the stack lose a pending
    UPDATE_METADATA. The root's own item has instruction NONE. *)
Definition dropMetadataUpdate (k : nat) (v : list SyncFileItem) : list SyncFileItem :=
  alter (fun it =>
           if bool_decide (_instruction it = CSYNC_INSTRUCTION_UPDATE_METADATA)
           then set_instruction CSYNC_INSTRUCTION_NONE it else it) k v.

Definition dropMetadataUpdates (ar : list PropagateDirectory)
    (stack : list (string * nat)) (v : list SyncFileItem) : list SyncFileItem :=
  fold_left (fun acc entry =>
               match ar !! entry.2 with
               | Some d =>
                   match dir_item d with
                   | Some k => dropMetadataUpdate k acc
                   | None => acc
                   end
               | None => acc
               end) stack v.

(** [delDirJob->increaseAffectedCount()], when the head of
    [directoriesToRemove] is a directory job. *)
Definition increaseAffected (b : Builder) : Builder :=
  match delDirJob (directoriesToRemove b) with
  | Some id =>
      mkBuilder (items b) (alter increaseAffectedCount id (arena b))
                (directories b) (directoriesToRemove b) (removedDirectory b)
                (_anotherSyncNeeded b)
  | None => b
  end.

(** Lines 351-400: the item gets its place in the tree. *)
Definition placeItem (i : nat) (item : SyncFileItem) (b : Builder) : Builder :=
  let stack := popDirectories (destination item) (directories b) in
  if _isDirectory item then
    let id := length (arena b) in
    let dir := mkDirectory (Some i) (createJob i item) newComposite 0 in
    let typeChangeUp :=
      (bool_decide (_instruction item = CSYNC_INSTRUCTION_TYPE_CHANGE)
       && bool_decide (_direction item = Up))%bool in
    let items1 :=
      if typeChangeUp then skipUploadsBelow (destination item) (items b)
      else items b in
    let another :=
      if typeChangeUp
      then (_anotherSyncNeeded b || anyBelow (destination item) (items b))%bool
      else _anotherSyncNeeded b in
    if bool_decide (_instruction item = CSYNC_INSTRUCTION_REMOVE) then
      mkBuilder (dropMetadataUpdates (arena b) stack items1)
                (arena b ++ [dir])
                ((destination item +:+ "/", id) :: stack)
                (JDir id :: directoriesToRemove b)
                (_file item +:+ "/")
                another
    else
      mkBuilder items1
                (alter (appendJob (JDir id)) (top stack) (arena b) ++ [dir])
                ((destination item +:+ "/", id) :: stack)
                (directoriesToRemove b)
                (removedDirectory b)
                another
  else
    if bool_decide (_instruction item = CSYNC_INSTRUCTION_TYPE_CHANGE) then
      match createJob i item with
      | Some job =>
          mkBuilder (items b) (arena b) stack (job :: directoriesToRemove b)
                    (_file item +:+ "/") (_anotherSyncNeeded b)
      | None =>
          mkBuilder (items b) (arena b) stack (directoriesToRemove b)
                    (_file item +:+ "/") (_anotherSyncNeeded b)
      end
    else
      mkBuilder (items b) (alter (appendTask i) (top stack) (arena b)) stack
                (directoriesToRemove b) (removedDirectory b)
                (_anotherSyncNeeded b).

(** One turn of the [foreach] of [start], for the item at index [i]. *)
Definition startItem (i : nat) (b : Builder) : Builder :=
  match items b !! i with
  | None => b
  | Some item =>
      if insideRemovedDirectory (removedDirectory b) item then
        if bool_decide (_instruction item = CSYNC_INSTRUCTION_REMOVE) then
          increaseAffected b
        else if (_isDirectory item &&
                 (bool_decide (_instruction item = CSYNC_INSTRUCTION_NEW)
                  || bool_decide (_instruction item = CSYNC_INSTRUCTION_TYPE_CHANGE)))%bool
        then increaseAffected b
        else if bool_decide (_instruction item = CSYNC_INSTRUCTION_IGNORE) then b
        else placeItem i item b
      else placeItem i item b
  end.

(** Lines 403-405: the deferred jobs go to the root, in the order kept. *)
Definition appendDeferred (b : Builder) : Builder :=
  mkBuilder (items b)
            (fold_left (fun ar it => alter (appendJob it) 0%nat ar)
                       (directoriesToRemove b) (arena b))
            (directories b) (directoriesToRemove b) (removedDirectory b)
            (_anotherSyncNeeded b).

Definition startLoop (indices : list nat) (b : Builder) : Builder :=
  fold_left (fun acc i => startItem i acc) indices b.

(** [OwncloudPropagator::start], up to the first [scheduleNextJob]. *)
Definition start (v : list SyncFileItem) : Builder :=
  appendDeferred (startLoop (seq 0 (length v)) (initBuilder v)).

(** *** What the tree holds *)

(** The jobs and the tasks appended to the directory jobs. *)
Definition children (ar : list PropagateDirectory) : list Job :=
  concat (map (fun d => _jobsToDo (_subJobs d)) ar).

Definition tasks (ar : list PropagateDirectory) : list nat :=
  concat (map (fun d => _tasksToDo (_subJobs d)) ar).

Definition dirId (j : Job) : option nat :=
  match j with JDir id => Some id | JLeaf _ _ _ => None end.

Definition leafItem (j : Job) : option nat :=
  match j with JLeaf _ k _ => Some k | JDir _ => None end.

(** The items of the directory jobs that sit in the tree. *)
Definition directoryJobItems (b : Builder) : list nat :=
  omap (fun id => arena b !! id ≫= dir_item) (omap dirId (children (arena b))).

(** The items of the tasks and of the leaf jobs that sit in the tree. *)
Definition leafItems (b : Builder) : list nat :=
  tasks (arena b) ++ omap leafItem (children (arena b)).

(** The item at index [i] is passed over at its turn: it lies in the
    directory that is going to be removed and is a Remove, a New or
    TypeChange directory, or an Ignore. *)
Definition absorbedAt (b : Builder) (i : nat) : bool :=
  match items b !! i with
  | None => true
  | Some item =>
      (insideRemovedDirectory (removedDirectory b) item &&
       (bool_decide (_instruction item = CSYNC_INSTRUCTION_REMOVE)
        || (_isDirectory item &&
            (bool_decide (_instruction item = CSYNC_INSTRUCTION_NEW)
             || bool_decide (_instruction item = CSYNC_INSTRUCTION_TYPE_CHANGE)))
        || bool_decide (_instruction item = CSYNC_INSTRUCTION_IGNORE)))%bool
  end.

(** The indices the loop does not pass over, in order. *)
Fixpoint keptItems (indices : list nat) (b : Builder) : list nat :=
  match indices with
  | [] => []
  | i :: rest =>
      (if absorbedAt b i then [] else [i]) ++ keptItems rest (startItem i b)
  end.

Definition isDirectoryAt (v : list SyncFileItem) (i : nat) : bool :=
  match v !! i with
  | Some item => _isDirectory item
  | None => false
  end.

(** *** Lists of directory jobs under [alter] *)

Lemma children_app ar d :
  children (ar ++ [d]) = children ar ++ _jobsToDo (_subJobs d).
Proof. unfold children. rewrite map_app, concat_app. simpl. rewrite app_nil_r. reflexivity. Qed.

Lemma tasks_app ar d :
  tasks (ar ++ [d]) = tasks ar ++ _tasksToDo (_subJobs d).
Proof. unfold tasks. rewrite map_app, concat_app. simpl. rewrite app_nil_r. reflexivity. Qed.

Lemma children_alter_frame f id ar :
  (forall d, _jobsToDo (_subJobs (f d)) = _jobsToDo (_subJobs d)) ->
  children (alter f id ar) = children ar.
Proof.
  intros Hf. revert id. induction ar as [|d ar IH]; intros [|id]; try reflexivity.
  - unfold children. simpl. rewrite Hf. reflexivity.
  - unfold children in *. simpl. f_equal. apply IH.
Qed.

Lemma tasks_alter_frame f id ar :
  (forall d, _tasksToDo (_subJobs (f d)) = _tasksToDo (_subJobs d)) ->
  tasks (alter f id ar) = tasks ar.
Proof.
  intros Hf. revert id. induction ar as [|d ar IH]; intros [|id]; try reflexivity.
  - unfold tasks. simpl. rewrite Hf. reflexivity.
  - unfold tasks in *. simpl. f_equal. apply IH.
Qed.

Lemma dir_items_alter_frame f id ar :
  (forall d, dir_item (f d) = dir_item d) ->
  map dir_item (alter f id ar) = map dir_item ar.
Proof.
  intros Hf. revert id. induction ar as [|d ar IH]; intros [|id]; try reflexivity.
  - simpl. rewrite Hf. reflexivity.
  - simpl. f_equal. apply IH.
Qed.

Lemma children_alter_appendJob j id ar :
  (id < length ar)%nat ->
  children (alter (appendJob j) id ar) ≡ₚ j :: children ar.
Proof.
  revert id. induction ar as [|d ar IH]; intros [|id] Hlt; simpl in Hlt; try lia.
  - unfold children. simpl. rewrite <- app_assoc. simpl.
    symmetry. apply Permutation_middle.
  - unfold children in *. simpl.
    rewrite (IH id) by lia. symmetry. apply Permutation_middle.
Qed.

Lemma tasks_alter_appendTask i id ar :
  (id < length ar)%nat ->
  tasks (alter (appendTask i) id ar) ≡ₚ i :: tasks ar.
Proof.
  revert id. induction ar as [|d ar IH]; intros [|id] Hlt; simpl in Hlt; try lia.
  - unfold tasks. simpl. rewrite <- app_assoc. simpl.
    symmetry. apply Permutation_middle.
  - unfold tasks in *. simpl.
    rewrite (IH id) by lia. symmetry. apply Permutation_middle.
Qed.

Lemma deferred_children toRemove ar :
  (0 < length ar)%nat ->
  children (fold_left (fun a it => alter (appendJob it) 0%nat a) toRemove ar)
  ≡ₚ children ar ++ toRemove.
Proof.
  revert ar. induction toRemove as [|j l IH]; intros ar Hlen; simpl.
  - rewrite app_nil_r. reflexivity.
  - rewrite IH by (rewrite length_alter; exact Hlen).
    rewrite children_alter_appendJob by exact Hlen.
    simpl. apply Permutation_middle.
Qed.

Lemma deferred_tasks toRemove ar :
  tasks (fold_left (fun a it => alter (appendJob it) 0%nat a) toRemove ar) = tasks ar.
Proof.
  revert ar. induction toRemove as [|j l IH]; intros ar; simpl; [reflexivity|].
  rewrite IH. apply tasks_alter_frame. reflexivity.
Qed.

Lemma deferred_dir_items toRemove ar :
  map dir_item (fold_left (fun a it => alter (appendJob it) 0%nat a) toRemove ar)
  = map dir_item ar.
Proof.
  revert ar. induction toRemove as [|j l IH]; intros ar; simpl; [reflexivity|].
  rewrite IH. apply dir_items_alter_frame. reflexivity.
Qed.

Lemma lookup_dir_item ar id :
  ar !! id ≫= dir_item = (map dir_item ar !! id) ≫= (fun o => o).
Proof.
  revert id. induction ar as [|d ar IH]; intros [|id]; try reflexivity.
  simpl. apply IH.
Qed.

Lemma omap_lookup_shift (x : option nat) (l : list (option nat)) a n :
  omap (fun id => ((x :: l) !! id) ≫= (fun o => o)) (seq (S a) n) =
  omap (fun id => (l !! id) ≫= (fun o => o)) (seq a n).
Proof.
  revert a. induction n as [|n IH]; intros a; simpl; [reflexivity|].
  rewrite IH. reflexivity.
Qed.

Lemma omap_lookup_all (L : list nat) :
  omap (fun id => (map Some L !! id) ≫= (fun o => o)) (seq 0 (length L)) = L.
Proof.
  induction L as [|x L IH]; [reflexivity|].
  cbn [length seq map omap list_omap]. simpl.
  change (list_omap ?f ?l) with (omap f l).
  rewrite omap_lookup_shift, IH. reflexivity.
Qed.

(** *** The loop invariant of [start] *)

Lemma createJob_leaf i item j :
  createJob i item = Some j -> exists kind d, j = JLeaf kind i d.
Proof.
  unfold createJob. intros H.
  repeat match type of H with
         | context [match ?x with _ => _ end] => destruct x
         end;
    first [discriminate | injection H as <-; eauto].
Qed.

Lemma createJob_type_change_file i item :
  _instruction item = CSYNC_INSTRUCTION_TYPE_CHANGE ->
  _isDirectory item = false ->
  exists kind d, createJob i item = Some (JLeaf kind i d).
Proof.
  unfold createJob. intros -> ->.
  repeat match goal with
         | |- context [if ?x then _ else _] => destruct x
         end; eauto.
Qed.

Lemma popDirectories_Forall (P : string * nat -> Prop) dest stack :
  Forall P stack -> Forall P (popDirectories dest stack).
Proof.
  induction 1 as [|[name job] rest Hx Hrest IH]; simpl; [constructor|].
  destruct (QStr.startsWith dest name); [constructor; assumption|exact IH].
Qed.

Lemma top_in_range (n : nat) stack :
  (0 < n)%nat ->
  Forall (fun entry : string * nat => (entry.2 < n)%nat) stack ->
  (top stack < n)%nat.
Proof. intros Hn [|[name job] rest Hx _]; simpl; [exact Hn|exact Hx]. Qed.

Lemma skipUploadsBelow_isDirectory dest v :
  map _isDirectory (skipUploadsBelow dest v) = map _isDirectory v.
Proof.
  unfold skipUploadsBelow. rewrite map_map. apply map_ext.
  intros it. destruct (QStr.startsWith _ _); reflexivity.
Qed.

Lemma dropMetadataUpdate_isDirectory k v :
  map _isDirectory (dropMetadataUpdate k v) = map _isDirectory v.
Proof.
  unfold dropMetadataUpdate. revert k.
  induction v as [|it v IH]; intros [|k]; try reflexivity.
  - simpl. destruct (bool_decide _); reflexivity.
  - simpl. f_equal. apply IH.
Qed.

Lemma dropMetadataUpdates_isDirectory ar stack v :
  map _isDirectory (dropMetadataUpdates ar stack v) = map _isDirectory v.
Proof.
  unfold dropMetadataUpdates. revert v.
  induction stack as [|entry stack IH]; intros v; simpl; [reflexivity|].
  rewrite IH.
  destruct (ar !! entry.2) as [d|]; [|reflexivity].
  destruct (dir_item d); [apply dropMetadataUpdate_isDirectory|reflexivity].
Qed.

Definition directoriesOf (v : list SyncFileItem) (kept : list nat) : list nat :=
  List.filter (isDirectoryAt v) kept.

Definition filesOf (v : list SyncFileItem) (kept : list nat) : list nat :=
  List.filter (fun i => negb (isDirectoryAt v i)) kept.

(** After the loop has dealt with a prefix of the items of [v], of which
    [kept] were not passed over: the directory jobs allocated are the root
    and one per kept directory, each referred to once from the jobs
    appended or deferred, and the tasks and leaf jobs appended or deferred
    are one per kept file. *)
Record TreeInv (v : list SyncFileItem) (kept : list nat) (b : Builder) : Prop := {
  inv_items : map _isDirectory (items b) = map _isDirectory v;
  inv_arena : map dir_item (arena b) = None :: map Some (directoriesOf v kept);
  inv_stack : Forall (fun entry : string * nat => (entry.2 < length (arena b))%nat)
                     (directories b);
  inv_dirs : omap dirId (children (arena b) ++ directoriesToRemove b)
             ≡ₚ seq 1 (length (arena b) - 1);
  inv_leaves : tasks (arena b) ++ omap leafItem (children (arena b) ++ directoriesToRemove b)
               ≡ₚ filesOf v kept
}.

Lemma TreeInv_init v : TreeInv v [] (initBuilder v).
Proof.
  constructor; simpl; try reflexivity.
  repeat constructor.
Qed.

Lemma TreeInv_arena_length v kept b :
  TreeInv v kept b -> (0 < length (arena b))%nat.
Proof.
  intros [_ Ha _ _ _]. apply (f_equal (@length _)) in Ha.
  rewrite length_map in Ha. simpl in Ha. lia.
Qed.

Lemma isDirectoryAt_items v b i item :
  map _isDirectory (items b) = map _isDirectory v ->
  items b !! i = Some item ->
  isDirectoryAt v i = _isDirectory item.
Proof.
  intros Hm Hi. unfold isDirectoryAt.
  assert (H : map _isDirectory (items b) !! i = Some (_isDirectory item)).
  { change (map _isDirectory (items b)) with (_isDirectory <$> items b).
    rewrite list_lookup_fmap, Hi. reflexivity. }
  rewrite Hm in H.
  change (map _isDirectory v) with (_isDirectory <$> v) in H.
  rewrite list_lookup_fmap in H.
  destruct (v !! i); simpl in H; congruence.
Qed.

Lemma TreeInv_increaseAffected v kept b :
  TreeInv v kept b -> TreeInv v kept (increaseAffected b).
Proof.
  intros [Hi Ha Hs Hd Hl]. unfold increaseAffected.
  destruct (delDirJob (directoriesToRemove b)) as [id|]; [|constructor; assumption].
  constructor; simpl.
  - exact Hi.
  - rewrite dir_items_alter_frame by reflexivity. exact Ha.
  - rewrite length_alter. exact Hs.
  - rewrite length_alter, children_alter_frame by reflexivity. exact Hd.
  - rewrite children_alter_frame, tasks_alter_frame by reflexivity. exact Hl.
Qed.

Lemma directoriesOf_snoc v kept i :
  directoriesOf v (kept ++ [i]) =
  directoriesOf v kept ++ (if isDirectoryAt v i then [i] else []).
Proof. unfold directoriesOf. rewrite List.filter_app. reflexivity. Qed.

Lemma filesOf_snoc v kept i :
  filesOf v (kept ++ [i]) = filesOf v kept ++ (if isDirectoryAt v i then [] else [i]).
Proof.
  unfold filesOf. rewrite List.filter_app. simpl.
  destruct (isDirectoryAt v i); reflexivity.
Qed.

Lemma seq_grow (n : nat) :
  (0 < n)%nat -> seq 1 (n + 1 - 1) = seq 1 (n - 1) ++ [n].
Proof.
  intros Hn. replace (n + 1 - 1)%nat with (S (n - 1)) by lia.
  rewrite seq_S. f_equal. f_equal. lia.
Qed.

Lemma omap_dirId_dir id l : omap dirId (JDir id :: l) = id :: omap dirId l.
Proof. reflexivity. Qed.

Lemma omap_dirId_leaf kind k d l : omap dirId (JLeaf kind k d :: l) = omap dirId l.
Proof. reflexivity. Qed.

Lemma omap_leafItem_dir id l : omap leafItem (JDir id :: l) = omap leafItem l.
Proof. reflexivity. Qed.

Lemma omap_leafItem_leaf kind k d l :
  omap leafItem (JLeaf kind k d :: l) = k :: omap leafItem l.
Proof. reflexivity. Qed.

Lemma Permutation_insert_last {A} (x : A) (l1 l2 : list A) :
  l1 ++ x :: l2 ≡ₚ (l1 ++ l2) ++ [x].
Proof.
  rewrite <- app_assoc. apply Permutation_app_head, Permutation_cons_append.
Qed.

Lemma TreeInv_placeItem v kept b i item :
  TreeInv v kept b ->
  items b !! i = Some item ->
  TreeInv v (kept ++ [i]) (placeItem i item b).
Proof.
  intros Hinv Hitem.
  pose proof (TreeInv_arena_length _ _ _ Hinv) as Hlen.
  destruct Hinv as [Hi Ha Hs Hd Hl].
  pose proof (isDirectoryAt_items _ _ _ _ Hi Hitem) as Hdir.
  pose proof (popDirectories_Forall _ (destination item) _ Hs) as Hpop.
  pose proof (top_in_range _ _ Hlen Hpop) as Htop.
  unfold placeItem.
  destruct (_isDirectory item) eqn:Hisdir.
  - (* a directory: a new directory job *)
    assert (Hitems1 :
      map _isDirectory
        (if (bool_decide (_instruction item = CSYNC_INSTRUCTION_TYPE_CHANGE)
             && bool_decide (_direction item = Up))%bool
         then skipUploadsBelow (destination item) (items b) else items b)
      = map _isDirectory v).
    { destruct (_ && _)%bool; [rewrite skipUploadsBelow_isDirectory|]; exact Hi. }
    destruct (bool_decide (_instruction item = CSYNC_INSTRUCTION_REMOVE)).
    + constructor; cbn [items arena directories directoriesToRemove].
      * rewrite dropMetadataUpdates_isDirectory. exact Hitems1.
      * rewrite map_app, Ha, directoriesOf_snoc, Hdir, map_app. reflexivity.
      * rewrite length_app. constructor; [simpl; lia|].
        eapply Forall_impl; [exact Hpop|]. intros ? ?. simpl in *. lia.
      * rewrite length_app, children_app. cbn [_subJobs _jobsToDo newComposite length].
        rewrite app_nil_r, seq_grow by exact Hlen.
        rewrite <- Hd, !omap_app, omap_dirId_dir.
        apply Permutation_insert_last.
      * rewrite children_app, tasks_app.
        cbn [_subJobs _jobsToDo _tasksToDo newComposite]. rewrite !app_nil_r.
        rewrite filesOf_snoc, Hdir, app_nil_r, <- Hl, !omap_app, omap_leafItem_dir.
        reflexivity.
    + constructor; cbn [items arena directories directoriesToRemove].
      * exact Hitems1.
      * rewrite map_app, dir_items_alter_frame by reflexivity.
        rewrite Ha, directoriesOf_snoc, Hdir, map_app. reflexivity.
      * rewrite length_app, length_alter. constructor; [simpl; lia|].
        eapply Forall_impl; [exact Hpop|]. intros ? ?. simpl in *. lia.
      * rewrite length_app, length_alter, children_app.
        cbn [_subJobs _jobsToDo newComposite length].
        rewrite app_nil_r, seq_grow by exact Hlen.
        rewrite <- Hd, !omap_app.
        rewrite (children_alter_appendJob _ _ _ Htop), omap_dirId_dir.
        apply (Permutation_insert_last _ []).
      * rewrite children_app, tasks_app.
        cbn [_subJobs _jobsToDo _tasksToDo newComposite]. rewrite !app_nil_r.
        rewrite tasks_alter_frame by reflexivity.
        rewrite filesOf_snoc, Hdir, app_nil_r, <- Hl, !omap_app.
        rewrite (children_alter_appendJob _ _ _ Htop), omap_leafItem_dir.
        reflexivity.
  - (* a file *)
    destruct (bool_decide_reflect (_instruction item = CSYNC_INSTRUCTION_TYPE_CHANGE))
      as [Htc|Htc].
    + destruct (createJob_type_change_file i item Htc Hisdir) as (kind & d & ->).
      constructor; cbn [items arena directories directoriesToRemove].
      * exact Hi.
      * rewrite Ha, directoriesOf_snoc, Hdir, app_nil_r. reflexivity.
      * exact Hpop.
      * rewrite <- Hd, !omap_app, omap_dirId_leaf. reflexivity.
      * rewrite filesOf_snoc, Hdir, <- Hl, !omap_app, omap_leafItem_leaf.
        rewrite <- app_assoc. apply Permutation_app_head.
        apply Permutation_insert_last.
    + constructor; cbn [items arena directories directoriesToRemove].
      * exact Hi.
      * rewrite dir_items_alter_frame by reflexivity.
        rewrite Ha, directoriesOf_snoc, Hdir, app_nil_r. reflexivity.
      * rewrite length_alter. exact Hpop.
      * rewrite length_alter, children_alter_frame by reflexivity. exact Hd.
      * rewrite children_alter_frame by reflexivity.
        rewrite filesOf_snoc, Hdir, <- Hl.
        rewrite (tasks_alter_appendTask _ _ _ Htop).
        apply (Permutation_insert_last _ []).
Qed.

Lemma TreeInv_startItem v kept b i :
  TreeInv v kept b ->
  TreeInv v (kept ++ (if absorbedAt b i then [] else [i])) (startItem i b).
Proof.
  intros Hinv. unfold startItem, absorbedAt.
  destruct (items b !! i) as [item|] eqn:Hitem;
    [|rewrite app_nil_r; exact Hinv].
  destruct (insideRemovedDirectory (removedDirectory b) item); cbn [andb];
    [|apply TreeInv_placeItem; assumption].
  destruct (bool_decide (_instruction item = CSYNC_INSTRUCTION_REMOVE)); cbn [orb].
  { rewrite app_nil_r. apply TreeInv_increaseAffected, Hinv. }
  destruct (_isDirectory item &&
            (bool_decide (_instruction item = CSYNC_INSTRUCTION_NEW)
             || bool_decide (_instruction item = CSYNC_INSTRUCTION_TYPE_CHANGE)))%bool;
    cbn [orb].
  { rewrite app_nil_r. apply TreeInv_increaseAffected, Hinv. }
  destruct (bool_decide (_instruction item = CSYNC_INSTRUCTION_IGNORE)).
  { rewrite app_nil_r. exact Hinv. }
  apply TreeInv_placeItem; assumption.
Qed.

Lemma TreeInv_startLoop v indices kept b :
  TreeInv v kept b ->
  TreeInv v (kept ++ keptItems indices b) (startLoop indices b).
Proof.
  unfold startLoop. revert kept b.
  induction indices as [|i rest IH]; intros kept b Hinv; simpl.
  - rewrite app_nil_r. exact Hinv.
  - rewrite app_assoc. apply IH, TreeInv_startItem, Hinv.
Qed.

Lemma keptItems_sublist indices b : sublist (keptItems indices b) indices.
Proof.
  revert b. induction indices as [|i rest IH]; intros b; simpl; [constructor|].
  destruct (absorbedAt b i); simpl.
  - apply sublist_cons, IH.
  - apply sublist_skip, IH.
Qed.

Lemma keptItems_NoDup n b : NoDup (keptItems (seq 0 n) b).
Proof. eapply sublist_NoDup; [apply NoDup_seq|apply keptItems_sublist]. Qed.

Lemma omap_pointwise {A B} (f g : A -> option B) (l : list A) :
  (forall x, f x = g x) -> omap f l = omap g l.
Proof.
  intros Hfg. induction l as [|x l IH]; [reflexivity|].
  change (omap f (x :: l)) with (match f x with Some y => y :: omap f l | None => omap f l end).
  change (omap g (x :: l)) with (match g x with Some y => y :: omap g l | None => omap g l end).
  rewrite Hfg, IH. reflexivity.
Qed.

(** The claim as the specification words it, for reference: one leaf per
    item that is not a directory, one directory job per directory. *)
Definition oneJobPerItem (v : list SyncFileItem) : Prop :=
  directoryJobItems (start v)
    ≡ₚ List.filter (isDirectoryAt v) (seq 0 (length v)) /\
  leafItems (start v)
    ≡ₚ List.filter (fun i => negb (isDirectoryAt v i)) (seq 0 (length v)).

Lemma start_tree_items (v : list SyncFileItem) :
  directoryJobItems (start v)
    ≡ₚ List.filter (isDirectoryAt v) (keptItems (seq 0 (length v)) (initBuilder v)) /\
  leafItems (start v)
    ≡ₚ List.filter (fun i => negb (isDirectoryAt v i))
                   (keptItems (seq 0 (length v)) (initBuilder v)).
Proof.
  set (kept := keptItems (seq 0 (length v)) (initBuilder v)).
  pose proof (TreeInv_startLoop v (seq 0 (length v)) [] _ (TreeInv_init v)) as Hinv.
  simpl app in Hinv. fold kept in Hinv.
  pose proof (TreeInv_arena_length _ _ _ Hinv) as Hlen.
  destruct Hinv as [Hi Ha Hs Hd Hl].
  set (b := startLoop (seq 0 (length v)) (initBuilder v)) in *.
  split.
  - unfold directoryJobItems, start. fold b. cbn [arena appendDeferred].
    rewrite (deferred_children _ _ Hlen), Hd.
    rewrite (omap_pointwise _ _ _ (lookup_dir_item _)).
    rewrite deferred_dir_items, Ha.
    replace (length (arena b) - 1)%nat with (length (directoriesOf v kept)).
    + rewrite omap_lookup_shift, omap_lookup_all. reflexivity.
    + apply (f_equal (@length _)) in Ha. rewrite length_map in Ha.
      simpl in Ha. rewrite length_map in Ha. lia.
  - unfold leafItems, start. fold b. cbn [arena appendDeferred].
    rewrite deferred_tasks, (deferred_children _ _ Hlen). exact Hl.
Qed.

(** C3, as the code has it. In the tree [start] builds for an item vector
    [v], sorted or not, the directory jobs are those of the directories of
    [v] that were not passed over at their turn, one each, and the tasks
    and deferred leaf jobs are those of the other items of [v] that were
    not passed over, one each. An item is passed over when it lies in the
    directory that is going to be removed and is a Remove, a New or
    TypeChange directory, or an Ignore. *)
Theorem start_one_job_per_kept_item (v : list SyncFileItem) :
  let kept := keptItems (seq 0 (length v)) (initBuilder v) in
  directoryJobItems (start v) ≡ₚ List.filter (isDirectoryAt v) kept /\
  leafItems (start v) ≡ₚ List.filter (fun i => negb (isDirectoryAt v i)) kept /\
  NoDup (directoryJobItems (start v)) /\
  NoDup (leafItems (start v)).
Proof.
  intros kept.
  destruct (start_tree_items v) as (Hdirs & Hleaves).
  fold kept in Hdirs, Hleaves.
  pose proof (keptItems_NoDup (length v) (initBuilder v)) as Hnd. fold kept in Hnd.
  repeat split; try assumption.
  - rewrite Hdirs. apply NoDup_ListNoDup, List.NoDup_filter, NoDup_ListNoDup, Hnd.
  - rewrite Hleaves. apply NoDup_ListNoDup, List.NoDup_filter, NoDup_ListNoDup, Hnd.
Qed.

(** *** Vectors without removed directories *)

(** The item sets [removedDirectory] when it is placed: a directory that
    is removed, or a file that changes type. *)
Definition setsRemovedDirectory (item : SyncFileItem) : bool :=
  if _isDirectory item
  then bool_decide (_instruction item = CSYNC_INSTRUCTION_REMOVE)
  else bool_decide (_instruction item = CSYNC_INSTRUCTION_TYPE_CHANGE).

Definition noRemoval (b : Builder) : Prop :=
  removedDirectory b = "" /\
  Forall (fun item => setsRemovedDirectory item = false) (items b).

Lemma setsRemovedDirectory_none item :
  setsRemovedDirectory (set_instruction CSYNC_INSTRUCTION_NONE item) = false.
Proof. unfold setsRemovedDirectory. simpl. destruct (_isDirectory item); reflexivity. Qed.

Lemma skipUploadsBelow_noRemoval dest v :
  Forall (fun item => setsRemovedDirectory item = false) v ->
  Forall (fun item => setsRemovedDirectory item = false) (skipUploadsBelow dest v).
Proof.
  unfold skipUploadsBelow. induction 1 as [|item v Hitem Hv IH]; simpl; constructor.
  - destruct (QStr.startsWith _ _); [apply setsRemovedDirectory_none|exact Hitem].
  - exact IH.
Qed.

Lemma skipUploadsBelow_length dest v : length (skipUploadsBelow dest v) = length v.
Proof. unfold skipUploadsBelow. apply length_map. Qed.

Lemma placeItem_noRemoval i item b :
  noRemoval b -> items b !! i = Some item ->
  noRemoval (placeItem i item b) /\ length (items (placeItem i item b)) = length (items b).
Proof.
  intros [Hr Hall] Hitem.
  assert (Hok : setsRemovedDirectory item = false).
  { rewrite Forall_forall in Hall. apply Hall.
    apply list_elem_of_lookup. eauto. }
  unfold placeItem. unfold setsRemovedDirectory in Hok.
  destruct (_isDirectory item).
  - rewrite Hok.
    destruct (_ && _)%bool; cbn [items removedDirectory];
      (split; [split|]);
      first [ assumption | reflexivity
            | apply skipUploadsBelow_noRemoval; assumption
            | apply skipUploadsBelow_length ].
  - rewrite Hok. repeat split; assumption.
Qed.

Lemma keptItems_all indices b :
  noRemoval b ->
  Forall (fun i => (i < length (items b))%nat) indices ->
  keptItems indices b = indices.
Proof.
  revert b. induction indices as [|i rest IH]; intros b Hno Hlt; [reflexivity|].
  apply Forall_cons in Hlt as [Hi Hrest].
  destruct (lookup_lt_is_Some_2 (items b) i Hi) as [item Hitem].
  assert (Hins : insideRemovedDirectory (removedDirectory b) item = false).
  { destruct Hno as [-> _]. reflexivity. }
  cbn [keptItems]. unfold absorbedAt, startItem. rewrite Hitem, Hins. cbn [andb app].
  destruct (placeItem_noRemoval i item b Hno Hitem) as [Hno' Hlen].
  f_equal. apply IH; [exact Hno'|]. rewrite Hlen. exact Hrest.
Qed.

(** X1. When no directory of the vector is removed and no file changes type,
    no item is passed over: the tree holds one directory job per directory
    and one task per other item. *)
Lemma start_one_job_per_item_without_removal (v : list SyncFileItem) :
  Forall (fun item => setsRemovedDirectory item = false) v ->
  oneJobPerItem v.
Proof.
  intros Hv.
  destruct (start_tree_items v) as (Hd & Hl).
  rewrite (keptItems_all (seq 0 (length v)) (initBuilder v)) in Hd, Hl.
  - split; assumption.
  - split; [reflexivity|exact Hv].
  - apply Forall_forall. intros i Hi. apply elem_of_seq in Hi. simpl. lia.
  - split; [reflexivity|exact Hv].
  - apply Forall_forall. intros i Hi. apply elem_of_seq in Hi. simpl. lia.
Qed.

(** *** The job [createJob] builds, and the uploads below a type change *)

(** The jobs that change the server, and those that change the local
    folder. *)
Definition remoteSide (kind : LeafKind) : bool :=
  match kind with
  | PropagateRemoteDelete | PropagateRemoteMkdir | PropagateUploadFileNG
  | PropagateUploadFileV1 | PropagateRemoteMove => true
  | _ => false
  end.

Definition localSide (kind : LeafKind) : bool :=
  match kind with
  | PropagateLocalRemove | PropagateLocalMkdir | PropagateDownloadFile
  | PropagateLocalRename => true
  | _ => false
  end.

(** X19. The job [createJob] builds for an item works on the side the
    item's direction names: for an Up item it changes the server (remote
    delete, remote mkdir, upload, remote move), for a Down item the local
    folder (local remove, local mkdir, download, local rename), the ignore
    job apart; the chunked NG upload is chosen only for a size above the
    chunk size on a server with the capability; [deleteExisting] is set
    only for a type change; and the job is a leaf job for this very
    item. *)
Theorem createJob_side_follows_direction i item job :
  createJob i item = Some job ->
  exists kind deleteExisting,
    job = JLeaf kind i deleteExisting /\
    (_direction item = Up -> remoteSide kind = true \/ kind = PropagateIgnoreJob) /\
    (_direction item = Down -> localSide kind = true \/ kind = PropagateIgnoreJob) /\
    (kind = PropagateUploadFileNG -> chunkSize < _size item /\ chunkingNg = true) /\
    (deleteExisting = true -> _instruction item = CSYNC_INSTRUCTION_TYPE_CHANGE).
Proof.
  unfold createJob. intros H.
  destruct (_instruction item) eqn:Hi; try discriminate;
    destruct (_direction item) eqn:Hd;
    try destruct (_isDirectory item);
    cbn in H;
    try (destruct ((chunkSize <? _size item) && chunkingNg)%bool eqn:Hng;
         [apply andb_prop in Hng as [Hlt Hcap]; apply Z.ltb_lt in Hlt|]);
    injection H as <-; eexists; eexists; (split; [reflexivity|]);
    repeat split; try discriminate; auto.
Qed.

Section TypeChange.

(** [destination] reads the file and the rename target of an item, not
    its instruction. *)
Hypothesis destination_set_instruction :
  forall ins it, destination (set_instruction ins it) = destination it.

(** An item at a later turn of the loop: it has kept its destination, and
    an instruction NONE stays. *)
Definition settled (a a' : SyncFileItem) : Prop :=
  destination a' = destination a /\
  (_instruction a = CSYNC_INSTRUCTION_NONE -> _instruction a' = CSYNC_INSTRUCTION_NONE).

Lemma settled_same v : Forall2 settled v v.
Proof. apply Forall_Forall2_diag, Forall_true. intros a. split; auto. Qed.

Lemma settled_then v1 v2 v3 :
  Forall2 settled v1 v2 -> Forall2 settled v2 v3 -> Forall2 settled v1 v3.
Proof.
  apply Forall2_trans. intros a b c [Hd1 Hn1] [Hd2 Hn2]. split; [congruence|auto].
Qed.

Lemma skipUploadsBelow_settled dest v : Forall2 settled v (skipUploadsBelow dest v).
Proof.
  unfold skipUploadsBelow. change (map ?f v) with (f <$> v).
  apply Forall2_fmap_r, Forall_Forall2_diag, Forall_true. intros a. unfold compose.
  destruct (QStr.startsWith _ _); [|split; auto].
  split; [apply destination_set_instruction|reflexivity].
Qed.

Lemma dropMetadataUpdate_settled k v : Forall2 settled v (dropMetadataUpdate k v).
Proof.
  unfold dropMetadataUpdate. apply Forall2_alter_r; [apply settled_same|].
  intros a b _ _ [Hd Hn]. destruct (bool_decide _); [|split; assumption].
  split; [rewrite destination_set_instruction; exact Hd|reflexivity].
Qed.

Lemma dropMetadataUpdates_settled ar stack v :
  Forall2 settled v (dropMetadataUpdates ar stack v).
Proof.
  unfold dropMetadataUpdates. revert v.
  induction stack as [|entry stack IH]; intros v; cbn [fold_left]; [apply settled_same|].
  eapply settled_then; [|apply IH].
  destruct (ar !! entry.2) as [d|]; [|apply settled_same].
  destruct (dir_item d); [apply dropMetadataUpdate_settled|apply settled_same].
Qed.

Lemma placeItem_settled i item b : Forall2 settled (items b) (items (placeItem i item b)).
Proof.
  unfold placeItem.
  assert (H1 : Forall2 settled (items b)
                 (if (bool_decide (_instruction item = CSYNC_INSTRUCTION_TYPE_CHANGE)
                      && bool_decide (_direction item = Up))%bool
                  then skipUploadsBelow (destination item) (items b) else items b)).
  { destruct (_ && _)%bool; [apply skipUploadsBelow_settled|apply settled_same]. }
  destruct (_isDirectory item).
  - destruct (bool_decide (_instruction item = CSYNC_INSTRUCTION_REMOVE));
      cbn [items]; [|exact H1].
    eapply settled_then; [exact H1|apply dropMetadataUpdates_settled].
  - destruct (bool_decide _); [destruct (createJob i item)|]; apply settled_same.
Qed.

Lemma increaseAffected_items b : items (increaseAffected b) = items b.
Proof. unfold increaseAffected. destruct (delDirJob _); reflexivity. Qed.

Lemma increaseAffected_another b :
  _anotherSyncNeeded (increaseAffected b) = _anotherSyncNeeded b.
Proof. unfold increaseAffected. destruct (delDirJob _); reflexivity. Qed.

Lemma startItem_settled i b : Forall2 settled (items b) (items (startItem i b)).
Proof.
  unfold startItem. destruct (items b !! i) as [item|]; [|apply settled_same].
  repeat match goal with
         | |- context [if ?x then _ else _] => destruct x
         end;
    rewrite ?increaseAffected_items;
    first [apply settled_same | apply placeItem_settled].
Qed.

Lemma startLoop_settled indices b : Forall2 settled (items b) (items (startLoop indices b)).
Proof.
  unfold startLoop. revert b.
  induction indices as [|i rest IH]; intros b; cbn [fold_left]; [apply settled_same|].
  eapply settled_then; [apply startItem_settled|apply IH].
Qed.

Lemma placeItem_another i item b :
  _anotherSyncNeeded b = true -> _anotherSyncNeeded (placeItem i item b) = true.
Proof.
  intros H. unfold placeItem.
  destruct (_isDirectory item).
  - destruct (_ && _)%bool; destruct (bool_decide (_instruction item = CSYNC_INSTRUCTION_REMOVE));
      cbn [_anotherSyncNeeded]; rewrite ?H; reflexivity.
  - destruct (bool_decide _); [destruct (createJob i item)|]; exact H.
Qed.

Lemma startItem_another i b :
  _anotherSyncNeeded b = true -> _anotherSyncNeeded (startItem i b) = true.
Proof.
  intros H. unfold startItem. destruct (items b !! i) as [item|]; [|exact H].
  repeat match goal with
         | |- context [if ?x then _ else _] => destruct x
         end;
    rewrite ?increaseAffected_another;
    first [exact H | apply placeItem_another, H].
Qed.

Lemma startLoop_another indices b :
  _anotherSyncNeeded b = true -> _anotherSyncNeeded (startLoop indices b) = true.
Proof.
  unfold startLoop. revert b.
  induction indices as [|i rest IH]; intros b H; cbn [fold_left]; [exact H|].
  apply IH, startItem_another, H.
Qed.

(** X20. When the loop of [start] comes to a directory item with a type
    change to upload (and does not pass it over), every item of the vector
    whose destination lies below that directory, before or after it in the
    vector, has instruction NONE once [start] is done, so that [createJob]
    builds no job for it, and another sync is asked for. *)
Theorem start_skips_uploads_below_type_change v i item :
  let b := startLoop (seq 0 i) (initBuilder v) in
  items b !! i = Some item ->
  _isDirectory item = true ->
  _instruction item = CSYNC_INSTRUCTION_TYPE_CHANGE ->
  _direction item = Up ->
  insideRemovedDirectory (removedDirectory b) item = false ->
  forall k item2,
    items (start v) !! k = Some item2 ->
    QStr.startsWith (destination item2) (destination item +:+ "/") = true ->
    _instruction item2 = CSYNC_INSTRUCTION_NONE /\
    createJob k item2 = None /\
    _anotherSyncNeeded (start v) = true.
Proof.
  intros b Hitem Hdir Hins Hup Hout k item2 Hk Hbelow.
  assert (Hlen : (i < length v)%nat).
  { pose proof (Forall2_length _ _ _ (startLoop_settled (seq 0 i) (initBuilder v))) as Hl.
    apply lookup_lt_Some in Hitem. fold b in Hl. cbn [initBuilder items] in Hl. lia. }
  set (b1 := startItem i b).
  assert (Hstart : start v = appendDeferred (startLoop (seq (S i) (length v - S i)) b1)).
  { unfold start, startLoop, b1, b, startLoop.
    replace (length v) with (i + S (length v - S i))%nat at 1 by lia.
    rewrite seq_app, fold_left_app. reflexivity. }
  assert (Hb1 : b1 = placeItem i item b).
  { unfold b1, startItem. rewrite Hitem, Hout. reflexivity. }
  assert (Hitems1 : items b1 = skipUploadsBelow (destination item) (items b)).
  { rewrite Hb1. unfold placeItem. rewrite Hdir, Hins, Hup. reflexivity. }
  assert (Hanother1 : _anotherSyncNeeded b1 =
                      (_anotherSyncNeeded b || anyBelow (destination item) (items b))%bool).
  { rewrite Hb1. unfold placeItem. rewrite Hdir, Hins, Hup. reflexivity. }
  rewrite Hstart in Hk |- *. cbn [appendDeferred items _anotherSyncNeeded] in Hk |- *.
  destruct (Forall2_lookup_r _ _ _ _ _
              (startLoop_settled (seq (S i) (length v - S i)) b1) Hk)
    as (it1 & Hit1 & Hd1 & Hn1).
  rewrite Hitems1 in Hit1. unfold skipUploadsBelow in Hit1.
  change (map ?f (items b)) with (f <$> items b) in Hit1.
  rewrite list_lookup_fmap in Hit1.
  destruct (items b !! k) as [it0|] eqn:Hit0; [|discriminate].
  cbn [fmap option_fmap option_map] in Hit1. injection Hit1 as Hit1.
  assert (Hd0 : destination it0 = destination item2).
  { rewrite Hd1, <- Hit1.
    destruct (QStr.startsWith (destination it0) _); cbv iota;
      [rewrite destination_set_instruction|]; reflexivity. }
  rewrite Hd0, Hbelow in Hit1.
  assert (Hnone : _instruction item2 = CSYNC_INSTRUCTION_NONE).
  { apply Hn1. rewrite <- Hit1. reflexivity. }
  split; [exact Hnone|]. split.
  - unfold createJob. rewrite Hnone. reflexivity.
  - apply startLoop_another. rewrite Hanother1.
    apply orb_true_iff. right. unfold anyBelow. apply existsb_exists.
    exists it0. split; [|rewrite Hd0; exact Hbelow].
    apply list_elem_of_In, list_elem_of_lookup. exists k. exact Hit0.
Qed.

End TypeChange.

End Core.

(** *** Leaf completion: [PropagateItemJob::done] *)

Section Completion.

(** Outside these sources: the gateway's [int] reader and the platform
    probe the journal uses, and [SyncJournalErrorBlacklistRecord::update]
    and [isValid]. *)
Variable intValue : Z -> Z.
Variable fsCasePreserving : bool.
Variable update :
  Journal.SyncJournalBlacklistRecord -> SyncFileItem -> Journal.SyncJournalBlacklistRecord.
Variable isValid : Journal.SyncJournalBlacklistRecord -> bool.

(** The entry [blacklistCheck] computes from the journal's entry for the
    item. *)
Definition recomputedEntry (e : Journal.SqlEnv) (journal : Journal.SyncJournalDb)
    (item : SyncFileItem) : Journal.SyncJournalBlacklistRecord :=
  update (fst (Journal.blacklistEntry intValue fsCasePreserving e (_file item) journal))
         item.

(** [blacklistCheck]: updates, creates or removes the blacklist entry of
    the item, and tells whether the error is to be suppressed. The
    journal's [errorBlacklistEntry], [updateErrorBlacklistEntry] and
    [wipeErrorBlacklistEntry] are [blacklistEntry], [updateBlacklistEntry]
    and [wipeBlacklistEntry] of syncjournaldb.cpp. *)
Definition blacklistCheck (e : Journal.SqlEnv) (journal : Journal.SyncJournalDb)
    (item : SyncFileItem) : bool * Journal.SyncJournalDb :=
  let '(oldEntry, j1) :=
    Journal.blacklistEntry intValue fsCasePreserving e (_file item) journal in
  let newEntry := update oldEntry item in
  let j2 :=
    if isValid newEntry then Journal.updateBlacklistEntry e newEntry j1
    else if isValid oldEntry then Journal.wipeBlacklistEntry e (_file item) j1
    else j1 in
  ((isValid newEntry && (0 <? Journal._ignoreDuration newEntry))%bool, j2).

Definition isError (status : Status) : bool :=
  match status with
  | SoftError | FatalError | NormalError => true
  | _ => false
  end.

(** Lines 120-130: a restoration that worked reports Restoration; the
    item takes the error string. *)
Definition statusAfterRestoration (item : SyncFileItem) (status : Status) : Status :=
  if _isRestoration item then
    if (bool_decide (status = Success) || bool_decide (status = Conflict))%bool
    then Restoration else status
  else status.

Definition itemAtSwitch (item : SyncFileItem) (status : Status) (errorString : string)
  : SyncFileItem :=
  if _isRestoration item then
    if (bool_decide (status = Success) || bool_decide (status = Conflict))%bool
    then item
    else set_errorString
           (_errorString item +:+ "; Restoration Failed: " +:+ errorString) item
  else
    if QStr.isEmpty (_errorString item) then set_errorString errorString item
    else item.

(** Lines 132-136: while an abort is requested, NormalError and FatalError
    become SoftError. *)
Definition statusAtSwitch (abortRequested : Z) (item : SyncFileItem) (status : Status)
  : Status :=
  let status1 := statusAfterRestoration item status in
  if (negb (abortRequested =? 0) &&
      (bool_decide (status1 = NormalError) || bool_decide (status1 = FatalError)))%bool
  then SoftError else status1.

(** What [done] leaves behind: the item with its terminal status, the
    journal, the status sent with [finished], and whether
    [propagator()->abort()] was called. *)
Record Completed := mkCompleted {
  done_item : SyncFileItem;
  done_journal : Journal.SyncJournalDb;
  finished : Status;
  abortCalled : bool
}.

(** [PropagateItemJob::done]. *)
Definition done (e : Journal.SqlEnv) (abortRequested : Z)
    (journal : Journal.SyncJournalDb) (item : SyncFileItem)
    (status : Status) (errorString : string) : Completed :=
  let item1 := itemAtSwitch item status errorString in
  let status2 := statusAtSwitch abortRequested item status in
  let '(status3, item3, journal3) :=
    match status2 with
    | SoftError | FatalError | NormalError =>
        if (bool_decide (status2 = NormalError) || _errorMayBeBlacklisted item1)%bool then
          let '(suppress, j) := blacklistCheck e journal item1 in
          if (suppress && _hasBlacklistEntry item1)%bool
          then (FileIgnored,
                set_errorString ("Continue blacklisting:" +:+ " " +:+ _errorString item1)
                                item1,
                j)
          else (status2, item1, j)
        else (status2, item1, journal)
    | Success | Restoration =>
        if _hasBlacklistEntry item1 then
          let j := Journal.wipeBlacklistEntry e (_file item1) journal in
          if negb (bool_decide (_originalFile item1 = _file item1))
          then (status2, item1, Journal.wipeBlacklistEntry e (_originalFile item1) j)
          else (status2, item1, j)
        else (status2, item1, journal)
    | Conflict | FileIgnored | NoStatus => (status2, item1, journal)
    end in
  mkCompleted (set_status status3 item3) journal3 status3
              (bool_decide (status3 = FatalError)).

(** *** Composite jobs *)

Inductive JobParallelism :=
| FullParallelism | WaitForFinished | WaitForFinishedInParentDirectory.

Inductive Signal :=
| SigFinished (status : Status)
| SigScheduleNextJob.

Definition set_state (st : JobState) (c : PropagatorCompositeJob)
  : PropagatorCompositeJob :=
  mkComposite st (_jobsToDo c) (_tasksToDo c) (_runningJobs c) (_hasError c).

Definition nothingLeft (c : PropagatorCompositeJob) : bool :=
  (bool_decide (_jobsToDo c = []) && bool_decide (_tasksToDo c = [])
   && bool_decide (_runningJobs c = []))%bool.

(** [PropagatorCompositeJob::finalize]. *)
Definition finalize (c : PropagatorCompositeJob)
  : PropagatorCompositeJob * list Signal :=
  if bool_decide (_state c = Finished) then (c, [])
  else (set_state Finished c,
        [SigFinished (if bool_decide (_hasError c = NoStatus)
                      then Success else _hasError c)]).

(** [_runningJobs.remove(_runningJobs.indexOf(subJob))]; [None] when the
    job is not running, where the source asserts [i >= 0]. *)
Fixpoint removeJob (subJob : Job) (running : list Job) : option (list Job) :=
  match running with
  | [] => None
  | j :: rest =>
      if bool_decide (j = subJob) then Some rest
      else cons j <$> removeJob subJob rest
  end.

(** [PropagatorCompositeJob::slotSubJobFinished], [subJob] being the
    sender. *)
Definition slotSubJobFinished (subJob : Job) (status : Status)
    (c : PropagatorCompositeJob) : option (PropagatorCompositeJob * list Signal) :=
  match removeJob subJob (_runningJobs c) with
  | None => None
  | Some running =>
      let hasError :=
        if (bool_decide (status = FatalError) || bool_decide (status = NormalError)
            || bool_decide (status = SoftError))%bool
        then status else _hasError c in
      let c1 := mkComposite (_state c) (_jobsToDo c) (_tasksToDo c) running hasError in
      if nothingLeft c1 then Some (finalize c1)
      else Some (c1, [SigScheduleNextJob])
  end.

(** What the sub jobs answer when the composite asks them: whether
    [possiblyRunNextJob] started something, and their [parallelism()]. *)
Variable possiblyRunNextJob : Job -> bool.
Variable parallelism : Job -> JobParallelism.
Variable chunkSize : Z.
Variable chunkingNg : bool.

(** [PropagatorCompositeJob::parallelism]. *)
Fixpoint compositeParallelism (running : list Job) : JobParallelism :=
  match running with
  | [] => FullParallelism
  | j :: rest =>
      match parallelism j with
      | FullParallelism => compositeParallelism rest
      | p => p
      end
  end.

(** The loop over the running jobs of [scheduleSelfOrChild]: [Some r] when
    it returns [r], [None] when it falls through. *)
Fixpoint askRunning (running : list Job) : option bool :=
  match running with
  | [] => None
  | j :: rest =>
      if possiblyRunNextJob j then Some true
      else match parallelism j with
           | WaitForFinished => Some false
           | _ => askRunning rest
           end
  end.

(** The [while] over [_tasksToDo]: tasks for which [createJob] gives no job
    are dropped; the first that gives one starts running. *)
Fixpoint nextTask (v : list SyncFileItem) (todo : list nat)
  : option Job * list nat :=
  match todo with
  | [] => (None, [])
  | k :: rest =>
      match v !! k ≫= createJob chunkSize chunkingNg k with
      | Some job => (Some job, rest)
      | None => nextTask v rest
      end
  end.

(** [PropagatorCompositeJob::scheduleSelfOrChild]: the value returned, the
    composite afterwards, and whether [finalize] was posted to the event
    loop. *)
Definition scheduleSelfOrChild (v : list SyncFileItem) (c : PropagatorCompositeJob)
  : bool * PropagatorCompositeJob * bool :=
  if bool_decide (_state c = Finished) then (false, c, false)
  else
    let c := if bool_decide (_state c = NotYetStarted) then set_state Running c else c in
    match askRunning (_runningJobs c) with
    | Some r => (r, c, false)
    | None =>
        match _jobsToDo c with
        | nextJob :: rest =>
            (possiblyRunNextJob nextJob,
             mkComposite (_state c) rest (_tasksToDo c) (_runningJobs c ++ [nextJob])
                         (_hasError c),
             false)
        | [] =>
            match nextTask v (_tasksToDo c) with
            | (Some job, rest) =>
                (possiblyRunNextJob job,
                 mkComposite (_state c) [] rest (_runningJobs c ++ [job]) (_hasError c),
                 false)
            | (None, rest) =>
                let c1 := mkComposite (_state c) [] rest (_runningJobs c) (_hasError c) in
                (false, c1, nothingLeft c1)
            end
        end
    end.

(** What happens to a composite, one event at a time: a sub job reports
    that it finished, the propagator asks the composite to schedule, or a
    [finalize] posted earlier runs. *)
Inductive Event :=
| SubJobFinished (subJob : Job) (status : Status)
| Schedule
| PostedFinalize.

Definition compositeStep (v : list SyncFileItem) (ev : Event)
    (c : PropagatorCompositeJob) : option (PropagatorCompositeJob * list Signal) :=
  match ev with
  | SubJobFinished subJob status => slotSubJobFinished subJob status c
  | Schedule => Some ((scheduleSelfOrChild v c).1.2, [])
  | PostedFinalize => Some (finalize c)
  end.

Fixpoint compositeRun (v : list SyncFileItem) (evs : list Event)
    (c : PropagatorCompositeJob) : option (PropagatorCompositeJob * list Signal) :=
  match evs with
  | [] => Some (c, [])
  | ev :: rest =>
      match compositeStep v ev c with
      | None => None
      | Some (c1, sigs1) =>
          match compositeRun v rest c1 with
          | None => None
          | Some (c2, sigs2) => Some (c2, sigs1 ++ sigs2)
          end
      end
  end.

(** The statuses the sub jobs reported, in order. *)
Definition reported (evs : list Event) : list Status :=
  omap (fun ev => match ev with SubJobFinished _ st => Some st | _ => None end) evs.

(** The error reported last, [NoStatus] when there was none. *)
Definition lastError (statuses : list Status) : Status :=
  fold_left (fun acc st => if isError st then st else acc) statuses NoStatus.


(** The specification's reading: the most severe error, FatalError over
    NormalError over SoftError. *)
Definition mostSevere (statuses : list Status) : Status :=
  if existsb (fun st => bool_decide (st = FatalError)) statuses then FatalError
  else if existsb (fun st => bool_decide (st = NormalError)) statuses then NormalError
  else if existsb (fun st => bool_decide (st = SoftError)) statuses then SoftError
  else NoStatus.

Definition statusEmitted (hasError : Status) : Status :=
  if bool_decide (hasError = NoStatus) then Success else hasError.

(** *** Facts about [done] *)

Lemma itemAtSwitch_flags item status errorString :
  _hasBlacklistEntry (itemAtSwitch item status errorString) = _hasBlacklistEntry item /\
  _errorMayBeBlacklisted (itemAtSwitch item status errorString)
    = _errorMayBeBlacklisted item.
Proof.
  unfold itemAtSwitch.
  destruct (_isRestoration item);
    [destruct (_ || _)%bool|destruct (QStr.isEmpty _)]; split; reflexivity.
Qed.

Lemma statusAtSwitch_error abortRequested item status :
  isError status = true ->
  isError (statusAtSwitch abortRequested item status) = true /\
  statusAfterRestoration item status = status.
Proof.
  intros He. unfold statusAtSwitch, statusAfterRestoration.
  destruct status; try discriminate;
    destruct (_isRestoration item); simpl;
    destruct (negb (abortRequested =? 0)); simpl; auto.
Qed.

Lemma blacklistCheck_suppress e journal item :
  fst (blacklistCheck e journal item) =
  (isValid (recomputedEntry e journal item)
   && (0 <? Journal._ignoreDuration (recomputedEntry e journal item)))%bool.
Proof.
  unfold blacklistCheck, recomputedEntry.
  destruct (Journal.blacklistEntry _ _ _ _ _) as [oldEntry j1]. reflexivity.
Qed.

(** [done] on an error status, with the switch written out. *)
Lemma done_on_error e abortRequested journal item status errorString :
  isError status = true ->
  let st := statusAtSwitch abortRequested item status in
  let it := itemAtSwitch item status errorString in
  let suppress :=
    ((bool_decide (st = NormalError) || _errorMayBeBlacklisted item)
     && fst (blacklistCheck e journal it) && _hasBlacklistEntry item)%bool in
  let r := done e abortRequested journal item status errorString in
  finished r = (if suppress then FileIgnored else st) /\
  _status (done_item r) = finished r /\
  _errorString (done_item r) =
    (if suppress then "Continue blacklisting:" +:+ " " +:+ _errorString it
     else _errorString it) /\
  abortCalled r = bool_decide (finished r = FatalError).
Proof.
  intros He. cbv zeta.
  destruct (statusAtSwitch_error abortRequested item status He) as [Hst _].
  destruct (itemAtSwitch_flags item status errorString) as [Hh Hm].
  unfold done. rewrite Hh, Hm.
  generalize (itemAtSwitch item status errorString). intros it.
  destruct (statusAtSwitch abortRequested item status) eqn:Est; try discriminate;
    try (rewrite bool_decide_eq_false_2 by discriminate);
    try (rewrite bool_decide_eq_true_2 by reflexivity);
    cbn [orb andb];
    try (destruct (_errorMayBeBlacklisted item); cbn [andb]);
    try (destruct (blacklistCheck e journal it) as [sup j]; cbn [fst];
         destruct sup; cbn [andb];
         try destruct (_hasBlacklistEntry item));
    repeat split.
Qed.

(** The status the switch sees for an error status: the status given, or
    SoftError for each of the three while an abort is requested. *)
Lemma statusAtSwitch_given abortRequested item status :
  isError status = true ->
  statusAtSwitch abortRequested item status
  = (if abortRequested =? 0 then status else SoftError).
Proof.
  intros He. unfold statusAtSwitch.
  destruct (statusAtSwitch_error abortRequested item status He) as [_ ->].
  destruct (abortRequested =? 0); destruct status; try discriminate; reflexivity.
Qed.

(** C4, as the code has it. When a leaf completes with SoftError,
    NormalError or FatalError, the status it ends with is FileIgnored
    exactly when the item already had a blacklist entry, the recomputed
    entry is valid with an ignore duration above 0, and either the leaf
    completed with NormalError while no abort is requested or the item has
    [_errorMayBeBlacklisted]; the item's error string then starts with the
    marker. Otherwise the job ends with the status it completed with, or
    with SoftError while an abort is requested. *)
Theorem done_suppresses_continued_blacklisting
    e abortRequested journal item status errorString :
  isError status = true ->
  let it := itemAtSwitch item status errorString in
  let entry := recomputedEntry e journal it in
  let r := done e abortRequested journal item status errorString in
  (finished r = FileIgnored <->
     _hasBlacklistEntry item = true /\
     isValid entry = true /\ 0 < Journal._ignoreDuration entry /\
     ((status = NormalError /\ abortRequested = 0) \/
      _errorMayBeBlacklisted item = true)) /\
  (finished r = FileIgnored ->
     _errorString (done_item r)
     = "Continue blacklisting:" +:+ " " +:+ _errorString it) /\
  (finished r <> FileIgnored ->
     finished r = (if abortRequested =? 0 then status else SoftError)) /\
  _status (done_item r) = finished r.
Proof.
  intros He it entry r.
  destruct (done_on_error e abortRequested journal item status errorString He)
    as (Hf & Hs & Hstr & _).
  fold it r in Hf, Hs, Hstr.
  pose proof (statusAtSwitch_given abortRequested item status He) as Hgiven.
  destruct (statusAtSwitch_error abortRequested item status He) as [Hst _].
  set (st := statusAtSwitch abortRequested item status) in *.
  rewrite blacklistCheck_suppress in Hf, Hstr. fold entry in Hf, Hstr.
  assert (Hnormal : st = NormalError <-> status = NormalError /\ abortRequested = 0).
  { rewrite Hgiven. destruct (Z.eqb_spec abortRequested 0) as [E|N].
    - tauto.
    - split; [discriminate|]. intros [_ E]. contradiction. }
  assert (Hsup :
    ((bool_decide (st = NormalError) || _errorMayBeBlacklisted item)
     && (isValid entry && (0 <? Journal._ignoreDuration entry))
     && _hasBlacklistEntry item)%bool = true <->
    _hasBlacklistEntry item = true /\
    isValid entry = true /\ 0 < Journal._ignoreDuration entry /\
    ((status = NormalError /\ abortRequested = 0) \/
     _errorMayBeBlacklisted item = true)).
  { rewrite !andb_true_iff, orb_true_iff, bool_decide_eq_true, Z.ltb_lt, Hnormal.
    tauto. }
  split; [|split; [|split]].
  - rewrite <- Hsup, Hf.
    destruct (_ && _ && _)%bool; [tauto|].
    split; [|discriminate]. intros E. rewrite E in Hst. discriminate.
  - intros E. rewrite Hstr. rewrite Hf in E.
    destruct (_ && _ && _)%bool; [reflexivity|].
    rewrite E in Hst. discriminate.
  - intros N. rewrite <- Hgiven. rewrite Hf in *.
    destruct (_ && _ && _)%bool; [contradiction|reflexivity].
  - exact Hs.
Qed.

(** C7, as the code has it. Once an abort is requested, a leaf completing
    with NormalError or FatalError enters the switch as SoftError; it ends
    as SoftError, or as FileIgnored when the item may be blacklisted,
    already had an entry and the recomputed entry suppresses it; the
    item's status is never NormalError or FatalError and the job does not
    call [abort()] again. *)
Theorem done_after_abort_is_soft_or_ignored
    e abortRequested journal item status errorString :
  abortRequested <> 0 ->
  status = NormalError \/ status = FatalError ->
  let it := itemAtSwitch item status errorString in
  let entry := recomputedEntry e journal it in
  let r := done e abortRequested journal item status errorString in
  statusAtSwitch abortRequested item status = SoftError /\
  (finished r = SoftError \/ finished r = FileIgnored) /\
  (finished r = FileIgnored <->
     _errorMayBeBlacklisted item = true /\ _hasBlacklistEntry item = true /\
     isValid entry = true /\ 0 < Journal._ignoreDuration entry) /\
  _status (done_item r) = finished r /\
  abortCalled r = false.
Proof.
  intros Habort Hstatus it entry r.
  assert (He : isError status = true) by (destruct Hstatus as [-> | ->]; reflexivity).
  assert (Hst : statusAtSwitch abortRequested item status = SoftError).
  { unfold statusAtSwitch.
    destruct (statusAtSwitch_error abortRequested item status He) as [_ ->].
    destruct (Z.eqb_spec abortRequested 0); [contradiction|].
    destruct Hstatus as [-> | ->]; reflexivity. }
  destruct (done_on_error e abortRequested journal item status errorString He)
    as (Hf & Hs & _ & Ha).
  fold it r in Hf, Hs, Ha. rewrite Hst in Hf.
  rewrite blacklistCheck_suppress in Hf. fold entry in Hf.
  rewrite bool_decide_eq_false_2 in Hf by discriminate. cbn [orb] in Hf.
  split; [exact Hst|].
  split; [|split; [|split; [exact Hs|]]].
  - rewrite Hf. destruct (_ && _ && _)%bool; auto.
  - rewrite Hf.
    destruct (_errorMayBeBlacklisted item), (_hasBlacklistEntry item),
      (isValid entry), (Z.ltb_spec 0 (Journal._ignoreDuration entry));
      cbn [andb]; split; try discriminate; try tauto;
      intros (? & ? & ? & ?); try discriminate; lia.
  - rewrite Ha, Hf. destruct (_ && _ && _)%bool; reflexivity.
Qed.

(** *** Facts about composites *)

Definition noteError (acc st : Status) : Status := if isError st then st else acc.

Lemma isError_cases st :
  (bool_decide (st = FatalError) || bool_decide (st = NormalError)
   || bool_decide (st = SoftError))%bool = isError st.
Proof. destruct st; reflexivity. Qed.

Lemma finalize_spec c :
  _hasError (finalize c).1 = _hasError c /\
  (forall s, In (SigFinished s) (finalize c).2 -> s = statusEmitted (_hasError c)) /\
  (_state c <> Finished -> (finalize c).2 = [SigFinished (statusEmitted (_hasError c))]).
Proof.
  unfold finalize, statusEmitted.
  destruct (bool_decide_reflect (_state c = Finished)); simpl.
  - repeat split; [intros s []|contradiction].
  - repeat split. intros s [[= <-]|[]]. reflexivity.
Qed.

Lemma slotSubJobFinished_spec subJob st c c' sigs :
  slotSubJobFinished subJob st c = Some (c', sigs) ->
  _hasError c' = noteError (_hasError c) st /\
  (forall s, In (SigFinished s) sigs -> s = statusEmitted (_hasError c')) /\
  (_state c <> Finished -> nothingLeft c' = true ->
   sigs = [SigFinished (statusEmitted (_hasError c'))]).
Proof.
  unfold slotSubJobFinished. rewrite isError_cases.
  destruct (removeJob subJob (_runningJobs c)) as [running|]; [|discriminate].
  set (c1 := mkComposite _ _ _ running _).
  assert (H1 : _hasError c1 = noteError (_hasError c) st) by reflexivity.
  destruct (nothingLeft c1) eqn:Hleft.
  - intros [= Hfin]. destruct (finalize_spec c1) as (Hh & Hs & He).
    rewrite Hfin in Hh, Hs, He. cbn [fst snd] in Hh, Hs, He.
    rewrite Hh. repeat split; auto.
  - intros [= <- <-]. repeat split; auto.
    + intros s [[=]|[]].
    + intros _ Hn. rewrite Hn in Hleft. discriminate.
Qed.

Lemma scheduleSelfOrChild_hasError v c :
  _hasError (scheduleSelfOrChild v c).1.2 = _hasError c.
Proof.
  unfold scheduleSelfOrChild.
  destruct (bool_decide (_state c = Finished)); [reflexivity|].
  destruct (bool_decide (_state c = NotYetStarted)); cbn [set_state _runningJobs _jobsToDo
    _tasksToDo _hasError _state];
    destruct (askRunning _); try reflexivity;
    destruct (_jobsToDo c); try reflexivity;
    destruct (nextTask v (_tasksToDo c)) as [[job|] rest]; reflexivity.
Qed.

Lemma compositeStep_spec v ev c c' sigs :
  compositeStep v ev c = Some (c', sigs) ->
  _hasError c' = fold_left noteError (reported [ev]) (_hasError c) /\
  (forall s, In (SigFinished s) sigs -> s = statusEmitted (_hasError c')).
Proof.
  destruct ev as [subJob st| |]; cbn [compositeStep reported omap list_omap fold_left].
  - intros H. destruct (slotSubJobFinished_spec _ _ _ _ _ H) as (Hh & Hs & _). auto.
  - intros [= <- <-]. split; [apply scheduleSelfOrChild_hasError|intros s []].
  - intros [= H]. destruct (finalize_spec c) as (Hh & Hs & _).
    destruct (finalize c) as [c0 sigs0]. simpl in *. injection H as <- <-.
    rewrite Hh. auto.
Qed.

Lemma reported_app evs1 evs2 : reported (evs1 ++ evs2) = reported evs1 ++ reported evs2.
Proof. apply omap_app. Qed.

Lemma compositeRun_hasError v evs c c' sigs :
  compositeRun v evs c = Some (c', sigs) ->
  _hasError c' = fold_left noteError (reported evs) (_hasError c).
Proof.
  revert c sigs. induction evs as [|ev rest IH]; intros c sigs; cbn [compositeRun].
  - intros [= <- _]. reflexivity.
  - destruct (compositeStep v ev c) as [[c1 sigs1]|] eqn:Hstep; [|discriminate].
    destruct (compositeRun v rest c1) as [[c2 sigs2]|] eqn:Hrun; [|discriminate].
    intros [= <- _]. rewrite (IH _ _ Hrun).
    destruct (compositeStep_spec _ _ _ _ _ Hstep) as [-> _].
    change (ev :: rest) with ([ev] ++ rest).
    rewrite reported_app, fold_left_app. reflexivity.
Qed.

(** C5, as the code has it. Start from a composite that has seen no error
    and let sub jobs finish, the propagator schedule, and posted
    finalizations run, in any order. Whenever the next event makes the
    composite send [finished(s)], [s] is the error status reported last by
    a sub job so far, whatever its severity, or Success if none reported an
    error; and a sub job that finishes when nothing is left makes a
    composite that is not yet finished send it. *)
Theorem composite_emits_last_error v evs ev c c1 sigs1 c2 sigs2 :
  _hasError c = NoStatus ->
  compositeRun v evs c = Some (c1, sigs1) ->
  compositeStep v ev c1 = Some (c2, sigs2) ->
  (forall s, In (SigFinished s) sigs2 ->
     s = statusEmitted (lastError (reported (evs ++ [ev])))) /\
  (forall subJob st, ev = SubJobFinished subJob st ->
     _state c1 <> Finished -> nothingLeft c2 = true ->
     sigs2 = [SigFinished (statusEmitted (lastError (reported (evs ++ [ev]))))]).
Proof.
  intros H0 Hrun Hstep.
  pose proof (compositeRun_hasError _ _ _ _ _ Hrun) as H1. rewrite H0 in H1.
  destruct (compositeStep_spec _ _ _ _ _ Hstep) as [H2 Hs].
  assert (Hlast : _hasError c2 = lastError (reported (evs ++ [ev]))).
  { unfold lastError. rewrite reported_app, fold_left_app.
    fold noteError. rewrite <- H1. exact H2. }
  rewrite <- Hlast. split; [exact Hs|].
  intros subJob st -> Hstate Hleft. cbn [compositeStep] in Hstep.
  destruct (slotSubJobFinished_spec _ _ _ _ _ Hstep) as (_ & _ & He). auto.
Qed.

(** *** A composite finishes once *)

Definition isFinishedSignal (s : Signal) : bool :=
  match s with SigFinished _ => true | SigScheduleNextJob => false end.

(** How many times [finished] was sent. *)
Definition finishedSignals (sigs : list Signal) : nat :=
  length (List.filter isFinishedSignal sigs).

Lemma finalize_finish c :
  _state (finalize c).1 = Finished /\
  finishedSignals (finalize c).2 = (if bool_decide (_state c = Finished) then 0 else 1)%nat.
Proof.
  unfold finalize.
  destruct (bool_decide_reflect (_state c = Finished)) as [H|H]; cbn; auto.
Qed.

Lemma scheduleSelfOrChild_finished v c :
  _state c = Finished -> scheduleSelfOrChild v c = (false, c, false).
Proof.
  intros H. unfold scheduleSelfOrChild. rewrite bool_decide_eq_true_2 by exact H.
  reflexivity.
Qed.

Lemma compositeStep_finish v ev c c' sigs :
  compositeStep v ev c = Some (c', sigs) ->
  (_state c = Finished -> _state c' = Finished /\ finishedSignals sigs = 0%nat) /\
  (finishedSignals sigs <= 1)%nat /\
  (finishedSignals sigs = 1%nat -> _state c' = Finished).
Proof.
  destruct ev as [subJob st| |]; cbn [compositeStep].
  - unfold slotSubJobFinished.
    destruct (removeJob subJob (_runningJobs c)) as [running|]; [|discriminate].
    set (c1 := mkComposite _ _ _ running _).
    assert (Hs : _state c1 = _state c) by reflexivity.
    destruct (nothingLeft c1).
    + intros [= Hfin]. destruct (finalize_finish c1) as [Hst Hn].
      rewrite Hfin in Hst, Hn. cbn [fst snd] in Hst, Hn. rewrite Hn, Hs.
      split; [|split].
      * intros H. rewrite bool_decide_eq_true_2 by exact H. auto.
      * destruct (bool_decide (_state c = Finished)); lia.
      * intros _. exact Hst.
    + intros [= <- <-].
      split; [intros H; split; [rewrite Hs; exact H|reflexivity]|].
      split; [cbn; lia|cbn; discriminate].
  - intros [= <- <-]. cbn. split; [|split; [lia|discriminate]].
    intros H. rewrite (scheduleSelfOrChild_finished v c H). auto.
  - intros [= Hfin]. destruct (finalize_finish c) as [Hst Hn].
    rewrite Hfin in Hst, Hn. cbn [fst snd] in Hst, Hn. rewrite Hn.
    split; [|split].
    + intros H. rewrite bool_decide_eq_true_2 by exact H. auto.
    + destruct (bool_decide (_state c = Finished)); lia.
    + intros _. exact Hst.
Qed.

Lemma finishedSignals_app sigs1 sigs2 :
  finishedSignals (sigs1 ++ sigs2) = (finishedSignals sigs1 + finishedSignals sigs2)%nat.
Proof. unfold finishedSignals. rewrite List.filter_app, length_app. reflexivity. Qed.

(** X21. Whatever the order in which sub jobs finish, the propagator
    schedules and posted finalizations run, a composite sends [finished]
    at most once; it has state Finished from then on, and a composite that
    is Finished sends it no more. *)
Theorem composite_finishes_at_most_once v evs c c' sigs :
  compositeRun v evs c = Some (c', sigs) ->
  (finishedSignals sigs <= 1)%nat /\
  (finishedSignals sigs = 1%nat -> _state c' = Finished) /\
  (_state c = Finished -> _state c' = Finished /\ finishedSignals sigs = 0%nat).
Proof.
  revert c sigs. induction evs as [|ev rest IH]; intros c sigs; cbn [compositeRun].
  - intros [= <- <-]. cbn. repeat split; auto; discriminate.
  - destruct (compositeStep v ev c) as [[c1 sigs1]|] eqn:Hstep; [|discriminate].
    destruct (compositeRun v rest c1) as [[c2 sigs2]|] eqn:Hrun; [|discriminate].
    intros [= <- <-].
    destruct (compositeStep_finish _ _ _ _ _ Hstep) as (Hf1 & Hle1 & Hone1).
    destruct (IH _ _ Hrun) as (Hle2 & Hone2 & Hf2).
    rewrite finishedSignals_app.
    assert (Hcases : finishedSignals sigs1 = 0%nat \/ finishedSignals sigs1 = 1%nat) by lia.
    destruct Hcases as [H0|H1].
    + rewrite H0. cbn [Nat.add]. split; [exact Hle2|]. split; [exact Hone2|].
      intros H. destruct (Hf1 H) as [Hc1 _]. apply Hf2, Hc1.
    + destruct (Hf2 (Hone1 H1)) as [Hc2 H2]. rewrite H1, H2. cbn [Nat.add].
      split; [lia|]. split; [intros _; exact Hc2|].
      intros H. destruct (Hf1 H) as [_ Hz]. lia.
Qed.

(** *** What [scheduleSelfOrChild] starts *)

(** A task for which [createJob] builds no job. *)
Definition useless (v : list SyncFileItem) (k : nat) : Prop :=
  v !! k ≫= createJob chunkSize chunkingNg k = None.

Lemma nextTask_spec v todo :
  exists skipped,
    Forall (useless v) skipped /\
    match (nextTask v todo).1 with
    | Some job =>
        exists k, todo = skipped ++ k :: (nextTask v todo).2 /\ leafItem job = Some k
    | None => todo = skipped /\ (nextTask v todo).2 = []
    end.
Proof.
  induction todo as [|k rest IH]; cbn [nextTask].
  - exists []. cbn. auto.
  - destruct (v !! k ≫= createJob chunkSize chunkingNg k) as [job|] eqn:Hjob.
    + exists []. split; [constructor|]. cbn [fst snd]. exists k. split; [reflexivity|].
      destruct (v !! k) as [item|]; [|discriminate]. cbn in Hjob.
      destruct (createJob_leaf _ _ _ _ _ Hjob) as (kind & d & ->). reflexivity.
    + destruct IH as (skipped & Hsk & Hrest). exists (k :: skipped).
      split; [constructor; [exact Hjob|exact Hsk]|].
      destruct (nextTask v rest) as [[job|] rest']; cbn [fst snd] in *.
      * destruct Hrest as (k' & -> & Hl). exists k'. auto.
      * destruct Hrest as [-> ->]. auto.
Qed.

(** X22. One call of [scheduleSelfOrChild] on a composite starts at most
    one job, appended to the running jobs, and loses none: while there are
    jobs to do the job started is the first of them and the tasks are left
    alone; when there are none, the job started is a leaf job for the item
    of the first task that is not dropped, the tasks before it, for
    which [createJob] builds nothing, are dropped, and the tasks after it
    are kept in their order. *)
Theorem scheduleSelfOrChild_starts_in_order v c :
  let c' := (scheduleSelfOrChild v c).1.2 in
  exists started,
    (length started <= 1)%nat /\
    _runningJobs c' = _runningJobs c ++ started /\
    (_jobsToDo c <> [] ->
       started ++ _jobsToDo c' = _jobsToDo c /\ _tasksToDo c' = _tasksToDo c) /\
    (_jobsToDo c = [] ->
       _jobsToDo c' = [] /\
       exists skipped,
         (started = [] -> skipped = [] \/ _tasksToDo c' = []) /\
         _tasksToDo c = skipped ++ omap leafItem started ++ _tasksToDo c' /\
         Forall (useless v) skipped).
Proof.
  intros c'. subst c'. unfold scheduleSelfOrChild.
  assert (Hidle : forall c0 : PropagatorCompositeJob,
            _runningJobs c0 = _runningJobs c -> _jobsToDo c0 = _jobsToDo c ->
            _tasksToDo c0 = _tasksToDo c ->
            exists started : list Job,
              (length started <= 1)%nat /\
              _runningJobs c0 = _runningJobs c ++ started /\
              (_jobsToDo c <> [] ->
                 started ++ _jobsToDo c0 = _jobsToDo c /\ _tasksToDo c0 = _tasksToDo c) /\
              (_jobsToDo c = [] ->
                 _jobsToDo c0 = [] /\
                 exists skipped,
                   (started = [] -> skipped = [] \/ _tasksToDo c0 = []) /\
                   _tasksToDo c = skipped ++ omap leafItem started ++ _tasksToDo c0 /\
                   Forall (useless v) skipped)).
  { intros c0 Hr Hj Ht. exists []. rewrite app_nil_r. cbn [length app omap list_omap].
    split; [lia|]. split; [exact Hr|]. split; [auto|].
    intros Hnil. split; [congruence|]. exists []. rewrite Ht. auto. }
  destruct (bool_decide (_state c = Finished)); cbn [fst snd]; [apply Hidle; reflexivity|].
  set (c0 := if bool_decide (_state c = NotYetStarted) then set_state Running c else c).
  assert (Hr0 : _runningJobs c0 = _runningJobs c)
    by (unfold c0; destruct (bool_decide _); reflexivity).
  assert (Hj0 : _jobsToDo c0 = _jobsToDo c)
    by (unfold c0; destruct (bool_decide _); reflexivity).
  assert (Ht0 : _tasksToDo c0 = _tasksToDo c)
    by (unfold c0; destruct (bool_decide _); reflexivity).
  destruct (askRunning (_runningJobs c0)); cbn [fst snd]; [apply Hidle; assumption|].
  rewrite Hj0. destruct (_jobsToDo c) as [|nextJob rest] eqn:Hjobs; cbn [fst snd].
  - pose proof (nextTask_spec v (_tasksToDo c0)) as (skipped & Hsk & Hnext).
    destruct (nextTask v (_tasksToDo c0)) as [[job|] rest']; cbn [fst snd] in *.
    + destruct Hnext as (k & Htodo & Hleaf). exists [job].
      cbn [length _runningJobs _jobsToDo _tasksToDo omap list_omap].
      split; [lia|]. split; [rewrite Hr0; reflexivity|]. split; [congruence|].
      intros _. split; [reflexivity|]. exists skipped.
      split; [discriminate|]. split; [|exact Hsk].
      rewrite <- Ht0, Htodo, Hleaf. reflexivity.
    + destruct Hnext as [Htodo ->]. exists [].
      cbn [length _runningJobs _jobsToDo _tasksToDo omap list_omap app].
      rewrite app_nil_r. split; [lia|]. split; [exact Hr0|]. split; [congruence|].
      intros _. split; [reflexivity|]. exists skipped.
      split; [auto|]. split; [|exact Hsk].
      rewrite app_nil_r, <- Ht0. exact Htodo.
  - exists [nextJob]. cbn [length _runningJobs _jobsToDo _tasksToDo app].
    split; [lia|]. split; [rewrite Hr0; reflexivity|]. split; [|discriminate].
    intros _. split; [reflexivity|exact Ht0].
Qed.

Lemma askRunning_blocked before j after :
  (forall x, In x before -> possiblyRunNextJob x = false) ->
  possiblyRunNextJob j = false -> parallelism j = WaitForFinished ->
  askRunning (before ++ j :: after) = Some false.
Proof.
  intros Hidle Hj Hp. induction before as [|x before IH]; cbn [app askRunning].
  - rewrite Hj, Hp. reflexivity.
  - rewrite (Hidle x (or_introl eq_refl)).
    destruct (parallelism x); try reflexivity;
      apply IH; intros y Hy; apply Hidle; right; exact Hy.
Qed.

(** X23. While a running sub job that must be waited for
    ([parallelism() == WaitForFinished]) has nothing to start, and no
    running job before it has either, [scheduleSelfOrChild] returns false
    and starts nothing: the jobs to do, the tasks and the running jobs
    stay as they are, and no finalization is posted. *)
Theorem scheduleSelfOrChild_waits_for_blocking_job v c before j after :
  _runningJobs c = before ++ j :: after ->
  (forall x, In x before -> possiblyRunNextJob x = false) ->
  possiblyRunNextJob j = false -> parallelism j = WaitForFinished ->
  let r := scheduleSelfOrChild v c in
  r.1.1 = false /\ r.2 = false /\
  _jobsToDo r.1.2 = _jobsToDo c /\ _tasksToDo r.1.2 = _tasksToDo c /\
  _runningJobs r.1.2 = _runningJobs c /\ _hasError r.1.2 = _hasError c.
Proof.
  intros Hrun Hidle Hj Hp r. subst r. unfold scheduleSelfOrChild.
  assert (Hask : askRunning (_runningJobs c) = Some false)
    by (rewrite Hrun; apply (askRunning_blocked _ _ _ Hidle Hj Hp)).
  destruct (bool_decide (_state c = Finished)); [repeat split|].
  destruct (bool_decide (_state c = NotYetStarted));
    cbn [set_state _runningJobs]; rewrite Hask; repeat split.
Qed.

(** *** Restoring in a shared directory *)

(** [PropagateItemJob::slotRestoreJobFinished], [msg] being the message of
    the restore job. *)
Definition slotRestoreJobFinished (e : Journal.SqlEnv) (abortRequested : Z)
    (journal : Journal.SyncJournalDb) (item : SyncFileItem) (msg : string)
    (status : Status) : Completed :=
  if (bool_decide (status = Success) || bool_decide (status = Conflict)
      || bool_decide (status = Restoration))%bool
  then done e abortRequested journal item SoftError msg
  else done e abortRequested journal item status
         ("A file or folder was removed from a read only share, but restoring failed: "
          +:+ msg).

Lemma done_status e abortRequested journal item status errorString :
  _status (done_item (done e abortRequested journal item status errorString))
  = finished (done e abortRequested journal item status errorString).
Proof.
  unfold done.
  destruct (statusAtSwitch abortRequested item status);
    repeat match goal with
           | |- context [if ?x then _ else _] => destruct x
           | |- context [let '(_, _) := ?x in _] => destruct x
           end; reflexivity.
Qed.

Lemma done_quiet e abortRequested journal item status errorString :
  status = NoStatus \/ status = FileIgnored ->
  finished (done e abortRequested journal item status errorString) = status.
Proof.
  intros [-> | ->]; unfold done, statusAtSwitch, statusAfterRestoration;
    destruct (_isRestoration item); cbn;
    destruct (negb (abortRequested =? 0)); reflexivity.
Qed.

(** X24. A job whose restore job has finished never ends well: when the
    restore worked (Success, Conflict or Restoration) it ends as SoftError,
    or as FileIgnored when the blacklist suppresses the error; when the
    restore failed it ends with an error status, FileIgnored or NoStatus;
    in no case as Success, Conflict or Restoration. *)
Theorem slotRestoreJobFinished_never_ends_well
    e abortRequested journal item msg status :
  let r := slotRestoreJobFinished e abortRequested journal item msg status in
  (status = Success \/ status = Conflict \/ status = Restoration ->
     finished r = SoftError \/ finished r = FileIgnored) /\
  (finished r = SoftError \/ finished r = NormalError \/ finished r = FatalError \/
   finished r = FileIgnored \/ finished r = NoStatus) /\
  _status (done_item r) = finished r.
Proof.
  intros r. subst r. unfold slotRestoreJobFinished.
  assert (Herr : forall st s,
            isError st = true ->
            finished (done e abortRequested journal item st s) = SoftError \/
            finished (done e abortRequested journal item st s) = NormalError \/
            finished (done e abortRequested journal item st s) = FatalError \/
            finished (done e abortRequested journal item st s) = FileIgnored).
  { intros st s He.
    destruct (done_on_error e abortRequested journal item st s He) as (Hf & _).
    destruct (statusAtSwitch_error abortRequested item st He) as [Hst _].
    rewrite Hf. destruct (_ && _ && _)%bool; [auto|].
    destruct (statusAtSwitch abortRequested item st); try discriminate; auto. }
  assert (Hsoft : forall s,
            finished (done e abortRequested journal item SoftError s) = SoftError \/
            finished (done e abortRequested journal item SoftError s) = FileIgnored).
  { intros s.
    destruct (done_on_error e abortRequested journal item SoftError s eq_refl) as (Hf & _).
    rewrite Hf. destruct (_ && _ && _)%bool; [auto|]. left.
    unfold statusAtSwitch, statusAfterRestoration.
    destruct (_isRestoration item); cbn; destruct (negb (abortRequested =? 0)); reflexivity. }
  split; [|split].
  - intros Hs.
    replace (bool_decide (status = Success) || bool_decide (status = Conflict)
             || bool_decide (status = Restoration))%bool with true
      by (destruct Hs as [-> | [-> | ->]]; reflexivity).
    apply Hsoft.
  - destruct status;
      match goal with
      | |- context [(?a || ?b || ?c)%bool] =>
          let t := eval vm_compute in (a || b || c)%bool in
          change (a || b || c)%bool with t
      end; cbv iota;
      try (destruct (Hsoft msg) as [-> | ->]; auto 10; fail);
      try (rewrite done_quiet by auto; auto 10; fail);
      match goal with
      | |- context [done e abortRequested journal item ?st ?s] =>
          destruct (Herr st s eq_refl) as [-> | [-> | [-> | ->]]]; auto 10
      end.
  - destruct (_ || _)%bool; apply done_status.
Qed.

(** X25. When a leaf ends as Success or Restoration (a restoration that
    ended in a conflict counts as one) for an item that had a blacklist
    entry, the entries of the journal's blacklist for the item's file and
    for its original file are wiped: no row of either path is left, given
    that the journal connects and the deletes execute. *)
Theorem done_success_wipes_blacklist
    e abortRequested journal item status errorString :
  status = Success \/ status = Restoration \/
  (status = Conflict /\ _isRestoration item = true) ->
  _hasBlacklistEntry item = true ->
  fst (Journal.checkConnect e journal) = true -> Journal.exec_ok e = true ->
  QStr.isEmpty (_file item) = false -> QStr.isEmpty (_originalFile item) = false ->
  let r := done e abortRequested journal item status errorString in
  (finished r = Success \/ finished r = Restoration) /\
  (forall row, In row (Journal.blacklist (Journal._db (done_journal r))) ->
     Journal._file row <> _file item /\ Journal._file row <> _originalFile item) /\
  Journal.metadata (Journal._db (done_journal r)) = Journal.metadata (Journal._db journal).
Proof.
  intros Hstatus Hhas Hc He Hfile Horig r. subst r.
  assert (Hit : _file (itemAtSwitch item status errorString) = _file item /\
                _originalFile (itemAtSwitch item status errorString) = _originalFile item).
  { unfold itemAtSwitch. destruct (_isRestoration item);
      [destruct (bool_decide (status = Success) || bool_decide (status = Conflict))%bool
      |destruct (QStr.isEmpty (_errorString item))]; split; reflexivity. }
  destruct Hit as [Hf Ho].
  destruct (itemAtSwitch_flags item status errorString) as [Hh _].
  assert (Hst : statusAtSwitch abortRequested item status = Success \/
                statusAtSwitch abortRequested item status = Restoration).
  { unfold statusAtSwitch, statusAfterRestoration.
    destruct Hstatus as [-> | [-> | [-> ->]]];
      try destruct (_isRestoration item); cbn;
      destruct (negb (abortRequested =? 0)); auto. }
  destruct (Journal.wipeBlacklistEntry_ok e (_file item) journal Hc He Hfile)
    as (Hopen1 & Hb1).
  pose proof (Journal.checkConnect_metadata e journal) as Hm0.
  assert (Hm1 : Journal.metadata (Journal._db (Journal.wipeBlacklistEntry e (_file item) journal))
                = Journal.metadata (Journal._db journal)).
  { unfold Journal.wipeBlacklistEntry. rewrite Hfile.
    destruct (Journal.checkConnect e journal) as [connected j1]; simpl in Hc, Hm0.
    subst connected. rewrite He. exact Hm0. }
  assert (Hc1 : fst (Journal.checkConnect e (Journal.wipeBlacklistEntry e (_file item) journal))
                = true)
    by (rewrite (Journal.checkConnect_when_open e _ Hopen1); reflexivity).
  destruct (Journal.wipeBlacklistEntry_ok e (_originalFile item) _ Hc1 He Horig)
    as (_ & Hb2).
  assert (Hm2 : Journal.metadata
                  (Journal._db (Journal.wipeBlacklistEntry e (_originalFile item)
                                  (Journal.wipeBlacklistEntry e (_file item) journal)))
                = Journal.metadata (Journal._db journal)).
  { rewrite <- Hm1. unfold Journal.wipeBlacklistEntry at 1. rewrite Horig.
    rewrite (Journal.checkConnect_when_open e _ Hopen1), He. reflexivity. }
  unfold done. rewrite Hh, Hhas, Hf, Ho.
  destruct Hst as [-> | ->];
    (destruct (bool_decide_reflect (_originalFile item = _file item)) as [Heq|Hne];
     cbn [negb finished done_journal];
     (split; [auto|]); (split; [|assumption]); intros row Hin).
  - rewrite Hb1 in Hin. apply filter_In in Hin as [_ Hin].
    apply negb_true_iff, bool_decide_eq_false in Hin. rewrite Heq. auto.
  - rewrite Hb2, Hb1 in Hin. apply filter_In in Hin as [Hin Hin2].
    apply filter_In in Hin as [_ Hin].
    apply negb_true_iff, bool_decide_eq_false in Hin.
    apply negb_true_iff, bool_decide_eq_false in Hin2. auto.
  - rewrite Hb1 in Hin. apply filter_In in Hin as [_ Hin].
    apply negb_true_iff, bool_decide_eq_false in Hin. rewrite Heq. auto.
  - rewrite Hb2, Hb1 in Hin. apply filter_In in Hin as [Hin Hin2].
    apply filter_In in Hin as [_ Hin].
    apply negb_true_iff, bool_decide_eq_false in Hin.
    apply negb_true_iff, bool_decide_eq_false in Hin2. auto.
Qed.

(** *** Problems in a shared directory *)

Definition set_direction (d : Direction) (it : SyncFileItem) : SyncFileItem :=
  mkItem (_file it) (_originalFile it) (_renameTarget it) (_instruction it) d
         (_isDirectory it) (_isRestoration it) (_hasBlacklistEntry it)
         (_errorMayBeBlacklisted it) (_status it) (_errorString it) (_modtime it)
         (_etag it) (_size it) (_fileId it).

Definition set_modtime (t : Z) (it : SyncFileItem) : SyncFileItem :=
  mkItem (_file it) (_originalFile it) (_renameTarget it) (_instruction it)
         (_direction it) (_isDirectory it) (_isRestoration it) (_hasBlacklistEntry it)
         (_errorMayBeBlacklisted it) (_status it) (_errorString it) t
         (_etag it) (_size it) (_fileId it).

(** [OwncloudPropagator::isInSharedDirectory]. *)
Definition isInSharedDirectory (remoteFolder file : string) : bool :=
  if QStr.startsWith remoteFolder "Shared" then true
  else (QStr.startsWith file "Shared/" || bool_decide (file = "Shared"))%bool.

(** What [checkForProblemsWithShared] returns and leaves behind: the
    restore job it has started, if any, by its kind, its item (a copy of
    the job's item) and its message, the journal and
    [_anotherSyncNeeded]. *)
Record SharedProblem := mkSharedProblem {
  handled : bool;
  _restoreJob : option (LeafKind * SyncFileItem * string);
  problem_journal : Journal.SyncJournalDb;
  problem_anotherSyncNeeded : bool
}.

(** [PropagateItemJob::checkForProblemsWithShared]; [currentDateTime] is
    the clock read for the conflict. *)
Definition checkForProblemsWithShared (e : Journal.SqlEnv) (remoteFolder : string)
    (currentDateTime : Z) (anotherSyncNeeded : bool) (journal : Journal.SyncJournalDb)
    (item : SyncFileItem) (httpStatusCode : Z) (msg : string) : SharedProblem :=
  if ((httpStatusCode =? 403) && isInSharedDirectory remoteFolder (_file item))%bool then
    if negb (_isDirectory item) then
      let downloadItem := item in
      if (bool_decide (_instruction downloadItem = CSYNC_INSTRUCTION_NEW)
          || bool_decide (_instruction downloadItem = CSYNC_INSTRUCTION_TYPE_CHANGE))%bool
      then mkSharedProblem false None journal anotherSyncNeeded
      else
        let downloadItem :=
          if bool_decide (_instruction downloadItem = CSYNC_INSTRUCTION_SYNC)
          then set_modtime currentDateTime
                 (set_instruction CSYNC_INSTRUCTION_CONFLICT downloadItem)
          else set_instruction CSYNC_INSTRUCTION_SYNC downloadItem in
        mkSharedProblem true
          (Some (PropagateDownloadFile, set_direction Down downloadItem, msg))
          journal anotherSyncNeeded
    else
      let mkdirItem :=
        set_direction Down (set_instruction CSYNC_INSTRUCTION_NEW item) in
      mkSharedProblem true (Some (PropagateLocalMkdir, mkdirItem, msg))
        (Journal.avoidRenamesOnNextSync e (_file item) journal) true
  else mkSharedProblem false None journal anotherSyncNeeded.

(** X26. [checkForProblemsWithShared] handles a problem only for status
    403 on a file in a shared directory, and what it starts restores the
    local folder: a download (as CONFLICT for an item that was to SYNC, as
    SYNC otherwise) or, for a directory, a local mkdir of a NEW directory,
    always with direction Down, for the file of the job's item and with
    the message given. It
    starts nothing for a NEW or TYPE_CHANGE file, which it reports as not
    handled; for a file it leaves the journal and [_anotherSyncNeeded]
    alone, and for a directory it asks for another sync. *)
Theorem checkForProblemsWithShared_restores_downwards
    e remoteFolder currentDateTime anotherSyncNeeded journal item httpStatusCode msg :
  let r := checkForProblemsWithShared e remoteFolder currentDateTime anotherSyncNeeded
             journal item httpStatusCode msg in
  (handled r = true ->
     httpStatusCode = 403 /\ isInSharedDirectory remoteFolder (_file item) = true) /\
  (forall kind it restoreJobMsg, _restoreJob r = Some (kind, it, restoreJobMsg) ->
     handled r = true /\ restoreJobMsg = msg /\
     _direction it = Down /\ _file it = _file item /\
     _isDirectory it = _isDirectory item /\
     (if _isDirectory item
      then kind = PropagateLocalMkdir /\ _instruction it = CSYNC_INSTRUCTION_NEW /\
           problem_anotherSyncNeeded r = true
      else kind = PropagateDownloadFile /\
           _instruction it =
             (if bool_decide (_instruction item = CSYNC_INSTRUCTION_SYNC)
              then CSYNC_INSTRUCTION_CONFLICT else CSYNC_INSTRUCTION_SYNC))) /\
  (_restoreJob r = None -> handled r = false) /\
  (_isDirectory item = false ->
     problem_journal r = journal /\ problem_anotherSyncNeeded r = anotherSyncNeeded /\
     (_instruction item = CSYNC_INSTRUCTION_NEW \/
      _instruction item = CSYNC_INSTRUCTION_TYPE_CHANGE -> _restoreJob r = None)).
Proof.
  intros r. subst r. unfold checkForProblemsWithShared.
  destruct (Z.eqb_spec httpStatusCode 403) as [H403|H403]; cbn [andb].
  2:{ repeat split; try discriminate; auto. }
  destruct (isInSharedDirectory remoteFolder (_file item)) eqn:Hshared.
  2:{ repeat split; try discriminate; auto. }
  destruct (_isDirectory item) eqn:Hdir; cbn [negb].
  - cbn [handled _restoreJob problem_journal problem_anotherSyncNeeded].
    split; [auto|]. split; [|split; [discriminate|discriminate]].
    intros kind it restoreJobMsg [= <- <- <-]. repeat split. exact Hdir.
  - destruct (bool_decide_reflect (_instruction item = CSYNC_INSTRUCTION_NEW)) as [Hn|Hn];
      [|destruct (bool_decide_reflect (_instruction item = CSYNC_INSTRUCTION_TYPE_CHANGE))
          as [Ht|Ht]];
      cbn [orb handled _restoreJob problem_journal problem_anotherSyncNeeded].
    + repeat split; try discriminate; auto.
    + repeat split; try discriminate; auto.
    + split; [auto|]. split; [|split; [discriminate|]].
      * intros kind it restoreJobMsg [= <- <- <-].
        destruct (bool_decide (_instruction item = CSYNC_INSTRUCTION_SYNC));
          repeat split; exact Hdir.
      * intros _. repeat split. intros [?|?]; contradiction.
Qed.

(** *** Directory jobs at run time *)

(** A directory job while the propagator runs: the job [start] built, the
    state of the job itself and the state of the job [_firstJob] points
    to, if any. *)
Record RunningDirectory := mkRunning {
  directory : PropagateDirectory;
  dir_state : JobState;
  firstJobState : JobState
}.

(** Outside these sources: what [_firstJob->scheduleSelfOrChild()] returns
    and the state it leaves that job in. *)
Variable firstJobSchedule : Job -> bool * JobState.

Definition with_subJobs (c : PropagatorCompositeJob) (d : PropagateDirectory)
  : PropagateDirectory :=
  mkDirectory (dir_item d) (_firstJob d) c (_affectedCount d).

Definition takeFirstJob (d : PropagateDirectory) : PropagateDirectory :=
  mkDirectory (dir_item d) None (_subJobs d) (_affectedCount d).

(** [PropagateDirectory::parallelism]. *)
Definition directoryParallelism (d : RunningDirectory) : JobParallelism :=
  let subJobsParallelism :=
    match compositeParallelism (_runningJobs (_subJobs (directory d))) with
    | FullParallelism => FullParallelism
    | _ => WaitForFinished
    end in
  match _firstJob (directory d) with
  | Some job =>
      match parallelism job with
      | FullParallelism => subJobsParallelism
      | _ => WaitForFinished
      end
  | None => subJobsParallelism
  end.

(** [PropagateDirectory::scheduleSelfOrChild]: the value returned, the
    directory afterwards, and whether the composite of sub jobs posted its
    finalization. *)
Definition directoryScheduleSelfOrChild (v : list SyncFileItem) (d : RunningDirectory)
  : bool * RunningDirectory * bool :=
  if bool_decide (dir_state d = Finished) then (false, d, false)
  else
    let st := if bool_decide (dir_state d = NotYetStarted) then Running else dir_state d in
    let viaSubJobs :=
      let '(r, c, posted) := scheduleSelfOrChild v (_subJobs (directory d)) in
      (r, mkRunning (with_subJobs c (directory d)) st (firstJobState d), posted) in
    match _firstJob (directory d) with
    | Some job =>
        if bool_decide (firstJobState d = NotYetStarted) then
          let '(r, jobState) := firstJobSchedule job in
          (r, mkRunning (directory d) st jobState, false)
        else if bool_decide (firstJobState d = Running) then
          (false, mkRunning (directory d) st (firstJobState d), false)
        else viaSubJobs
    | None => viaSubJobs
    end.

(** [PropagateDirectory::slotFirstJobFinished]: the directory afterwards,
    the signals sent, and whether [abort()] was called. *)
Definition slotFirstJobFinished (status : Status) (d : RunningDirectory)
  : RunningDirectory * list Signal * bool :=
  let d1 := mkRunning (takeFirstJob (directory d)) (dir_state d) (firstJobState d) in
  if (negb (bool_decide (status = Success))
      && negb (bool_decide (status = Restoration)))%bool
  then (mkRunning (directory d1) Finished (firstJobState d1), [SigFinished status], true)
  else (d1, [SigScheduleNextJob], false).

(** X27. A directory job starts no sub job before its first job is done:
    while [_firstJob] is there and has not finished, [scheduleSelfOrChild]
    leaves the composite of sub jobs as it is and posts nothing, and
    returns false while the first job runs. When the first job ends with
    anything but Success or Restoration, the directory job calls [abort],
    becomes Finished and sends [finished] with that status, and from then
    on [scheduleSelfOrChild] returns false and changes nothing, so its sub
    jobs are never started. When it ends with Success or Restoration the
    first job is taken away, the next job is asked for, and the next
    [scheduleSelfOrChild] returns what the one of the composite of sub jobs
    returns. The
    directory job reports full parallelism exactly when its first job and
    every running sub job do, and asks to be waited for otherwise. *)
Theorem directory_subjobs_wait_for_first_job v d job status :
  _firstJob (directory d) = Some job ->
  (firstJobState d <> Finished ->
     _subJobs (directory (directoryScheduleSelfOrChild v d).1.2) = _subJobs (directory d) /\
     (directoryScheduleSelfOrChild v d).2 = false /\
     (firstJobState d = Running -> (directoryScheduleSelfOrChild v d).1.1 = false)) /\
  (status <> Success -> status <> Restoration ->
     let r := slotFirstJobFinished status d in
     dir_state r.1.1 = Finished /\ r.1.2 = [SigFinished status] /\ r.2 = true /\
     _subJobs (directory r.1.1) = _subJobs (directory d) /\
     directoryScheduleSelfOrChild v r.1.1 = (false, r.1.1, false)) /\
  (status = Success \/ status = Restoration ->
     let r := slotFirstJobFinished status d in
     _firstJob (directory r.1.1) = None /\ r.1.2 = [SigScheduleNextJob] /\ r.2 = false /\
     dir_state r.1.1 = dir_state d /\
     (dir_state d <> Finished ->
        (directoryScheduleSelfOrChild v r.1.1).1.1
        = (scheduleSelfOrChild v (_subJobs (directory d))).1.1)) /\
  (directoryParallelism d = FullParallelism <->
     parallelism job = FullParallelism /\
     compositeParallelism (_runningJobs (_subJobs (directory d))) = FullParallelism) /\
  (directoryParallelism d = FullParallelism \/ directoryParallelism d = WaitForFinished).
Proof.
  intros Hfirst. split; [|split; [|split; [|split]]].
  - intros Hnf. unfold directoryScheduleSelfOrChild.
    destruct (bool_decide (dir_state d = Finished)); [auto|].
    rewrite Hfirst.
    destruct (bool_decide_reflect (firstJobState d = NotYetStarted)) as [Hn|Hn].
    + destruct (firstJobSchedule job) as [r jobState]. cbn.
      repeat split. intros Hr. rewrite Hn in Hr. discriminate.
    + destruct (bool_decide_reflect (firstJobState d = Running)) as [Hr|Hr];
        [cbn; auto|].
      destruct (firstJobState d); contradiction.
  - intros Hs Hr r. subst r. unfold slotFirstJobFinished.
    rewrite !bool_decide_eq_false_2 by assumption. cbn.
    repeat split.
  - intros Hs r. subst r. unfold slotFirstJobFinished.
    replace (negb (bool_decide (status = Success))
             && negb (bool_decide (status = Restoration)))%bool with false
      by (destruct Hs as [-> | ->]; reflexivity).
    cbn [fst snd directory dir_state takeFirstJob _firstJob].
    repeat split. intros Hnf. unfold directoryScheduleSelfOrChild.
    cbn [directory dir_state takeFirstJob _firstJob _subJobs firstJobState].
    rewrite bool_decide_eq_false_2 by exact Hnf.
    destruct (scheduleSelfOrChild v (_subJobs (directory d))) as [[r c] posted].
    reflexivity.
  - unfold directoryParallelism. rewrite Hfirst.
    destruct (parallelism job);
      destruct (compositeParallelism (_runningJobs (_subJobs (directory d))));
      split; try discriminate; try (intros [? ?]; discriminate); auto.
  - unfold directoryParallelism. rewrite Hfirst.
    destruct (parallelism job);
      destruct (compositeParallelism (_runningJobs (_subJobs (directory d)))); auto.
Qed.

End Completion.

(** *** Limits: parallel jobs and free disk space *)

(** A [uint] kept in an [int]. *)
Definition uint_to_int (v : Z) : Z := (v + 2 ^ 31) mod 2 ^ 32 - 2 ^ 31.

(** [OwncloudPropagator::hardMaximumActiveJob]; [envMaxParallel] is what
    [qgetenv("OWNCLOUD_MAX_PARALLEL").toUInt()] gave when the function was
    first called (0 when the variable is not set or is no number). *)
Definition hardMaximumActiveJob (envMaxParallel : Z) : Z :=
  let max := uint_to_int envMaxParallel in
  if max =? 0 then 6 else max.

(** [qCeil(n / 2.)] for an [int] [n]. *)
Definition qCeilHalf (n : Z) : Z := (n + 1) / 2.

(** [OwncloudPropagator::maximumActiveTransferJob]. *)
Definition maximumActiveTransferJob (downloadLimit uploadLimit envMaxParallel : Z) : Z :=
  if (negb (downloadLimit =? 0) || negb (uploadLimit =? 0))%bool then 1
  else qCeilHalf (hardMaximumActiveJob envMaxParallel).

(** The loop of lines 539-543 over [_activeJobList], each job given by
    what its [isLikelyFinishedQuickly()] answers. *)
Definition likelyFinishedQuicklyCount (maxTransfer : Z) (activeJobList : list bool) : Z :=
  Z.of_nat (length (List.filter (fun quick : bool => quick)
                                (firstn (Z.to_nat maxTransfer) activeJobList))).

(** [OwncloudPropagator::scheduleNextJobImpl]: whether it calls
    [_rootJob->scheduleSelfOrChild()], and whether it then calls
    [scheduleNextJob()] again, given what the root job answers. *)
Definition scheduleNextJobImpl (downloadLimit uploadLimit envMaxParallel : Z)
    (activeJobList : list bool) (rootSchedules : bool) : bool * bool :=
  let count := Z.of_nat (length activeJobList) in
  let maxTransfer := maximumActiveTransferJob downloadLimit uploadLimit envMaxParallel in
  if count <? maxTransfer then (true, rootSchedules)
  else if count <? hardMaximumActiveJob envMaxParallel then
    if count <? maxTransfer + likelyFinishedQuicklyCount maxTransfer activeJobList
    then (true, rootSchedules)
    else (false, false)
  else (false, false).

(** [qBound(min, val, max)]. *)
Definition qBound (min val max : Z) : Z := Z.max min (Z.min max val).

(** [freeSpaceLimit]; the argument is the value of
    [OWNCLOUD_FREE_SPACE_BYTES] when it reads as a number. *)
Definition freeSpaceLimit (envFree : option Z) : Z :=
  match envFree with
  | Some env => env
  | None => 250 * 1000 * 1000
  end.

(** [criticalFreeSpaceLimit]. *)
Definition criticalFreeSpaceLimit (envCritical envFree : option Z) : Z :=
  let value :=
    match envCritical with
    | Some env => env
    | None => 50 * 1000 * 1000
    end in
  qBound 0 value (freeSpaceLimit envFree).

Inductive DiskSpaceResult := DiskSpaceOk | DiskSpaceFailure | DiskSpaceCritical.

(** [OwncloudPropagator::diskSpaceCheck], given what
    [Utility::freeDiskSpace] and [_rootJob->committedDiskSpace()] answer. *)
Definition diskSpaceCheck (envCritical envFree : option Z) (freeBytes committed : Z)
  : DiskSpaceResult :=
  if freeBytes <? 0 then DiskSpaceOk
  else if freeBytes <? criticalFreeSpaceLimit envCritical envFree then DiskSpaceCritical
  else if freeBytes - committed <? freeSpaceLimit envFree then DiskSpaceFailure
  else DiskSpaceOk.

(** [PropagatorCompositeJob::committedDiskSpace], each running job given
    by what its own [committedDiskSpace()] answers. *)
Definition committedDiskSpace (runningJobs : list Z) : Z :=
  fold_left (fun needed job => needed + job) runningJobs 0.

Lemma uint_to_int_small v : 0 <= v < 2 ^ 31 -> uint_to_int v = v.
Proof. intros H. unfold uint_to_int. rewrite Z.mod_small by lia. lia. Qed.

Lemma likelyFinishedQuicklyCount_bound maxTransfer activeJobList :
  0 <= maxTransfer ->
  0 <= likelyFinishedQuicklyCount maxTransfer activeJobList <= maxTransfer.
Proof.
  intros H. unfold likelyFinishedQuicklyCount.
  pose proof (List.filter_length_le (fun quick : bool => quick)
                (firstn (Z.to_nat maxTransfer) activeJobList)) as Hf.
  pose proof (firstn_le_length (Z.to_nat maxTransfer) activeJobList) as Hn.
  lia.
Qed.

(** X28. With [OWNCLOUD_MAX_PARALLEL] unset or a number that fits an
    [int], the number of transfer jobs wanted lies between 1 and the hard
    maximum of active jobs (with the variable unset the hard maximum is 6
    and the number wanted 3 or 1), and [scheduleNextJobImpl] asks the root
    job for another job
    only while fewer jobs are active than the hard maximum, and fewer than
    twice the number of transfer jobs wanted; it always asks while fewer
    are active than that number, and calls [scheduleNextJob] again only
    when the root job has scheduled something. *)
Theorem scheduleNextJobImpl_respects_limits
    downloadLimit uploadLimit envMaxParallel activeJobList rootSchedules :
  0 <= envMaxParallel < 2 ^ 31 ->
  let hard := hardMaximumActiveJob envMaxParallel in
  let maxTransfer := maximumActiveTransferJob downloadLimit uploadLimit envMaxParallel in
  let active := Z.of_nat (length activeJobList) in
  let r := scheduleNextJobImpl downloadLimit uploadLimit envMaxParallel
             activeJobList rootSchedules in
  1 <= maxTransfer <= hard /\
  (envMaxParallel = 0 -> hard = 6 /\ (maxTransfer = 3 \/ maxTransfer = 1)) /\
  (fst r = true -> active < hard /\ active < 2 * maxTransfer) /\
  (active < maxTransfer -> fst r = true) /\
  (snd r = true -> fst r = true /\ rootSchedules = true).
Proof.
  intros Henv hard maxTransfer active r.
  assert (Hhard : 1 <= hard).
  { unfold hard, hardMaximumActiveJob. rewrite uint_to_int_small by exact Henv.
    destruct (Z.eqb_spec envMaxParallel 0); lia. }
  assert (Hmax : 1 <= maxTransfer <= hard).
  { unfold maxTransfer, maximumActiveTransferJob, qCeilHalf. fold hard.
    destruct (_ || _)%bool; [lia|].
    pose proof (Z.div_mod (hard + 1) 2 ltac:(lia)) as Hd.
    pose proof (Z.mod_pos_bound (hard + 1) 2 ltac:(lia)) as Hm. lia. }
  pose proof (likelyFinishedQuicklyCount_bound maxTransfer activeJobList ltac:(lia))
    as Hlikely.
  split; [exact Hmax|]. split.
  { intros ->. unfold hard, maxTransfer, maximumActiveTransferJob.
    destruct (_ || _)%bool; auto. }
  subst r. unfold scheduleNextJobImpl. fold maxTransfer hard active.
  destruct (Z.ltb_spec active maxTransfer) as [H1|H1]; cbn [fst snd].
  { repeat split; auto; lia. }
  destruct (Z.ltb_spec active hard) as [H2|H2]; cbn [fst snd].
  2:{ repeat split; try discriminate; lia. }
  destruct (Z.ltb_spec active
              (maxTransfer + likelyFinishedQuicklyCount maxTransfer activeJobList))
    as [H3|H3]; cbn [fst snd].
  - repeat split; auto; lia.
  - repeat split; try discriminate; lia.
Qed.

(** X29. An unknown amount of free space (a negative answer) passes the
    disk space check. For a known amount, with nothing negative committed
    and a free space limit that is not negative, the critical limit lies
    between 0 and the free space limit, so that a critical result is a
    shortage as well, and the check answers Ok exactly when the free space
    less the space committed by the running jobs reaches the free space
    limit. *)
Theorem diskSpaceCheck_ok_means_room envCritical envFree freeBytes committed :
  (freeBytes < 0 ->
     diskSpaceCheck envCritical envFree freeBytes committed = DiskSpaceOk) /\
  (0 <= freeBytes -> 0 <= committed -> 0 <= freeSpaceLimit envFree ->
     0 <= criticalFreeSpaceLimit envCritical envFree <= freeSpaceLimit envFree /\
     (diskSpaceCheck envCritical envFree freeBytes committed = DiskSpaceOk <->
        freeSpaceLimit envFree <= freeBytes - committed) /\
     (diskSpaceCheck envCritical envFree freeBytes committed = DiskSpaceCritical <->
        freeBytes < criticalFreeSpaceLimit envCritical envFree)).
Proof.
  unfold diskSpaceCheck. split.
  - intros H. destruct (Z.ltb_spec freeBytes 0); [reflexivity|lia].
  - intros Hf Hc Hl.
    assert (Hcrit : 0 <= criticalFreeSpaceLimit envCritical envFree
                    <= freeSpaceLimit envFree)
      by (unfold criticalFreeSpaceLimit, qBound; lia).
    split; [exact Hcrit|].
    destruct (Z.ltb_spec freeBytes 0); [lia|].
    destruct (Z.ltb_spec freeBytes (criticalFreeSpaceLimit envCritical envFree)).
    + split; split; try discriminate; try reflexivity; lia.
    + destruct (Z.ltb_spec (freeBytes - committed) (freeSpaceLimit envFree));
        split; split; try discriminate; try reflexivity; lia.
Qed.


(** *** Closed instances *)

(** Modelled from the spec: [SyncFileItem::destination] is declared with
    the item, outside these sources. The specification's item carries
    [file] and [renameTarget] and is placed by its destination: the rename
    target when there is one, the file otherwise. It serves the instances
    below; the theorem on [start] holds for any [destination]. *)
Definition itemDestination (item : SyncFileItem) : string :=
  if QStr.isEmpty (_renameTarget item) then _file item else _renameTarget item.

(** Modelled from the spec: the order of the item vector, which is with
    the item's declaration, outside these sources; the specification has
    it "sorted by destination path (ascending, /-separated prefixes before
    deeper paths)". A slash sorts before every other character. *)
Fixpoint pathLess (a b : string) : bool :=
  match a, b with
  | EmptyString, EmptyString => false
  | EmptyString, String _ _ => true
  | String _ _, EmptyString => false
  | String c a', String d b' =>
      if Ascii.eqb c d then pathLess a' b'
      else if Ascii.eqb c "/" then true
      else if Ascii.eqb d "/" then false
      else (nat_of_ascii c <? nat_of_ascii d)%nat
  end.

Fixpoint sortedByDestination (v : list SyncFileItem) : bool :=
  match v with
  | [] => true
  | x :: rest =>
      match rest with
      | [] => true
      | y :: _ =>
          (pathLess (itemDestination x) (itemDestination y)
           && sortedByDestination rest)%bool
      end
  end.

Definition fileItem (file : string) (instruction : csync_instructions_e)
    (direction : Direction) (isDirectory : bool) : SyncFileItem :=
  mkItem file file "" instruction direction isDirectory false false false
         NoStatus "" 0 "" 0 "".

(** A directory that is removed, and a file in it that is removed too. *)
Definition removedTree : list SyncFileItem :=
  [ fileItem "d" CSYNC_INSTRUCTION_REMOVE Down true;
    fileItem "d/a" CSYNC_INSTRUCTION_REMOVE Down false ].

(** C3 as stated fails: the vector is sorted and its paths are distinct,
    its second item is not a directory, and the tree holds the directory
    job of the first item and no task or leaf job for the second, which
    only adds to the affected count of the directory job. *)
Lemma start_passes_over_remove_below_removed_directory :
  sortedByDestination removedTree = true /\
  NoDup (map _file removedTree) /\
  List.filter (fun i => negb (isDirectoryAt removedTree i)) (seq 0 (length removedTree))
    = [1%nat] /\
  leafItems (start itemDestination 10000000 false removedTree) = [] /\
  directoryJobItems (start itemDestination 10000000 false removedTree) = [0%nat] /\
  (_affectedCount <$> arena (start itemDestination 10000000 false removedTree) !! 1%nat)
    = Some 1%nat /\
  ~ oneJobPerItem itemDestination 10000000 false removedTree.
Proof.
  split; [reflexivity|]. split.
  { apply NoDup_cons_2; [|apply NoDup_cons_2; [|apply NoDup_nil_2]].
    - intros H. apply list_elem_of_singleton in H. discriminate.
    - intros H. inversion H. }
  repeat (split; [reflexivity|]).
  intros [_ H].
  change (leafItems (start itemDestination 10000000 false removedTree)) with (@nil nat) in H.
  change (List.filter _ (seq 0 (length removedTree))) with [1%nat] in H.
  apply Permutation_nil_cons in H. exact H.
Qed.

(** A new directory and a new file in it. *)
Definition newTree : list SyncFileItem :=
  [ fileItem "d" CSYNC_INSTRUCTION_NEW Down true;
    fileItem "d/a" CSYNC_INSTRUCTION_NEW Down false ].

Lemma start_one_job_per_item_without_removal_witness :
  oneJobPerItem itemDestination 10000000 false newTree.
Proof.
  apply (start_one_job_per_item_without_removal itemDestination 10000000 false newTree).
  repeat constructor.
Defined.

(** Modelled from the spec: [SyncJournalErrorBlacklistRecord::update],
    outside these sources. The specification has the update increment
    [retryCount], double [ignoreDuration] within bounds (a first entry
    already has [ignoreDuration > 0]) and refresh [lastTryEtag],
    [lastTryModtime] and [lastTryTime]. It serves the instances below; the
    theorems on [done] hold for every [update] and [isValid]. *)
Definition sample_update (old : Journal.SyncJournalBlacklistRecord) (item : SyncFileItem)
  : Journal.SyncJournalBlacklistRecord :=
  Journal.mkBlacklist (Journal._retryCount old + 1)
                      (_errorString item)
                      (_modtime item)
                      (_etag item)
                      1500000000
                      (Z.min 86400 (Z.max 25 (2 * Journal._ignoreDuration old)))
                      (_file item).

(** Modelled from the spec: [SyncJournalErrorBlacklistRecord::isValid],
    outside these sources; the specification leaves open what makes an
    entry invalid, and the default record, which names no path, is the one
    entry it treats as absent. *)
Definition sample_isValid (entry : Journal.SyncJournalBlacklistRecord) : bool :=
  negb (QStr.isEmpty (Journal._file entry)).

(** An item that already has a blacklist entry. *)
Definition blacklistedItem : SyncFileItem :=
  mkItem "f" "f" "" CSYNC_INSTRUCTION_SYNC Up false false true false
         NoStatus "" 1400000000 "e1" 10 "".

(** The same, with [_errorMayBeBlacklisted] set. *)
Definition blacklistableItem : SyncFileItem :=
  mkItem "f" "f" "" CSYNC_INSTRUCTION_SYNC Up false false true true
         NoStatus "" 1400000000 "e1" 10 "".

(** A journal whose blacklist holds an entry for ["f"]. *)
Definition blacklistedJournal : Journal.SyncJournalDb :=
  Journal.updateBlacklistEntry Journal.allOk Journal.entry_f Journal.fresh.

Lemma done_suppresses_continued_blacklisting_witness :
  let it := itemAtSwitch blacklistedItem NormalError "HTTP 500" in
  let entry := recomputedEntry Journal.column_int false sample_update
                 Journal.allOk blacklistedJournal it in
  let r := done Journal.column_int false sample_update sample_isValid
             Journal.allOk 0 blacklistedJournal blacklistedItem NormalError "HTTP 500" in
  (finished r = FileIgnored <->
     _hasBlacklistEntry blacklistedItem = true /\
     sample_isValid entry = true /\ 0 < Journal._ignoreDuration entry /\
     ((NormalError = NormalError /\ 0 = 0) \/
      _errorMayBeBlacklisted blacklistedItem = true)) /\
  (finished r = FileIgnored ->
     _errorString (done_item r)
     = "Continue blacklisting:" +:+ " " +:+ _errorString it) /\
  (finished r <> FileIgnored ->
     finished r = (if 0 =? 0 then NormalError else SoftError)) /\
  _status (done_item r) = finished r.
Proof.
  exact (done_suppresses_continued_blacklisting Journal.column_int false
           sample_update sample_isValid Journal.allOk 0 blacklistedJournal
           blacklistedItem NormalError "HTTP 500" eq_refl).
Defined.

Lemma done_after_abort_is_soft_or_ignored_witness :
  let it := itemAtSwitch blacklistedItem FatalError "HTTP 500" in
  let entry := recomputedEntry Journal.column_int false sample_update
                 Journal.allOk Journal.fresh it in
  let r := done Journal.column_int false sample_update sample_isValid
             Journal.allOk 1 Journal.fresh blacklistedItem FatalError "HTTP 500" in
  statusAtSwitch 1 blacklistedItem FatalError = SoftError /\
  (finished r = SoftError \/ finished r = FileIgnored) /\
  (finished r = FileIgnored <->
     _errorMayBeBlacklisted blacklistedItem = true /\
     _hasBlacklistEntry blacklistedItem = true /\
     sample_isValid entry = true /\ 0 < Journal._ignoreDuration entry) /\
  _status (done_item r) = finished r /\
  abortCalled r = false.
Proof.
  apply (done_after_abort_is_soft_or_ignored Journal.column_int false
           sample_update sample_isValid Journal.allOk 1 Journal.fresh
           blacklistedItem FatalError "HTTP 500").
  - lia.
  - right. reflexivity.
Defined.

(** C7 as stated fails: with an abort requested, a leaf for an item that
    may be blacklisted and already has an entry completes with NormalError
    and ends as FileIgnored, not SoftError. *)
Lemma done_after_abort_may_end_ignored :
  finished (done Journal.column_int false sample_update sample_isValid
              Journal.allOk 1 Journal.fresh blacklistableItem NormalError "HTTP 500")
  = FileIgnored /\
  _status (done_item
             (done Journal.column_int false sample_update sample_isValid
                Journal.allOk 1 Journal.fresh blacklistableItem NormalError "HTTP 500"))
  = FileIgnored.
Proof. split; vm_compute; reflexivity. Qed.

(** C4 as stated fails: with an abort requested, a leaf completes with
    NormalError for an item that already has a blacklist entry, without
    [_errorMayBeBlacklisted]; the recomputed entry is valid with an ignore
    duration above 0, and the job ends as SoftError, not FileIgnored, with
    the error string as given. *)
Lemma done_normal_error_under_abort_stays_soft :
  _hasBlacklistEntry blacklistedItem = true /\
  sample_isValid
    (recomputedEntry Journal.column_int false sample_update Journal.allOk
       blacklistedJournal (itemAtSwitch blacklistedItem NormalError "HTTP 500")) = true /\
  0 < Journal._ignoreDuration
        (recomputedEntry Journal.column_int false sample_update Journal.allOk
           blacklistedJournal (itemAtSwitch blacklistedItem NormalError "HTTP 500")) /\
  finished (done Journal.column_int false sample_update sample_isValid
              Journal.allOk 1 blacklistedJournal blacklistedItem NormalError "HTTP 500")
  = SoftError /\
  _errorString
    (done_item (done Journal.column_int false sample_update sample_isValid
                  Journal.allOk 1 blacklistedJournal blacklistedItem NormalError
                  "HTTP 500"))
  = "HTTP 500".
Proof. repeat split; vm_compute; reflexivity. Qed.

Definition leafA : Job := JLeaf PropagateUploadFileV1 0 false.
Definition leafB : Job := JLeaf PropagateUploadFileV1 1 false.

(** A composite with two uploads running and nothing else to do. *)
Definition twoRunning : PropagatorCompositeJob :=
  mkComposite Running [] [] [leafA; leafB] NoStatus.

Definition idle (j : Job) : bool := false.
Definition parallel (j : Job) : JobParallelism := FullParallelism.

Lemma composite_emits_last_error_witness :
  (forall s, In (SigFinished s) [SigFinished SoftError] ->
     s = statusEmitted
           (lastError (reported ([SubJobFinished leafA NormalError]
                                 ++ [SubJobFinished leafB SoftError])))) /\
  (forall subJob st, SubJobFinished leafB SoftError = SubJobFinished subJob st ->
     _state (mkComposite Running [] [] [leafB] NormalError) <> Finished ->
     nothingLeft (mkComposite Finished [] [] [] SoftError) = true ->
     [SigFinished SoftError]
     = [SigFinished
          (statusEmitted
             (lastError (reported ([SubJobFinished leafA NormalError]
                                   ++ [SubJobFinished leafB SoftError]))))]).
Proof.
  apply (composite_emits_last_error idle parallel 0 false []
           [SubJobFinished leafA NormalError] (SubJobFinished leafB SoftError)
           twoRunning (mkComposite Running [] [] [leafB] NormalError)
           [SigScheduleNextJob]
           (mkComposite Finished [] [] [] SoftError) [SigFinished SoftError]);
    reflexivity.
Defined.

(** C5 as stated fails: the first upload ends with NormalError, the second
    with SoftError, and the composite sends [finished(SoftError)], while
    the most severe status among the two is NormalError. *)
Lemma composite_emits_soft_after_normal :
  compositeRun idle parallel 0 false []
    [SubJobFinished leafA NormalError; SubJobFinished leafB SoftError] twoRunning
  = Some (mkComposite Finished [] [] [] SoftError,
          [SigScheduleNextJob; SigFinished SoftError]) /\
  mostSevere [NormalError; SoftError] = NormalError.
Proof. split; reflexivity. Qed.

(** *** Instances of the further facts *)

Lemma createJob_side_follows_direction_witness :
  exists kind deleteExisting,
    JLeaf PropagateUploadFileV1 0 false = JLeaf kind 0 deleteExisting /\
    (_direction (fileItem "f" CSYNC_INSTRUCTION_SYNC Up false) = Up ->
       remoteSide kind = true \/ kind = PropagateIgnoreJob) /\
    (_direction (fileItem "f" CSYNC_INSTRUCTION_SYNC Up false) = Down ->
       localSide kind = true \/ kind = PropagateIgnoreJob) /\
    (kind = PropagateUploadFileNG ->
       10000000 < _size (fileItem "f" CSYNC_INSTRUCTION_SYNC Up false) /\ false = true) /\
    (deleteExisting = true ->
       _instruction (fileItem "f" CSYNC_INSTRUCTION_SYNC Up false)
       = CSYNC_INSTRUCTION_TYPE_CHANGE).
Proof.
  apply (createJob_side_follows_direction 10000000 false 0
           (fileItem "f" CSYNC_INSTRUCTION_SYNC Up false)
           (JLeaf PropagateUploadFileV1 0 false)).
  reflexivity.
Defined.

(** A file that has become a directory on this side, with a new file in
    it to upload. *)
Definition typeChangeTree : list SyncFileItem :=
  [ fileItem "d" CSYNC_INSTRUCTION_TYPE_CHANGE Up true;
    fileItem "d/a" CSYNC_INSTRUCTION_NEW Up false ].

Lemma start_skips_uploads_below_type_change_witness :
  _instruction (set_instruction CSYNC_INSTRUCTION_NONE
                  (fileItem "d/a" CSYNC_INSTRUCTION_NEW Up false))
  = CSYNC_INSTRUCTION_NONE /\
  createJob 10000000 false 1
    (set_instruction CSYNC_INSTRUCTION_NONE (fileItem "d/a" CSYNC_INSTRUCTION_NEW Up false))
  = None /\
  _anotherSyncNeeded (start itemDestination 10000000 false typeChangeTree) = true.
Proof.
  apply (start_skips_uploads_below_type_change itemDestination 10000000 false
           (fun ins it => eq_refl) typeChangeTree 0
           (fileItem "d" CSYNC_INSTRUCTION_TYPE_CHANGE Up true)
           eq_refl eq_refl eq_refl eq_refl eq_refl 1
           (set_instruction CSYNC_INSTRUCTION_NONE
              (fileItem "d/a" CSYNC_INSTRUCTION_NEW Up false)));
    reflexivity.
Defined.

Lemma composite_finishes_at_most_once_witness :
  (finishedSignals [SigScheduleNextJob; SigFinished SoftError] <= 1)%nat /\
  (finishedSignals [SigScheduleNextJob; SigFinished SoftError] = 1%nat ->
     _state (mkComposite Finished [] [] [] SoftError) = Finished) /\
  (_state twoRunning = Finished ->
     _state (mkComposite Finished [] [] [] SoftError) = Finished /\
     finishedSignals [SigScheduleNextJob; SigFinished SoftError] = 0%nat).
Proof.
  apply (composite_finishes_at_most_once idle parallel 0 false []
           [SubJobFinished leafA NormalError; SubJobFinished leafB SoftError;
            PostedFinalize; Schedule]
           twoRunning).
  reflexivity.
Defined.

(** Every job asks to be waited for. *)
Definition waiting (j : Job) : JobParallelism := WaitForFinished.

(** A composite with an upload running, a directory job to do and a task. *)
Definition oneRunning : PropagatorCompositeJob :=
  mkComposite Running [JDir 1] [2%nat] [leafA] NoStatus.

Lemma scheduleSelfOrChild_waits_for_blocking_job_witness :
  let r := scheduleSelfOrChild idle waiting 0 false [] oneRunning in
  r.1.1 = false /\ r.2 = false /\
  _jobsToDo r.1.2 = _jobsToDo oneRunning /\ _tasksToDo r.1.2 = _tasksToDo oneRunning /\
  _runningJobs r.1.2 = _runningJobs oneRunning /\ _hasError r.1.2 = _hasError oneRunning.
Proof.
  apply (scheduleSelfOrChild_waits_for_blocking_job idle waiting 0 false []
           oneRunning [] leafA []); reflexivity.
Defined.

Lemma done_success_wipes_blacklist_witness :
  let r := done Journal.column_int false sample_update sample_isValid
             Journal.allOk 0 Journal.twoEntries blacklistedItem Success "" in
  (finished r = Success \/ finished r = Restoration) /\
  (forall row, In row (Journal.blacklist (Journal._db (done_journal r))) ->
     Journal._file row <> _file blacklistedItem /\
     Journal._file row <> _originalFile blacklistedItem) /\
  Journal.metadata (Journal._db (done_journal r))
  = Journal.metadata (Journal._db Journal.twoEntries).
Proof.
  apply (done_success_wipes_blacklist Journal.column_int false sample_update
           sample_isValid Journal.allOk 0 Journal.twoEntries blacklistedItem
           Success ""); try reflexivity.
  left. reflexivity.
Defined.

(** A directory job whose first job, a mkdir, is running. *)
Definition mkdirJob : Job := JLeaf PropagateRemoteMkdir 0 false.

Definition startedDirectory : RunningDirectory :=
  mkRunning (mkDirectory (Some 0%nat) (Some mkdirJob)
               (mkComposite NotYetStarted [] [1%nat] [] NoStatus) 0)
            Running Running.

Definition leafStarts (j : Job) : bool * JobState := (true, Running).

Lemma directory_subjobs_wait_for_first_job_witness :
  _subJobs (directory
              (directoryScheduleSelfOrChild idle parallel 0 false leafStarts []
                 startedDirectory).1.2)
  = _subJobs (directory startedDirectory) /\
  (directoryScheduleSelfOrChild idle parallel 0 false leafStarts [] startedDirectory).1.1
  = false /\
  dir_state (slotFirstJobFinished NormalError startedDirectory).1.1 = Finished /\
  (slotFirstJobFinished NormalError startedDirectory).1.2 = [SigFinished NormalError].
Proof.
  destruct (directory_subjobs_wait_for_first_job idle parallel 0 false leafStarts []
              startedDirectory mkdirJob NormalError eq_refl) as (Hwait & Hfail & _).
  destruct Hwait as (Hsub & _ & Hfalse); [discriminate|].
  destruct Hfail as (Hstate & Hsigs & _); [discriminate|discriminate|].
  split; [exact Hsub|]. split; [apply Hfalse; reflexivity|].
  split; [exact Hstate|exact Hsigs].
Defined.

Lemma scheduleNextJobImpl_respects_limits_witness :
  let hard := hardMaximumActiveJob 0 in
  let maxTransfer := maximumActiveTransferJob 0 0 0 in
  let active := Z.of_nat (length [false; true; false]) in
  let r := scheduleNextJobImpl 0 0 0 [false; true; false] true in
  1 <= maxTransfer <= hard /\
  (0 = 0 -> hard = 6 /\ (maxTransfer = 3 \/ maxTransfer = 1)) /\
  (fst r = true -> active < hard /\ active < 2 * maxTransfer) /\
  (active < maxTransfer -> fst r = true) /\
  (snd r = true -> fst r = true /\ true = true).
Proof.
  apply (scheduleNextJobImpl_respects_limits 0 0 0 [false; true; false] true).
  simpl. lia.
Defined.

End Propagator.

(** ** The server probe ([CheckServerJob], networkjobs.cpp) *)

Module CheckServer.

(** A URL: its scheme and the rest of it. *)
Record QUrl := mkUrl {
  scheme : string;
  address : string
}.

#[global] Instance QUrl_eq_dec : EqDecision QUrl.
Proof. solve_decision. Defined.

(** [QUrl::isEmpty]. *)
Definition urlIsEmpty (u : QUrl) : bool :=
  (QStr.isEmpty (scheme u) && QStr.isEmpty (address u))%bool.

(** What [slotFinished] reads from the reply: whether it carries an error,
    its size, the URL that was requested, the redirection target (empty
    when there is none) and the keys of the JSON object in its body (none
    when the body does not parse). *)
Record QNetworkReply := mkReply {
  hasError : bool;
  size : Z;
  requestUrl : QUrl;
  redirectionTarget : QUrl;
  statusKeys : list string
}.

(** The job: the reply it waits on, the redirect counter, whether
    [deleteLater] was called on it, and how many requests it has sent (one,
    by the constructor). *)
Record CheckServerJob := mkJob {
  _reply : option QNetworkReply;
  _followRedirects : bool;
  _redirectCount : Z;
  deleted : bool;
  requestsSent : nat
}.

Definition newJob (reply : QNetworkReply) (followRedirect : bool) : CheckServerJob :=
  mkJob (Some reply) followRedirect 0 false 1.

(** [AbstractNetworkJob::setReply]. *)
Definition setReply (reply : QNetworkReply) (job : CheckServerJob) : CheckServerJob :=
  mkJob (Some reply) (_followRedirects job) (_redirectCount job) (deleted job)
        (requestsSent job).

Inductive Outcome :=
| Dropped
| Redirected
| Answered (instanceFound : bool).

#[global] Instance Outcome_eq_dec : EqDecision Outcome.
Proof. solve_decision. Defined.

Section Redirects.

(** [MAX_REDIRECTS] is defined in the header, outside these sources. *)
Variable MAX_REDIRECTS : Z.

(** Lines 284-299: the body is parsed, [instanceFound] is sent when the
    three keys are there, and the job is scheduled for deletion. *)
Definition answer (reply : QNetworkReply) (job : CheckServerJob)
  : CheckServerJob * Outcome :=
  (mkJob (_reply job) (_followRedirects job) (_redirectCount job) true (requestsSent job),
   Answered (bool_decide ("installed" ∈ statusKeys reply)
             && bool_decide ("version" ∈ statusKeys reply)
             && bool_decide ("versionstring" ∈ statusKeys reply))).

(** [CheckServerJob::slotFinished]; [None] when the job has no reply. In
    the branch that follows a redirect the reply is taken from the job and
    the counter keeps its new value; the request for the target is not
    sent: that line of the source is commented out. *)
Definition slotFinished (job : CheckServerJob) : option (CheckServerJob * Outcome) :=
  match _reply job with
  | None => None
  | Some reply =>
      if (negb (hasError reply) && (size reply =? 0))%bool then
        Some (mkJob (_reply job) (_followRedirects job) (_redirectCount job) true
                    (requestsSent job), Dropped)
      else
        let requestedUrl := requestUrl reply in
        let redirectUrl := redirectionTarget reply in
        if negb (urlIsEmpty redirectUrl) then
          let counted :=
            mkJob (_reply job) (_followRedirects job) (_redirectCount job + 1)
                  (deleted job) (requestsSent job) in
          if (bool_decide (scheme requestedUrl = "https")
              && bool_decide (scheme redirectUrl = "http"))%bool then
            Some (answer reply counted)
          else if (bool_decide (requestedUrl = redirectUrl)
                   || (MAX_REDIRECTS <=? _redirectCount counted))%bool then
            Some (answer reply counted)
          else
            Some (mkJob None (_followRedirects job) (_redirectCount counted)
                        (deleted job) (requestsSent job), Redirected)
        else Some (answer reply job)
  end.

(** The replies a job sees, for as long as it lives: [slotFinished] runs
    on the reply the job waits on; after a redirect that is followed the
    next reply of [later] is set on the job, as
    [setReply(getRequest(redirectUrl))] would once the request is sent. *)
Fixpoint follow (later : list QNetworkReply) (job : CheckServerJob)
  : list Outcome * CheckServerJob :=
  match slotFinished job with
  | None => ([], job)
  | Some (job1, outcome) =>
      if deleted job1 then ([outcome], job1)
      else
        match later with
        | [] => ([outcome], job1)
        | next :: rest =>
            let '(outcomes, job2) := follow rest (setReply next job1) in
            (outcome :: outcomes, job2)
        end
  end.

Definition redirects (outcomes : list Outcome) : nat :=
  length (List.filter (fun o => bool_decide (o = Redirected)) outcomes).

(** The redirect is a downgrade from https to http. *)
Definition downgrade (reply : QNetworkReply) : bool :=
  (bool_decide (scheme (requestUrl reply) = "https")
   && bool_decide (scheme (redirectionTarget reply) = "http"))%bool.

(** The redirect leads to the URL that was requested. *)
Definition loops (reply : QNetworkReply) : bool :=
  bool_decide (requestUrl reply = redirectionTarget reply).

Lemma slotFinished_cases job job1 outcome :
  slotFinished job = Some (job1, outcome) ->
  requestsSent job1 = requestsSent job /\
  (outcome <> Redirected -> deleted job1 = true) /\
  (outcome = Redirected ->
   exists reply, _reply job = Some reply /\
     downgrade reply = false /\ loops reply = false /\
     _redirectCount job1 = _redirectCount job + 1 /\
     _redirectCount job1 < MAX_REDIRECTS /\
     deleted job1 = deleted job).
Proof.
  unfold slotFinished, answer, downgrade, loops.
  destruct (_reply job) as [reply|]; [|discriminate].
  destruct (negb (hasError reply) && (size reply =? 0))%bool.
  { intros [= <- <-]. split; [reflexivity|split; [reflexivity|discriminate]]. }
  destruct (negb (urlIsEmpty (redirectionTarget reply))).
  2:{ intros [= <- <-]. split; [reflexivity|split; [reflexivity|discriminate]]. }
  destruct (_ && _)%bool eqn:Hdown.
  { intros [= <- <-]. split; [reflexivity|split; [reflexivity|discriminate]]. }
  destruct (bool_decide (requestUrl reply = redirectionTarget reply)) eqn:Hloop.
  { intros [= <- <-]. split; [reflexivity|split; [reflexivity|discriminate]]. }
  cbn [orb _redirectCount].
  destruct (Z.leb_spec MAX_REDIRECTS (_redirectCount job + 1)).
  { intros [= <- <-]. split; [reflexivity|split; [reflexivity|discriminate]]. }
  intros [= <- <-]. cbn [requestsSent deleted _redirectCount].
  split; [reflexivity|split; [contradiction|]]. intros _. exists reply.
  repeat split; try reflexivity; assumption.
Qed.

Lemma follow_bound later job first :
  _reply job = Some first ->
  deleted job = false ->
  Z.of_nat (redirects (follow later job).1)
    <= Z.max 0 (MAX_REDIRECTS - 1 - _redirectCount job) /\
  (forall i reply, (follow later job).1 !! i = Some Redirected ->
                   (first :: later) !! i = Some reply ->
                   downgrade reply = false /\ loops reply = false) /\
  requestsSent (follow later job).2 = requestsSent job.
Proof.
  revert job first. induction later as [|next rest IH]; intros job first Hreply Hlive.
  - cbn [follow].
    destruct (slotFinished job) as [[job1 outcome]|] eqn:Hslot.
    2:{ split; [cbn; lia|split; [intros i r H; destruct i; discriminate|reflexivity]]. }
    destruct (slotFinished_cases _ _ _ Hslot) as (Hsent & Hdel & Hred).
    assert (Hone : Z.of_nat (redirects [outcome])
                   <= Z.max 0 (MAX_REDIRECTS - 1 - _redirectCount job) /\
                   (forall i reply, [outcome] !! i = Some Redirected ->
                      [first] !! i = Some reply ->
                      downgrade reply = false /\ loops reply = false)).
    { destruct (decide (outcome = Redirected)) as [->|Hne].
      - destruct (Hred eq_refl) as (reply & Hr & Hdg & Hlp & Hc & Hlt & _).
        split; [unfold redirects; cbn [List.filter];
                rewrite bool_decide_eq_true_2 by reflexivity; cbn [length]; lia|].
        intros [|i] r H Hf; [|destruct i; discriminate].
        cbn in Hf. injection Hf as <-. rewrite Hreply in Hr. injection Hr as ->. auto.
      - split.
        + unfold redirects. cbn [List.filter].
          rewrite bool_decide_eq_false_2 by exact Hne. cbn. lia.
        + intros [|i] r H Hf; [|destruct i; discriminate].
          cbn in H. congruence. }
    destruct (deleted job1); cbn [fst snd];
      (split; [apply Hone|split; [apply Hone|exact Hsent]]).
  - cbn [follow].
    destruct (slotFinished job) as [[job1 outcome]|] eqn:Hslot.
    2:{ split; [cbn; lia|split; [intros i r H; destruct i; discriminate|reflexivity]]. }
    destruct (slotFinished_cases _ _ _ Hslot) as (Hsent & Hdel & Hred).
    destruct (decide (outcome = Redirected)) as [->|Hne].
    + destruct (Hred eq_refl) as (reply & Hr & Hdg & Hlp & Hc & Hlt & Hd).
      rewrite Hreply in Hr. injection Hr as <-.
      rewrite Hlive in Hd. rewrite Hd.
      destruct (IH (setReply next job1) next eq_refl Hd) as (Hn & Hg & Hs).
      destruct (follow rest (setReply next job1)) as [outcomes job2].
      cbn [fst snd] in *. cbn [setReply _redirectCount requestsSent] in Hn, Hs.
      split; [|split].
      * unfold redirects in *. cbn [List.filter].
        rewrite bool_decide_eq_true_2 by reflexivity. cbn [length]. lia.
      * intros [|i] r H Hf.
        -- cbn in Hf. injection Hf as <-. auto.
        -- apply (Hg i r); assumption.
      * congruence.
    + rewrite (Hdel Hne). cbn [fst snd]. split; [|split].
      * unfold redirects. cbn [List.filter].
        rewrite bool_decide_eq_false_2 by exact Hne. cbn. lia.
      * intros [|i] r H Hf; [cbn in H; congruence|destruct i; discriminate].
      * exact Hsent.
Qed.

(** C8. Whatever replies arrive for a new job, [slotFinished] takes the
    branch that follows a redirect fewer than [MAX_REDIRECTS] times, so at
    most [MAX_REDIRECTS] times, never on a redirect from https to http and
    never on a redirect to the URL that was requested; and the job has
    still sent only the request of its constructor. *)
Theorem redirects_bounded_no_downgrade_no_loop
    (first : QNetworkReply) (followRedirect : bool) (later : list QNetworkReply) :
  let outcomes := (follow later (newJob first followRedirect)).1 in
  Z.of_nat (redirects outcomes) <= Z.max 0 (MAX_REDIRECTS - 1) /\
  Z.of_nat (redirects outcomes) <= Z.max 0 MAX_REDIRECTS /\
  (forall i reply,
     outcomes !! i = Some Redirected -> (first :: later) !! i = Some reply ->
     downgrade reply = false /\ loops reply = false) /\
  requestsSent (follow later (newJob first followRedirect)).2 = 1%nat.
Proof.
  intros outcomes.
  destruct (follow_bound later (newJob first followRedirect) first eq_refl eq_refl)
    as (Hn & Hg & Hs).
  fold outcomes in Hn, Hg. cbn [newJob _redirectCount requestsSent] in Hn, Hs.
  split; [lia|split; [lia|split; [exact Hg|exact Hs]]].
Qed.

(** *** The flag [_followRedirects] *)

Definition withFollowRedirects (b : bool) (job : CheckServerJob) : CheckServerJob :=
  mkJob (_reply job) b (_redirectCount job) (deleted job) (requestsSent job).

Lemma slotFinished_flag b job :
  slotFinished (withFollowRedirects b job) =
  option_map (fun r : CheckServerJob * Outcome => (withFollowRedirects b r.1, r.2))
             (slotFinished job).
Proof.
  unfold slotFinished, answer.
  cbn [withFollowRedirects _reply _followRedirects _redirectCount deleted requestsSent].
  destruct (_reply job) as [reply|]; [|reflexivity].
  repeat match goal with
         | |- context [if ?x then _ else _] => destruct x
         end; reflexivity.
Qed.

Lemma follow_flag b later job :
  follow later (withFollowRedirects b job) =
  ((follow later job).1, withFollowRedirects b (follow later job).2).
Proof.
  revert job. induction later as [|next rest IH]; intros job; cbn [follow];
    rewrite slotFinished_flag;
    destruct (slotFinished job) as [[job1 outcome]|]; cbn [option_map fst snd];
    try reflexivity;
    cbn [withFollowRedirects deleted]; destruct (deleted job1); try reflexivity.
  change (setReply next (withFollowRedirects b job1))
    with (withFollowRedirects b (setReply next job1)).
  rewrite IH. destruct (follow rest (setReply next job1)) as [outcomes job2].
  reflexivity.
Qed.

(** X30. [slotFinished] never reads [_followRedirects]: its outcome on a
    job does not change with the flag, and a job constructed with
    [followRedirect] false goes through the same outcomes, the redirects
    it follows among them, as one constructed with [followRedirect] true,
    whatever replies arrive. *)
Theorem slotFinished_ignores_followRedirects
    (first : QNetworkReply) (later : list QNetworkReply) :
  (follow later (newJob first false)).1 = (follow later (newJob first true)).1 /\
  forall job b,
    option_map snd (slotFinished (withFollowRedirects b job))
    = option_map snd (slotFinished job).
Proof.
  split.
  - change (newJob first false) with (withFollowRedirects false (newJob first true)).
    rewrite follow_flag. reflexivity.
  - intros job b. rewrite slotFinished_flag.
    destruct (slotFinished job) as [[job1 outcome]|]; reflexivity.
Qed.

End Redirects.

End CheckServer.
